(** * Dash-Electrum peer network orchestration ([electrum_dash/dash_net.py])

    A shallow embedding of the pure and state-passing parts of [dash_net.py]
    together with the properties of its natural-language specification.

    The first part holds the definitions, module by module in the order of
    the source; the second part holds the lemmas and theorems.

    Conventions.
    - Python [int] is [Z]; [str] is [string] (characters are code points
      below 256); [dict] with string keys is [gmap string _]; [set] is
      [gset string]; [list], [deque] and [queue.Queue] are [list].
    - [time.time()] readings are rationals ([Q]); every binary64 value is a
      rational, and a difference of two readings is rounded to binary64 as
      the code's subtraction rounds it ([Float64.sub]).
    - an attribute that holds [None] or an object is an [option].
    - a method that mutates [self] is a function from the state before the
      call to an outcome and the state after it; an exception that leaves
      the method is the outcome [Raise]. *)

From Stdlib Require Import ZArith QArith Qpower Qround Lia Lqa.
From Stdlib Require Import String Ascii List Bool.
From stdpp Require Import base gmap sets list strings pretty.

Local Open Scope string_scope.
Local Open Scope list_scope.
Local Open Scope Z_scope.

(** ** Exceptions and outcomes *)

Inductive exn : Type :=
| IndexError
| AttributeError
| AssertionError
| KeyError.

Inductive result (A : Type) : Type :=
| Ok (a : A)
| Raise (e : exn).

Arguments Ok {A} a.
Arguments Raise {A} e.

#[global] Instance exn_eq_dec : EqDecision exn.
Proof. solve_decision. Defined.

#[global] Instance result_eq_dec {A} `{EqDecision A} : EqDecision (result A).
Proof. solve_decision. Defined.

(** ** Rational clock readings *)

Definition Qltb (a b : Q) : bool :=
  match (a ?= b)%Q with Lt => true | _ => false end.

(** ** Module-level constants *)

Definition Y2099 : Z := 4070908800.
Definition MIN_PEERS_LIMIT : Z := 2.
Definition MAX_PEERS_LIMIT : Z := 8.
Definition MAX_PEERS_DEFAULT : Z := 2.

(** ** Host name validation *)

Module Hostname.

(** The character class [[A-Z\d-]] under [re.IGNORECASE]. *)
Definition in_class (c : ascii) : bool :=
  let n := N_of_ascii c in
  ((65 <=? n) && (n <=? 90))%N          (* A-Z *)
  || ((97 <=? n) && (n <=? 122))%N      (* a-z, by IGNORECASE *)
  || ((48 <=? n) && (n <=? 57))%N       (* \d *)
  || (n =? 45)%N.                       (* - *)

Definition is_hyphen (c : ascii) : bool := (N_of_ascii c =? 45)%N.
Definition is_newline (c : ascii) : bool := (N_of_ascii c =? 10)%N.
Definition is_dot (c : ascii) : bool := (N_of_ascii c =? 46)%N.

(** [(?!-)[A-Z\d-]{1,63}(?<!-)] consuming the whole of [x]. *)
Definition label_body (x : list ascii) : bool :=
  match x with
  | [] => false
  | c :: _ =>
      negb (is_hyphen c)
      && (Nat.leb (List.length x) 63)
      && forallb in_class x
      && negb (is_hyphen (List.last x c))
  end.

(** [ALLOWED_HOSTNAME_RE.match(x)] is not [None].  [match] anchors at the
    start; [$] holds at the end of [x] and also just before a newline that
    is the last character of [x]. *)
Definition ALLOWED_HOSTNAME_RE_match (x : list ascii) : bool :=
  label_body x
  || match List.rev x with
     | c :: r => is_newline c && label_body (List.rev r)
     | [] => false
     end.

(** [s.split(".")] on the characters of [s]: never empty. *)
Fixpoint split_dot (s : list ascii) : list (list ascii) :=
  match s with
  | [] => [[]]
  | c :: s' =>
      if is_dot c then [] :: split_dot s'
      else match split_dot s' with
           | w :: ws => (c :: w) :: ws
           | [] => [[c]]
           end
  end.

Definition is_valid_hostname (hostname : string) : result bool :=
  let h := list_ascii_of_string hostname in
  if Nat.ltb 255 (List.length h) then Ok false
  else
    match List.rev h with
    | [] => Raise IndexError                     (* hostname[-1] *)
    | c :: r =>
        let h := if is_dot c then List.rev r else h in
        Ok (forallb ALLOWED_HOSTNAME_RE_match (split_dot h))
    end.

End Hostname.

(** ** Port numbers and the textual list of peers *)

Module PeersText.

(** [c.isdigit()] for a character below 256: the ten decimal digits and the
    superscripts two, three and one. *)
Definition isdigit_char (c : ascii) : bool :=
  let n := N_of_ascii c in
  ((48 <=? n) && (n <=? 57))%N || (n =? 178)%N || (n =? 179)%N || (n =? 185)%N.

Definition is_decimal (c : ascii) : bool :=
  let n := N_of_ascii c in ((48 <=? n) && (n <=? 57))%N.

(** [int(s)] on a string of decimal digits.  (An interpreter that limits
    the length of such conversions is not modelled.) *)
Definition int_of_decimals (p : list ascii) : Z :=
  fold_left (fun acc c => 10 * acc + (Z.of_N (N_of_ascii c) - 48)) p 0.

Inductive portnum_outcome : Type :=
| Returns (b : bool)
| RaisesValueError.       (* int() refuses a superscript digit *)

(** [is_valid_portnum] *)
Definition is_valid_portnum (portnum : string) : portnum_outcome :=
  let p := list_ascii_of_string portnum in
  match p with
  | [] => Returns false                                   (* ''.isdigit() *)
  | _ =>
      if negb (forallb isdigit_char p) then Returns false
      else if forallb is_decimal p
           then let n := int_of_decimals p in
                Returns ((0 <? n) && (n <? 65536))
           else RaisesValueError
  end.

(** The separators of [re.split(r';|,| |\n', peers_str)]. *)
Definition is_sep (c : ascii) : bool :=
  let n := N_of_ascii c in
  (n =? 59)%N || (n =? 44)%N || (n =? 32)%N || (n =? 10)%N.

Definition is_colon (c : ascii) : bool := (N_of_ascii c =? 58)%N.

(** Splitting at every character that satisfies [sep]: never empty. *)
Fixpoint split_where (sep : ascii -> bool) (s : list ascii)
    : list (list ascii) :=
  match s with
  | [] => [[]]
  | c :: s' =>
      if sep c then [] :: split_where sep s'
      else match split_where sep s' with
           | w :: ws => (c :: w) :: ws
           | [] => [[c]]
           end
  end.

Definition nonempty (x : list ascii) : bool :=
  match x with [] => false | _ => true end.

(** No character of [p] is a separator. *)
Definition sep_free (p : list ascii) : bool :=
  forallb (fun c => negb (is_sep c)) p.

(** [list(filter(lambda x: x, re.split(...)))] *)
Definition entries (peers_str : list ascii) : list (list ascii) :=
  List.filter nonempty (split_where is_sep peers_str).

(** [p.split(':', 1)] for a [p] that contains a colon. *)
Fixpoint split_colon_1 (p : list ascii) : list ascii * list ascii :=
  match p with
  | [] => ([], [])
  | c :: p' =>
      if is_colon c then ([], p')
      else let '(h, t) := split_colon_1 p' in (c :: h, t)
  end.

(** What the check of one entry comes to. *)
Inductive entry_outcome : Type :=
| EntryOk
| EntryInvalid
| EntryIndexError
| EntryValueError.

(** The body of the [for] loop of [dash_peers_from_str] for one entry; [or]
    does not evaluate the port when the host name is refused. *)
Definition check_entry (p : list ascii) : entry_outcome :=
  if existsb is_colon p
  then
    let '(hostname, portnum) := split_colon_1 p in
    match Hostname.is_valid_hostname (string_of_list_ascii hostname) with
    | Raise _ => EntryIndexError
    | Ok false => EntryInvalid
    | Ok true =>
        match is_valid_portnum (string_of_list_ascii portnum) with
        | RaisesValueError => EntryValueError
        | Returns false => EntryInvalid
        | Returns true => EntryOk
        end
    end
  else
    match Hostname.is_valid_hostname (string_of_list_ascii p) with
    | Raise _ => EntryIndexError
    | Ok false => EntryInvalid
    | Ok true => EntryOk
    end.

(** What [dash_peers_from_str] comes to: the list of peers, the message
    that names the first refused entry, or an exception. *)
Inductive peers_outcome : Type :=
| Peers (peers : list string)
| InvalidHostname (p : string)
| RaisesIndexError
| RaisesValueErr.

Fixpoint check_entries (peers todo : list (list ascii)) : peers_outcome :=
  match todo with
  | [] => Peers (List.map string_of_list_ascii peers)
  | p :: todo' =>
      match check_entry p with
      | EntryOk => check_entries peers todo'
      | EntryInvalid => InvalidHostname (string_of_list_ascii p)
      | EntryIndexError => RaisesIndexError
      | EntryValueError => RaisesValueErr
      end
  end.

(** [dash_peers_from_str] *)
Definition dash_peers_from_str (peers_str : string) : peers_outcome :=
  let peers := entries (list_ascii_of_string peers_str) in
  check_entries peers peers.

(** [', '.join(l)] *)
Fixpoint join_comma_space (l : list (list ascii)) : list ascii :=
  match l with
  | [] => []
  | [p] => p
  | p :: l' => p ++ "," %char :: " " %char :: join_comma_space l'
  end.

(** [dash_peers_as_str] for [self.dash_peers = dash_peers]. *)
Definition dash_peers_as_str (dash_peers : list string) : string :=
  string_of_list_ascii
    (join_comma_space (List.map list_ascii_of_string dash_peers)).

End PeersText.

(** ** Binary64 arithmetic of the quorum computation and of the clock

    [peers_cnt * 0.51] is a product of binary64 numbers and the built-in
    [round] takes a binary64 number to the nearest integer, ties to even;
    [now - t] on two readings of [time.time()] is a difference of binary64
    numbers.  A finite binary64 number is the rational it denotes.  Exponent
    range is not modelled: the values met here are far from overflow and
    from the subnormal range. *)

Module Float64.

(** Nearest integer, ties to even. *)
Definition round_half_even (x : Q) : Z :=
  let f := Qfloor x in
  match ((x - inject_Z f) ?= 1 # 2)%Q with
  | Lt => f
  | Gt => f + 1
  | Eq => if Z.even f then f else f + 1
  end.

(** [floor (log2 x)] for [0 < x]. *)
Definition ilog2 (x : Q) : Z :=
  let a := Z.log2 (Qnum x) - Z.log2 (Z.pos (Qden x)) in
  if Qle_bool (Qpower 2 a) x then a else a - 1.

(** Rounding of a positive rational to 53 significant bits, ties to even. *)
Definition round_pos (x : Q) : Q :=
  let e := ilog2 x in
  (inject_Z (round_half_even (x * Qpower 2 (52 - e))) * Qpower 2 (e - 52))%Q.

(** The binary64 number nearest to a rational. *)
Definition of_Q (x : Q) : Q :=
  match (x ?= 0)%Q with
  | Eq => 0%Q
  | Gt => round_pos x
  | Lt => (- round_pos (- x))%Q
  end.

(** [float(n)] for a Python [int]. *)
Definition of_int (n : Z) : Q := of_Q (inject_Z n).

(** The literal [0.51]. *)
Definition lit_0_51 : Q := of_Q (51 # 100).

(** [a * b] on binary64 numbers. *)
Definition mul (a b : Q) : Q := of_Q (a * b).

(** [a - b] on binary64 numbers. *)
Definition sub (a b : Q) : Q := of_Q (a - b).

(** [a / b] on binary64 numbers or on two [int], [b] not zero. *)
Definition div (a b : Q) : Q := of_Q (a / b).

(** The built-in [round(x)] with one argument. *)
Definition py_round (x : Q) : Z := round_half_even x.

(** The binary64 number with significand [m] and exponent [e], for
    [2 ^ 52 <= m < 2 ^ 53]. *)
Definition binary64 (m e : Z) : Q := (inject_Z m * Qpower 2 (e - 52))%Q.

(** A rational is a binary64 number when rounding leaves it as it is. *)
Definition is_float (x : Q) : Prop := (of_Q x == x)%Q.

End Float64.

(** ** [DashSporks] *)

Module Sporks.

(** The members of [dash_msg.SporkID] that this file names. *)
Inductive SporkName : Type :=
| SPORK_2_INSTANTSEND_ENABLED
| SPORK_3_INSTANTSEND_BLOCK_FILTERING
| SPORK_5_INSTANTSEND_MAX_VALUE
| SPORK_6_NEW_SIGS
| SPORK_9_SUPERBLOCKS_ENABLED
| SPORK_12_RECONSIDER_BLOCKS
| SPORK_15_DETERMINISTIC_MNS_ENABLED
| SPORK_16_INSTANTSEND_AUTOLOCKS
| SPORK_17_QUORUM_DKG_ENABLED
| SPORK_19_CHAINLOCKS_ENABLED
| SPORK_20_INSTANTSEND_LLMQ_BASED.

Record DashSporks : Type := {
  from_peers : gset string;
  gathered_sporks : gmap Z Z
}.

(** [DashSporks.__init__] *)
Definition init : DashSporks :=
  {| from_peers := ∅; gathered_sporks := ∅ |}.

Section WithSporkID.

(** The enumeration [SporkID] is declared in [dash_msg], outside this file:
    [SporkID_value m] stands for [SporkID.m.value] and [has_value] for
    [SporkID.has_value]. *)
Variable SporkID_value : SporkName -> Z.
Variable has_value : Z -> bool.

(** A dict display: later keys overwrite earlier ones. *)
Definition SPORKS_DEFAULTS : gmap Z Z :=
  fold_left (fun m kv => <[kv.1 := kv.2]> m)
    [ (SporkID_value SPORK_2_INSTANTSEND_ENABLED, 0);
      (SporkID_value SPORK_3_INSTANTSEND_BLOCK_FILTERING, 0);
      (SporkID_value SPORK_5_INSTANTSEND_MAX_VALUE, 1000);
      (SporkID_value SPORK_6_NEW_SIGS, Y2099);
      (SporkID_value SPORK_9_SUPERBLOCKS_ENABLED, Y2099);
      (SporkID_value SPORK_12_RECONSIDER_BLOCKS, 0);
      (SporkID_value SPORK_15_DETERMINISTIC_MNS_ENABLED, Y2099);
      (SporkID_value SPORK_16_INSTANTSEND_AUTOLOCKS, Y2099);
      (SporkID_value SPORK_17_QUORUM_DKG_ENABLED, Y2099);
      (SporkID_value SPORK_19_CHAINLOCKS_ENABLED, Y2099);
      (SporkID_value SPORK_20_INSTANTSEND_LLMQ_BASED, Y2099) ]
    (∅ : gmap Z Z).

(** [self.logger.info(...)]: [DashSporks] has no base class and its
    [__init__] sets no [logger], so the line that reports an id that
    [SporkID] does not know raises [AttributeError]. *)
Definition log_unknown_spork_id : exn := AttributeError.

Definition set_spork (spork_id value : Z) (peer : string)
    (self : DashSporks) : result unit * DashSporks :=
  if negb (has_value spork_id)
  then (Raise log_unknown_spork_id, self)
  else (Ok tt,
        {| gathered_sporks := <[spork_id := value]> (gathered_sporks self);
           from_peers := {[peer]} ∪ from_peers self |}).

Definition get_spork_value (spork_id : Z)
    (self : DashSporks) : result (option Z) :=
  if negb (has_value spork_id) then Raise log_unknown_spork_id
  else
    Ok match gathered_sporks self !! spork_id with
       | Some value => Some value
       | None => SPORKS_DEFAULTS !! spork_id
       end.

(** [now] is the reading of [time.time()] inside the call; an [int] and a
    [float] are compared by their values. *)
Definition is_spork_active (spork_id : Z) (now : Q)
    (self : DashSporks) : result bool :=
  if negb (has_value spork_id) then Raise log_unknown_spork_id
  else
    Ok match gathered_sporks self !! spork_id with
       | Some value => Qltb (inject_Z value) now
       | None =>
           match SPORKS_DEFAULTS !! spork_id with
           | Some value => Qltb (inject_Z value) now
           | None => false
           end
       end.

Definition is_spork_default (spork_id : Z)
    (self : DashSporks) : result bool :=
  if negb (has_value spork_id) then Raise log_unknown_spork_id
  else
    Ok match gathered_sporks self !! spork_id with
       | Some _ => false
       | None =>
           match SPORKS_DEFAULTS !! spork_id with
           | Some _ => true
           | None => false
           end
       end.

End WithSporkID.

(** One value of the dict that [as_dict] returns. *)
Record spork_entry : Type := {
  entry_name : string;
  entry_value : Z;
  entry_default : bool;
  entry_active : bool
}.

Section WithSporkNames.

Variable SporkID_value : SporkName -> Z.
Variable has_value : Z -> bool.
(** [SporkID_name k] stands for [SporkID(k).name]. *)
Variable SporkID_name : Z -> string.

(** [as_dict]: the loop over the defaults, then the loop over the gathered
    values; [now] is the reading of [time.time()]. *)
Definition as_dict (now : Q) (self : DashSporks) : gmap Z spork_entry :=
  let name k := if has_value k then SporkID_name k else pretty k in
  let res :=
    map_fold
      (fun k v res =>
         <[k := {| entry_name := name k; entry_value := v;
                   entry_default := true;
                   entry_active := Qltb (inject_Z v) now |}]> res)
      (∅ : gmap Z spork_entry) (SPORKS_DEFAULTS SporkID_value) in
  map_fold
    (fun k v res =>
       <[k := {| entry_name := name k; entry_value := v;
                 entry_default := false;
                 entry_active := Qltb (inject_Z v) now |}]> res)
    res (gathered_sporks self).

End WithSporkNames.

(** The numbering of the eleven named members on the Dash network, used
    where a closed instance of the enumeration is needed. *)
Definition dash_SporkID_value (m : SporkName) : Z :=
  match m with
  | SPORK_2_INSTANTSEND_ENABLED => 10001
  | SPORK_3_INSTANTSEND_BLOCK_FILTERING => 10002
  | SPORK_5_INSTANTSEND_MAX_VALUE => 10004
  | SPORK_6_NEW_SIGS => 10005
  | SPORK_9_SUPERBLOCKS_ENABLED => 10008
  | SPORK_12_RECONSIDER_BLOCKS => 10011
  | SPORK_15_DETERMINISTIC_MNS_ENABLED => 10014
  | SPORK_16_INSTANTSEND_AUTOLOCKS => 10015
  | SPORK_17_QUORUM_DKG_ENABLED => 10016
  | SPORK_19_CHAINLOCKS_ENABLED => 10018
  | SPORK_20_INSTANTSEND_LLMQ_BASED => 10019
  end.

Definition dash_has_value (spork_id : Z) : bool :=
  existsb (fun m => Z.eqb (dash_SporkID_value m) spork_id)
    [ SPORK_2_INSTANTSEND_ENABLED; SPORK_3_INSTANTSEND_BLOCK_FILTERING;
      SPORK_5_INSTANTSEND_MAX_VALUE; SPORK_6_NEW_SIGS;
      SPORK_9_SUPERBLOCKS_ENABLED; SPORK_12_RECONSIDER_BLOCKS;
      SPORK_15_DETERMINISTIC_MNS_ENABLED; SPORK_16_INSTANTSEND_AUTOLOCKS;
      SPORK_17_QUORUM_DKG_ENABLED; SPORK_19_CHAINLOCKS_ENABLED;
      SPORK_20_INSTANTSEND_LLMQ_BASED ].

End Sporks.

(** ** The quorum of [_gather_sporks] *)

Module Gather.

(** The value bound to [gather_cnt] for a peer count [peers_cnt]. *)
Definition gather_cnt (peers_cnt : Z) : Z :=
  if peers_cnt <=? 2 then peers_cnt
  else Float64.py_round (Float64.mul (Float64.of_int peers_cnt)
                                     Float64.lit_0_51).

(** What one turn of the loop of [_gather_sporks] does. *)
Inductive turn : Type :=
| Sleep                         (* no peer connected *)
| SendGetsporks (p : string)    (* ['getsporks'] goes to the drawn peer *)
| AlreadyAsked (p : string)     (* the drawn peer has [sporks_done] *)
| Satisfied.                    (* as many contributors as [gather_cnt] *)

#[global] Instance turn_eq_dec : EqDecision turn.
Proof. solve_decision. Defined.

(** [get_random_peer] when a peer is connected; [sporks_done] holds, for
    each address of [self.peers], the flag [sporks_done] of its connection,
    and [k] is the index drawn. *)
Definition get_random_peer (k : nat) (sporks_done : gmap string bool)
    : option (string * bool) :=
  map_to_list sporks_done !! (k mod size sporks_done)%nat.

(** One turn of the loop of [_gather_sporks]: what it does and the flags
    afterwards. *)
Definition gather_turn (k : nat) (from_peers : gset string)
    (sporks_done : gmap string bool) : turn * gmap string bool :=
  let peers_cnt := Z.of_nat (size sporks_done) in
  if peers_cnt =? 0 then (Sleep, sporks_done)
  else if Z.of_nat (size from_peers) <? gather_cnt peers_cnt
       then match get_random_peer k sporks_done with
            | Some (p, false) =>
                (SendGetsporks p, <[p := true]> sporks_done)
            | Some (p, true) => (AlreadyAsked p, sporks_done)
            | None => (Sleep, sporks_done)
            end
       else (Satisfied, sporks_done).

(** The quorum as the specification words it. *)
Definition spec_quorum (n : Z) : Z :=
  if n <=? 2 then n else Qceiling ((51 # 100) * inject_Z n)%Q.

(** Whether the quorum of the code is the nearest integer to 51/100 of the
    count, on the [len] counts from [n] on. *)
Fixpoint nearest_from (n : Z) (len : nat) : bool :=
  match len with
  | O => true
  | S len' =>
      (gather_cnt n
       =? Float64.round_half_even ((51 # 100) * inject_Z n))
      && nearest_from (n + 1) len'
  end.

End Gather.

(** ** Recent instant-send locks *)

Module IsLocks.

(** One tuple of [recent_islocks]:
    [(txid, time.time(), islock, quorum, request_id)]. *)
Record islock_rec : Type := {
  il_txid : string;
  il_time : Q;
  il_islock : string;
  il_quorum : string;
  il_request_id : string
}.

(** The attributes of [DashNet] behind [recent_islocks_lock]. *)
Record state : Type := {
  recent_islocks_clear : Q;
  recent_islocks : list islock_rec
}.

(** The guard of [clear_recent_islocks]: [true] when the call goes on to
    the scan. *)
Definition scans (keep_sec now : Q) (self : state) : bool :=
  negb (Qltb (Float64.sub now (recent_islocks_clear self))
             (Float64.div keep_sec 15)).

(** [clear_recent_islocks(keep_sec)] called when [time.time()] reads [now]. *)
Definition clear_recent_islocks (keep_sec now : Q) (self : state) : state :=
  if Qltb (Float64.sub now (recent_islocks_clear self))
          (Float64.div keep_sec 15)
  then self
  else {| recent_islocks :=
            List.filter (fun x => Qltb (Float64.sub now (il_time x)) keep_sec)
                        (recent_islocks self);
          recent_islocks_clear := now |}.

(** The default [keep_sec=900]. *)
Definition keep_sec_default : Q := 900.

(** The part of [append_to_recent_islocks] after the quorum was found. *)
Definition append_to_recent_islocks (x : islock_rec) (now : Q)
    (self : state) : state :=
  clear_recent_islocks keep_sec_default now
    {| recent_islocks := recent_islocks self ++ [x];
       recent_islocks_clear := recent_islocks_clear self |}.

(** [append_to_recent_islocks]: [quorum] is what
    [calc_responsible_quorum] answers, [t] the reading of [time.time()]
    that goes into the tuple and [now] the reading inside
    [clear_recent_islocks]. *)
Definition append_islock (txid islock request_id : string)
    (quorum : option string) (t now : Q) (self : state) : state :=
  match quorum with
  | None => self                       (* logged, nothing stored *)
  | Some q =>
      append_to_recent_islocks
        {| il_txid := txid; il_time := t; il_islock := islock;
           il_quorum := q; il_request_id := request_id |}
        now self
  end.

Section WithVerify.

(** [verify_islock(islock, quorum, request_id)], a BLS signature check. *)
Variable verify_islock : string -> string -> string -> bool.

(** The [for] loop of [verify_on_recent_islocks]. *)
Fixpoint verify_found (found : list islock_rec) : bool :=
  match found with
  | [] => false
  | x :: rest =>
      if verify_islock (il_islock x) (il_quorum x) (il_request_id x)
      then true
      else verify_found rest
  end.

(** [verify_on_recent_islocks] *)
Definition verify_on_recent_islocks (txid : string) (self : state) : bool :=
  verify_found
    (List.filter (fun x => String.eqb (il_txid x) txid) (recent_islocks self)).

End WithVerify.

End IsLocks.

(** ** Recent mixing-queue announcements *)

Module Dsq.

(** [collections.deque] with [maxlen]: a full deque drops at the other end. *)
Definition deque_append {A} (maxlen : nat) (x : A) (d : list A) : list A :=
  let d' := d ++ [x] in
  drop (List.length d' - maxlen)%nat d'.

Definition deque_appendleft {A} (maxlen : nat) (x : A) (d : list A) : list A :=
  take maxlen (x :: d).

(** A [dsq] message: the three fields that this file reads, and the rest of
    the message. *)
Record dsq_msg : Type := {
  nDenom : Z;
  masternodeOutPoint : string;      (* as rendered by [str] *)
  nTime : Z;
  fReady : bool;
  vchSig : string
}.

Record state : Type := {
  recent_dsq : list dsq_msg;           (* deque([], 100) *)
  recent_dsq_hashes : list string      (* deque([], 50) *)
}.

Definition init : state := {| recent_dsq := []; recent_dsq_hashes := [] |}.

(** No character of [l] is the separator [':'] of the fingerprint. *)
Definition colon_free (l : list ascii) : Prop :=
  existsb PeersText.is_colon l = false.

(** [f'{nDenom}:{dsq.masternodeOutPoint}:{dsq.nTime}'] *)
Definition dsq_hash (dsq : dsq_msg) : string :=
  pretty (nDenom dsq) +:+ ":" +:+ masternodeOutPoint dsq
    +:+ ":" +:+ pretty (nTime dsq).

Section WithDenoms.

(** [list(PSDenoms)]: the values of an enumeration of [dash_ps_net],
    declared outside this file. *)
Variable PSDenoms : list Z.

Definition add_recent_dsq (dsq : dsq_msg) (self : state) : state :=
  if negb (existsb (Z.eqb (nDenom dsq)) PSDenoms) then self
  else
    let h := dsq_hash dsq in
    if existsb (String.eqb h) (recent_dsq_hashes self) then self
    else {| recent_dsq_hashes := deque_append 50 h (recent_dsq_hashes self);
            recent_dsq := deque_appendleft 100 dsq (recent_dsq self) |}.

End WithDenoms.

Section WithMasternodes.

(** [PRIVATESEND_QUEUE_TIMEOUT] is a constant of [dash_ps_net];
    [mn_peer outpoint] is the address [ip:port] of the entry that
    [mn_list.get_mn_by_outpoint(outpoint)] finds, if it finds one. *)
Variable PRIVATESEND_QUEUE_TIMEOUT : Z.
Variable mn_peer : string -> option string.

(** [is_suitable_dsq], called when [time.time()] reads [now]. *)
Definition is_suitable_dsq (now : Q) (dsq : dsq_msg)
    (recent_mixes_mns : list string) : bool :=
  if Qltb (inject_Z PRIVATESEND_QUEUE_TIMEOUT)
          (Float64.sub now (Float64.of_int (nTime dsq)))
  then false
  else
    match mn_peer (masternodeOutPoint dsq) with
    | None => false
    | Some peer_str => negb (existsb (String.eqb peer_str) recent_mixes_mns)
    end.

(** The [while] loop of [get_recent_dsq] on the records of the deque. *)
Fixpoint get_recent_dsq_loop (now : Q) (recent_mixes_mns : list string)
    (d : list dsq_msg) : option dsq_msg * list dsq_msg :=
  match d with
  | [] => (None, [])
  | dsq :: d' =>
      if is_suitable_dsq now dsq recent_mixes_mns then (Some dsq, d')
      else get_recent_dsq_loop now recent_mixes_mns d'
  end.

(** [get_recent_dsq] *)
Definition get_recent_dsq (now : Q) (recent_mixes_mns : list string)
    (self : state) : option dsq_msg * state :=
  let '(r, d) := get_recent_dsq_loop now recent_mixes_mns (recent_dsq self) in
  (r, {| recent_dsq := d; recent_dsq_hashes := recent_dsq_hashes self |}).

(** The two operations on the caches, and the state after a sequence of
    them. *)
Inductive op : Type :=
| Add (dsq : dsq_msg)
| Get (now : Q) (recent_mixes_mns : list string).

Definition apply_op (PSDenoms : list Z) (o : op) (self : state) : state :=
  match o with
  | Add dsq => add_recent_dsq PSDenoms dsq self
  | Get now recent_mixes_mns => (get_recent_dsq now recent_mixes_mns self).2
  end.

Definition apply_ops (PSDenoms : list Z) (ops : list op)
    (self : state) : state :=
  fold_left (fun st o => apply_op PSDenoms o st) ops self.

End WithMasternodes.

(** The bounds of the two rings and the absence of a repeated
    fingerprint. *)
Definition rings_ok (s : state) : Prop :=
  (length (recent_dsq s) <= 100)%nat
  /\ (length (recent_dsq_hashes s) <= 50)%nat
  /\ NoDup (recent_dsq_hashes s).

End Dsq.

(** ** The activity monitor *)

Module Activity.

(** The three local variables of [_monitor_activity]. *)
Record seen : Type := {
  read_time : Q;
  write_time : Q;
  set_spork_time : Q
}.

Inductive callback : Type :=
| dash_net_activity
| sporks_activity.

(** One turn of the loop after its [sleep]: the three counters of the pool
    are read, the callbacks triggered are listed in order. *)
Definition monitor_turn (new_read_time new_write_time new_set_spork_time : Q)
    (s : seen) : list callback * seen :=
  let net := Qltb (read_time s) new_read_time
             || Qltb (write_time s) new_write_time in
  let spork := Qltb (set_spork_time s) new_set_spork_time in
  ((if net then [dash_net_activity] else [])
     ++ (if spork then [sporks_activity] else []),
   {| read_time := if net then new_read_time else read_time s;
      write_time := if net then new_write_time else write_time s;
      set_spork_time := if spork then new_set_spork_time
                        else set_spork_time s |}).

End Activity.

(** ** The range of a masternode-list diff request *)

Module MnListD.

Section WithChain.

(** [mn_list.LLMQ_OFFSET], [constants.CHUNK_SIZE],
    [constants.net.DIP3_ACTIVATION_HEIGHT] and [mn_list.calc_max_height]
    are declared outside this file. *)
Variable LLMQ_OFFSET CHUNK_SIZE DIP3_ACTIVATION_HEIGHT : Z.
Variable calc_max_height : Z -> Z -> Z.

(** The first half of [getmnlistd]: the pair [(base_height, height)] that
    is queued and requested, or [None] where the coroutine returns before
    it requests anything.  [height] is [network.get_local_height()]. *)
Definition getmnlistd_params (get_mns : bool) (protx_height llmq_height : Z)
    (height : Z) : option (Z * Z) :=
  let base_height := if get_mns then protx_height else llmq_height in
  if (height =? 0)
     || (height <=? (if get_mns then base_height
                     else base_height + LLMQ_OFFSET))
  then None
  else
    let height :=
      if base_height <=? 1
      then if height >? DIP3_ACTIVATION_HEIGHT
           then DIP3_ACTIVATION_HEIGHT + 1
           else height
      else if height - (base_height + LLMQ_OFFSET) >? CHUNK_SIZE
           then calc_max_height base_height height
           else if height - base_height >? LLMQ_OFFSET
                then height - LLMQ_OFFSET
                else height in
    Some (base_height, height).

End WithChain.

End MnListD.

(** ** [DashNet]: the peer pool *)

Module Net.

(** [SilentTaskGroup()], an opaque object. *)
Inductive TaskGroup : Type := SilentTaskGroup.

#[global] Instance TaskGroup_eq_dec : EqDecision TaskGroup.
Proof. solve_decision. Defined.

(** A [DashPeer] connection object: its address, its identity as an object,
    and the fields [connection_down] reads from it. *)
Record DashPeer : Type := {
  peer : string;
  oid : nat;
  ban_msg : option string;
  ban_till : option Z;
  user_agent : string
}.

#[global] Instance DashPeer_eq_dec : EqDecision DashPeer.
Proof. solve_decision. Defined.

(** An entry of [banlist]. *)
Record ban_record : Type := {
  ban_at : Q;
  ban_record_msg : option string;
  ban_record_till : option Z;
  ban_record_ua : string
}.

(** The keys of [SimpleConfig] read here; [None] is an unset key. *)
Record SimpleConfig : Type := {
  cfg_run_dash_net : option bool;
  cfg_dash_peers : option (list string);
  cfg_dash_use_static_peers : option bool;
  cfg_dash_max_peers : option Z
}.

Record DashNet : Type := {
  default_port : Z;
  dns_seeds : list string;
  is_cmd_dash_peers : bool;
  config : SimpleConfig;
  run_dash_net : bool;
  dash_peers : list string;
  use_static_peers : bool;
  static_peers : list string;
  main_taskgroup : option TaskGroup;
  peers : gmap string DashPeer;
  peeers : option (gmap string DashPeer);
  connecting : gset string;
  peers_queue : option (list string);
  banlist : gmap string ban_record;
  found_peers : gset string;
  disconnected_static : gmap string Q;
  _max_peers : Z
}.

(** Attribute assignment: [set_a v self] is [self] after [self.a = v]. *)

Definition set_config (v : SimpleConfig) (self : DashNet) : DashNet :=
  {| default_port := default_port self;
     dns_seeds := dns_seeds self;
     is_cmd_dash_peers := is_cmd_dash_peers self;
     config := v;
     run_dash_net := run_dash_net self;
     dash_peers := dash_peers self;
     use_static_peers := use_static_peers self;
     static_peers := static_peers self;
     main_taskgroup := main_taskgroup self;
     peers := peers self;
     peeers := peeers self;
     connecting := connecting self;
     peers_queue := peers_queue self;
     banlist := banlist self;
     found_peers := found_peers self;
     disconnected_static := disconnected_static self;
     _max_peers := _max_peers self |}.

Definition set_main_taskgroup (v : option TaskGroup) (self : DashNet) : DashNet :=
  {| default_port := default_port self;
     dns_seeds := dns_seeds self;
     is_cmd_dash_peers := is_cmd_dash_peers self;
     config := config self;
     run_dash_net := run_dash_net self;
     dash_peers := dash_peers self;
     use_static_peers := use_static_peers self;
     static_peers := static_peers self;
     main_taskgroup := v;
     peers := peers self;
     peeers := peeers self;
     connecting := connecting self;
     peers_queue := peers_queue self;
     banlist := banlist self;
     found_peers := found_peers self;
     disconnected_static := disconnected_static self;
     _max_peers := _max_peers self |}.

Definition set_peers (v : gmap string DashPeer) (self : DashNet) : DashNet :=
  {| default_port := default_port self;
     dns_seeds := dns_seeds self;
     is_cmd_dash_peers := is_cmd_dash_peers self;
     config := config self;
     run_dash_net := run_dash_net self;
     dash_peers := dash_peers self;
     use_static_peers := use_static_peers self;
     static_peers := static_peers self;
     main_taskgroup := main_taskgroup self;
     peers := v;
     peeers := peeers self;
     connecting := connecting self;
     peers_queue := peers_queue self;
     banlist := banlist self;
     found_peers := found_peers self;
     disconnected_static := disconnected_static self;
     _max_peers := _max_peers self |}.

Definition set_peeers (v : option (gmap string DashPeer)) (self : DashNet) : DashNet :=
  {| default_port := default_port self;
     dns_seeds := dns_seeds self;
     is_cmd_dash_peers := is_cmd_dash_peers self;
     config := config self;
     run_dash_net := run_dash_net self;
     dash_peers := dash_peers self;
     use_static_peers := use_static_peers self;
     static_peers := static_peers self;
     main_taskgroup := main_taskgroup self;
     peers := peers self;
     peeers := v;
     connecting := connecting self;
     peers_queue := peers_queue self;
     banlist := banlist self;
     found_peers := found_peers self;
     disconnected_static := disconnected_static self;
     _max_peers := _max_peers self |}.

Definition set_connecting (v : gset string) (self : DashNet) : DashNet :=
  {| default_port := default_port self;
     dns_seeds := dns_seeds self;
     is_cmd_dash_peers := is_cmd_dash_peers self;
     config := config self;
     run_dash_net := run_dash_net self;
     dash_peers := dash_peers self;
     use_static_peers := use_static_peers self;
     static_peers := static_peers self;
     main_taskgroup := main_taskgroup self;
     peers := peers self;
     peeers := peeers self;
     connecting := v;
     peers_queue := peers_queue self;
     banlist := banlist self;
     found_peers := found_peers self;
     disconnected_static := disconnected_static self;
     _max_peers := _max_peers self |}.

Definition set_peers_queue (v : option (list string)) (self : DashNet) : DashNet :=
  {| default_port := default_port self;
     dns_seeds := dns_seeds self;
     is_cmd_dash_peers := is_cmd_dash_peers self;
     config := config self;
     run_dash_net := run_dash_net self;
     dash_peers := dash_peers self;
     use_static_peers := use_static_peers self;
     static_peers := static_peers self;
     main_taskgroup := main_taskgroup self;
     peers := peers self;
     peeers := peeers self;
     connecting := connecting self;
     peers_queue := v;
     banlist := banlist self;
     found_peers := found_peers self;
     disconnected_static := disconnected_static self;
     _max_peers := _max_peers self |}.

Definition set_banlist (v : gmap string ban_record) (self : DashNet) : DashNet :=
  {| default_port := default_port self;
     dns_seeds := dns_seeds self;
     is_cmd_dash_peers := is_cmd_dash_peers self;
     config := config self;
     run_dash_net := run_dash_net self;
     dash_peers := dash_peers self;
     use_static_peers := use_static_peers self;
     static_peers := static_peers self;
     main_taskgroup := main_taskgroup self;
     peers := peers self;
     peeers := peeers self;
     connecting := connecting self;
     peers_queue := peers_queue self;
     banlist := v;
     found_peers := found_peers self;
     disconnected_static := disconnected_static self;
     _max_peers := _max_peers self |}.

Definition set_found_peers (v : gset string) (self : DashNet) : DashNet :=
  {| default_port := default_port self;
     dns_seeds := dns_seeds self;
     is_cmd_dash_peers := is_cmd_dash_peers self;
     config := config self;
     run_dash_net := run_dash_net self;
     dash_peers := dash_peers self;
     use_static_peers := use_static_peers self;
     static_peers := static_peers self;
     main_taskgroup := main_taskgroup self;
     peers := peers self;
     peeers := peeers self;
     connecting := connecting self;
     peers_queue := peers_queue self;
     banlist := banlist self;
     found_peers := v;
     disconnected_static := disconnected_static self;
     _max_peers := _max_peers self |}.

Definition set_disconnected_static (v : gmap string Q) (self : DashNet) : DashNet :=
  {| default_port := default_port self;
     dns_seeds := dns_seeds self;
     is_cmd_dash_peers := is_cmd_dash_peers self;
     config := config self;
     run_dash_net := run_dash_net self;
     dash_peers := dash_peers self;
     use_static_peers := use_static_peers self;
     static_peers := static_peers self;
     main_taskgroup := main_taskgroup self;
     peers := peers self;
     peeers := peeers self;
     connecting := connecting self;
     peers_queue := peers_queue self;
     banlist := banlist self;
     found_peers := found_peers self;
     disconnected_static := v;
     _max_peers := _max_peers self |}.

Definition set_max_peers (v : Z) (self : DashNet) : DashNet :=
  {| default_port := default_port self;
     dns_seeds := dns_seeds self;
     is_cmd_dash_peers := is_cmd_dash_peers self;
     config := config self;
     run_dash_net := run_dash_net self;
     dash_peers := dash_peers self;
     use_static_peers := use_static_peers self;
     static_peers := static_peers self;
     main_taskgroup := main_taskgroup self;
     peers := peers self;
     peeers := peeers self;
     connecting := connecting self;
     peers_queue := peers_queue self;
     banlist := banlist self;
     found_peers := found_peers self;
     disconnected_static := disconnected_static self;
     _max_peers := v |}.
(** [config.set_key('dash_max_peers', cnt, True)] *)
Definition set_key_dash_max_peers (cnt : Z) (c : SimpleConfig) : SimpleConfig :=
  {| cfg_run_dash_net := cfg_run_dash_net c;
     cfg_dash_peers := cfg_dash_peers c;
     cfg_dash_use_static_peers := cfg_dash_use_static_peers c;
     cfg_dash_max_peers := Some cnt |}.

Definition has_colon (p : string) : bool :=
  existsb (fun c => (N_of_ascii c =? 58)%N) (list_ascii_of_string p).

(** [read_conf] *)
Definition read_conf (self : DashNet) : DashNet :=
  let run := default true (cfg_run_dash_net (config self)) in
  let dps := default [] (cfg_dash_peers (config self)) in
  let use_static :=
    if is_cmd_dash_peers self then true
    else default false (cfg_dash_use_static_peers (config self)) in
  let static :=
    if use_static
    then List.map (fun p => if has_colon p then p
                            else p +:+ ":" +:+ pretty (default_port self)) dps
    else [] in
  {| default_port := default_port self;
     dns_seeds := dns_seeds self;
     is_cmd_dash_peers := is_cmd_dash_peers self;
     config := config self;
     run_dash_net := run;
     dash_peers := dps;
     use_static_peers := use_static;
     static_peers := static;
     main_taskgroup := main_taskgroup self;
     peers := peers self;
     peeers := peeers self;
     connecting := connecting self;
     peers_queue := peers_queue self;
     banlist := banlist self;
     found_peers := found_peers self;
     disconnected_static := disconnected_static self;
     _max_peers := _max_peers self |}.

(** [DashNet.__init__]: [testnet] is [constants.net.TESTNET],
    [cmd_dash_peers] is [not config.is_modifiable('dash_peers')] and
    [stored_banlist] is what [_read_banlist] returns. *)
Definition new (testnet cmd_dash_peers : bool) (cfg : SimpleConfig)
    (stored_banlist : gmap string ban_record) : DashNet :=
  read_conf
    {| default_port := if testnet then 19999 else 9999;
       dns_seeds := if testnet then ["testnet-seed.dashdot.io"]
                    else ["dnsseed.dash.org"; "dnsseed.dashdot.io"];
       is_cmd_dash_peers := cmd_dash_peers;
       config := cfg;
       run_dash_net := true;
       dash_peers := [];
       use_static_peers := false;
       static_peers := [];
       main_taskgroup := None;
       peers := ∅;
       peeers := None;
       connecting := ∅;
       peers_queue := None;
       banlist := stored_banlist;
       found_peers := ∅;
       disconnected_static := ∅;
       _max_peers := default MAX_PEERS_DEFAULT (cfg_dash_max_peers cfg) |}.

(** [_add_banned_peer], called when [time.time()] reads [now]. *)
Definition _add_banned_peer (dash_peer : DashPeer) (now : Q)
    (self : DashNet) : DashNet :=
  set_banlist
    (<[peer dash_peer :=
         {| ban_at := now;
            ban_record_msg := ban_msg dash_peer;
            ban_record_till := ban_till dash_peer;
            ban_record_ua := user_agent dash_peer |}]> (banlist self))
    self.

(** [_remove_banned_peer] *)
Definition _remove_banned_peer (p : string) (self : DashNet) : DashNet :=
  if decide (p ∈ dom (banlist self))
  then set_banlist (delete p (banlist self)) self
  else self.

(** [_start]: the state it leaves and whether an assertion failed. *)
Definition _start (self : DashNet) : result unit * DashNet :=
  let self := read_conf self in
  if negb (run_dash_net self) then (Ok tt, self)
  else
    match main_taskgroup self with
    | Some _ => (Raise AssertionError, self)
    | None =>
        let self := set_main_taskgroup (Some SilentTaskGroup) self in
        if negb (bool_decide (peers self = ∅)) then (Raise AssertionError, self)
        else if negb (bool_decide (connecting self = ∅)
                      && bool_decide (peers_queue self = None))
        then (Raise AssertionError, self)
        else (Ok tt, set_disconnected_static ∅ (set_peers_queue (Some []) self))
    end.

(** How the wait for [main_taskgroup.cancel_remaining()] ended. *)
Inductive cancel_outcome : Type :=
| Cancelled_in_time
| TimeoutError        (* the 2 second ceiling was hit *)
| CancelledError.

(** [stop]: both exceptions of the wait are caught and logged, then the
    assignments run. *)
Definition stop (o : cancel_outcome) (self : DashNet) : DashNet :=
  match main_taskgroup self with
  | None => self
  | Some _ =>
      let self := set_main_taskgroup None self in
      let self := set_peeers (Some ∅) self in      (* self.peeers = {} *)
      let self := set_connecting ∅ self in
      set_peers_queue None self
  end.

(** The property [peers_total] *)
Definition peers_total (self : DashNet) : Z :=
  Z.of_nat (size (connecting self ∪ dom (peers self))).

(** The property [max_peers] and its setter *)
Definition max_peers (self : DashNet) : Z := _max_peers self.

Definition max_peers_setter (cnt : Z) (self : DashNet) : DashNet :=
  let cnt := if cnt <? MIN_PEERS_LIMIT then MIN_PEERS_LIMIT else cnt in
  let cnt := if cnt >? MAX_PEERS_LIMIT then MAX_PEERS_LIMIT else cnt in
  set_config (set_key_dash_max_peers cnt (config self))
    (set_max_peers cnt self).

(** [_start_peer] *)
Definition _start_peer (p : string) (self : DashNet) : result unit * DashNet :=
  if bool_decide (p ∉ dom (peers self)) && bool_decide (p ∉ connecting self)
  then
    let self := set_connecting ({[p]} ∪ connecting self) self in
    match peers_queue self with
    | Some q => (Ok tt, set_peers_queue (Some (q ++ [p])) self)
    | None => (Raise AttributeError, self)       (* None.put *)
    end
  else (Ok tt, self).

(** [_close_peer]: the entry goes only if it holds this very connection;
    [==] on two [DashPeer] objects compares their identity. *)
Definition _close_peer (p : string) (dash_peer : DashPeer)
    (self : DashNet) : DashNet :=
  match peers self !! p with
  | Some stored =>
      if Nat.eqb (oid stored) (oid dash_peer)
      then set_peers (delete p (peers self)) self
      else self
  | None => self
  end.

Definition truthy_str (s : option string) : bool :=
  match s with
  | Some s => negb (String.eqb s "")
  | None => false
  end.

(** [connection_down], called when [time.time()] reads [now]. *)
Definition connection_down (dash_peer : DashPeer) (now : Q)
    (self : DashNet) : DashNet :=
  let p := peer dash_peer in
  let self := _close_peer p dash_peer self in
  if use_static_peers self && bool_decide (p ∈ static_peers self)
  then set_disconnected_static (<[p := now]> (disconnected_static self)) self
  else if truthy_str (ban_msg dash_peer)
       then _add_banned_peer dash_peer now self
       else self.

(** [_run_new_peer] from the point where the wait for [dash_peer.ready]
    ends: [ready] tells whether the handshake completed before the timeout.
    The decorators swallow the failed assertion; the [finally] clause runs
    on every path. *)
Definition _run_new_peer (p : string) (dash_peer : DashPeer) (ready : bool)
    (self : DashNet) : DashNet :=
  let self :=
    if ready
    then if bool_decide (p ∈ dom (peers self))
         then self                                   (* AssertionError *)
         else set_peers (<[p := dash_peer]> (peers self)) self
    else self in
  set_connecting (connecting self ∖ {[p]}) self.

(** The set [find_peers] counts. *)
Definition find_peers_union (self : DashNet) : gset string :=
  (dom (peers self) ∪ connecting self ∪ found_peers self)
    ∖ dom (banlist self).

(** The first seed with a non-empty answer. *)
Fixpoint first_resolved (resolve : string -> list string)
    (seeds : list string) : list string :=
  match seeds with
  | [] => []
  | seed :: rest =>
      match resolve seed with
      | [] => first_resolved resolve rest
      | new_ips => new_ips
      end
  end.

(** [find_peers]: [resolve seed] is what [resolve_dns_over_https(seed)]
    answers.  The second branch sends [getaddr] to a live peer and leaves
    the attributes modelled here as they are. *)
Definition find_peers (resolve : string -> list string)
    (self : DashNet) : DashNet :=
  let peers_union_len := Z.of_nat (size (find_peers_union self)) in
  if peers_union_len <? 2
  then
    let new_peers :=
      List.map (fun ip => ip +:+ ":" +:+ pretty (default_port self))
               (first_resolved resolve (dns_seeds self)) in
    set_found_peers (found_peers self ∪ list_to_set new_peers) self
  else self.

(** The set [available] of the dynamic branch of [queue_peers]. *)
Definition available (self : DashNet) : gset string :=
  (found_peers self ∖ (connecting self ∪ dom (peers self)))
    ∖ dom (banlist self).

(** [random.choice(list(s))]: [k] is the index drawn. *)
Definition choice (k : nat) (s : gset string) : option string :=
  elements s !! (k mod size s)%nat.

(** The static branch of [queue_peers]: the [for] loop over what is left of
    [static_peers]. *)
Fixpoint queue_static (now : Q) (l : list string)
    (self : DashNet) : result unit * DashNet :=
  match l with
  | [] => (Ok tt, self)
  | p :: l' =>
      if peers_total self >=? max_peers self then (Ok tt, self)    (* break *)
      else if bool_decide (p ∉ dom (peers self))
              && bool_decide (p ∉ connecting self)
      then
        let go self :=
          match _start_peer p self with
          | (Ok _, self) => queue_static now l' self
          | (Raise e, self) => (Raise e, self)
          end in
        match disconnected_static self !! p with
        | Some disconnected_time =>
            if Qeq_bool disconnected_time 0 then go self        (* falsy *)
            else if Qltb (Float64.sub now disconnected_time) 10
                 then queue_static now l' self                  (* continue *)
                 else go (set_disconnected_static
                            (delete p (disconnected_static self)) self)
        | None => go self
        end
      else queue_static now l' self
  end.

(** The dynamic branch of [queue_peers]: one turn of the [while] loop per
    drawn index; the loop is left pending at its [sleep] when the draws run
    out. *)
Fixpoint queue_dynamic (draws : list nat)
    (self : DashNet) : result unit * DashNet :=
  match draws with
  | [] => (Ok tt, self)
  | k :: draws' =>
      if peers_total self <? max_peers self
      then
        match choice k (available self) with
        | Some p =>
            match _start_peer p self with
            | (Ok _, self) => queue_dynamic draws' self
            | (Raise e, self) => (Raise e, self)
            end
        | None => queue_dynamic draws' self
        end
      else (Ok tt, self)
  end.

(** [queue_peers] *)
Definition queue_peers (now : Q) (draws : list nat)
    (self : DashNet) : result unit * DashNet :=
  if peers_total self >=? max_peers self then (Ok tt, self)
  else if use_static_peers self
       then queue_static now (static_peers self) self
       else queue_dynamic draws self.

(** [launch_already_queued_up_new_peers]: the queue is drained, one
    connection attempt is spawned per address. *)
Definition launch_already_queued_up_new_peers
    (self : DashNet) : result (list string) * DashNet :=
  match peers_queue self with
  | Some q => (Ok q, set_peers_queue (Some []) self)
  | None => (Raise AttributeError, self)
  end.

(** [status_icon]: [//] is the floor division. *)
Definition status_icon (self : DashNet) : string :=
  if run_dash_net self
  then
    let peers_cnt := Z.of_nat (size (peers self)) in
    let peers_percent := peers_cnt * 100 / MAX_PEERS_LIMIT in
    if peers_percent =? 0 then "dash_net_0.png"
    else if peers_percent <=? 25 then "dash_net_1.png"
    else if peers_percent <=? 50 then "dash_net_2.png"
    else if peers_percent <=? 75 then "dash_net_3.png"
    else "dash_net_4.png"
  else "dash_net_off.png".

(** [get_random_peer] once a peer is connected: [k] is the index drawn.
    With no live peer the coroutine waits. *)
Definition get_random_peer (k : nat) (self : DashNet) : option DashPeer :=
  let values := (map_to_list (peers self)).*2 in
  values !! (k mod length values)%nat.

(** [disconnect_excess_peers]: one turn of the [while] loop per drawn
    index; the loop is left pending when the draws run out or when it
    waits for a live peer. *)
Fixpoint disconnect_excess_peers (now : Q) (draws : list nat)
    (self : DashNet) : DashNet :=
  match draws with
  | [] => self
  | k :: draws' =>
      if peers_total self - max_peers self >? 0
      then match get_random_peer k self with
           | Some p => disconnect_excess_peers now draws'
                         (connection_down p now self)
           | None => self
           end
      else self
  end.

(** Every connection in the live-peer map is stored under its own
    address, as [_run_new_peer] stores the [DashPeer] it built for the
    address. *)
Definition keyed_by_address (self : DashNet) : Prop :=
  forall (p : string) (dash_peer : DashPeer),
    peers self !! p = Some dash_peer -> peer dash_peer = p.

(** The steps that run between two suspension points of the event loop. *)
Inductive action : Type :=
| Start
| Stop (o : cancel_outcome)
| SetMaxPeers (cnt : Z)
| SetConfig (cfg : SimpleConfig)
| FindPeers (resolve : string -> list string)
| QueuePeers (now : Q) (draws : list nat)
| StartPeer (p : string)
| LaunchQueued
| RunNewPeer (p : string) (dash_peer : DashPeer) (ready : bool)
| ConnectionDown (dash_peer : DashPeer) (now : Q)
| RemoveBanned (p : string).

Definition exec (a : action) (self : DashNet) : DashNet :=
  match a with
  | Start => (_start self).2
  | Stop o => stop o self
  | SetMaxPeers cnt => max_peers_setter cnt self
  | SetConfig cfg => set_config cfg self
  | FindPeers resolve => find_peers resolve self
  | QueuePeers now draws => (queue_peers now draws self).2
  | StartPeer p => (_start_peer p self).2
  | LaunchQueued => (launch_already_queued_up_new_peers self).2
  | RunNewPeer p dash_peer ready => _run_new_peer p dash_peer ready self
  | ConnectionDown dash_peer now => connection_down dash_peer now self
  | RemoveBanned p => _remove_banned_peer p self
  end.

(** The state after a schedule of steps. *)
Definition run (schedule : list action) (self : DashNet) : DashNet :=
  fold_left (fun st a => exec a st) schedule self.

(** No address is both live and connecting. *)
Definition exclusive (self : DashNet) : Prop :=
  forall p : string, p ∈ dom (peers self) -> p ∉ connecting self.

(** An address waits in the pending-connect queue. *)
Definition queued (p : string) (self : DashNet) : Prop :=
  match peers_queue self with
  | Some q => In p q
  | None => False
  end.

(** *** States used in the examples *)

Definition no_config : SimpleConfig :=
  {| cfg_run_dash_net := None;
     cfg_dash_peers := None;
     cfg_dash_use_static_peers := None;
     cfg_dash_max_peers := None |}.

Definition static_config (l : list string) : SimpleConfig :=
  {| cfg_run_dash_net := None;
     cfg_dash_peers := Some l;
     cfg_dash_use_static_peers := Some true;
     cfg_dash_max_peers := None |}.

Definition addr_a : string := "10.0.0.1:9999".
Definition addr_b : string := "10.0.0.2:9999".

Definition conn_a : DashPeer :=
  {| peer := addr_a; oid := 1; ban_msg := None; ban_till := None;
     user_agent := "/Dash Core:0.14.0.3/" |}.

Definition ban_a : ban_record :=
  {| ban_at := 1600000000;
     ban_record_msg := Some "invalid message";
     ban_record_till := None;
     ban_record_ua := "/Dash Core:0.14.0.3/" |}.

(** A started pool in dynamic mode with [addr_a] live and [addr_b] queued
    for a connection attempt. *)
Definition one_live_one_queued : DashNet :=
  run [ Start; StartPeer addr_a; LaunchQueued; RunNewPeer addr_a conn_a true;
        StartPeer addr_b ]
      (new false false no_config ∅).

(** A started pool in dynamic mode after one DNS answer with two addresses,
    the first of which is on the ban list read from disk. *)
Definition dynamic_with_banned_found : DashNet :=
  run [ Start; FindPeers (fun _ => ["10.0.0.1"; "10.0.0.2"]) ]
      (new false false no_config {[ addr_a := ban_a ]}).

(** The connection to [addr_a] after the peer was found to misbehave. *)
Definition conn_a_banned : DashPeer :=
  {| peer := addr_a; oid := 2; ban_msg := Some "invalid message";
     ban_till := None; user_agent := "/Dash Core:0.14.0.3/" |}.

(** A started pool in dynamic mode that knows [addr_a] and [addr_b] and has
    a live connection to [addr_a]. *)
Definition dynamic_with_live_a : DashNet :=
  run [ Start; FindPeers (fun _ => ["10.0.0.1"; "10.0.0.2"]);
        StartPeer addr_a; LaunchQueued; RunNewPeer addr_a conn_a_banned true ]
      (new false false no_config ∅).

(** A started pool in static mode with the static peers [addr_a] and
    [addr_b] and a live connection to [addr_a]. *)
Definition static_with_live_a : DashNet :=
  run [ Start; StartPeer addr_a; LaunchQueued;
        RunNewPeer addr_a conn_a_banned true ]
      (new false false (static_config [addr_a; addr_b]) ∅).

Definition addr_c : string := "10.0.0.3:9999".

Definition conn_b : DashPeer :=
  {| peer := addr_b; oid := 3; ban_msg := None; ban_till := None;
     user_agent := "/Dash Core:0.14.0.3/" |}.

(** A started pool with the target of two peers, two live connections and
    one more address in the connecting set. *)
Definition one_over_target : DashNet :=
  run [ Start; StartPeer addr_a; StartPeer addr_b; LaunchQueued;
        RunNewPeer addr_a conn_a true; RunNewPeer addr_b conn_b true;
        StartPeer addr_c ]
      (new false false no_config ∅).

(** A started pool in static mode whose only static peer is on the ban
    list read from disk. *)
Definition static_with_banned_peer : DashNet :=
  run [ Start ] (new false false (static_config [addr_a]) {[ addr_a := ban_a ]}).

End Net.

(** * Properties *)

(** A closed decidable proposition, settled by evaluating its decision
    procedure. *)
Ltac by_evaluation :=
  match goal with
  | |- ?P => apply (bool_decide_eq_true_1 P); vm_compute; reflexivity
  end.

(** ** Clock comparisons *)

Lemma Qltb_lt (a b : Q) : Qltb a b = true <-> (a < b)%Q.
Proof.
  unfold Qltb. rewrite Qlt_alt.
  destruct (a ?= b)%Q; split; congruence.
Qed.

Lemma Qltb_ge (a b : Q) : Qltb a b = false <-> (b <= a)%Q.
Proof.
  split; intros H.
  - apply Qnot_lt_le. intros Hlt. apply Qltb_lt in Hlt. congruence.
  - destruct (Qltb a b) eqn:E; [|reflexivity].
    apply Qltb_lt in E. exfalso. revert E. apply Qle_not_lt, H.
Qed.

(** ** Rounding to binary64 *)

Lemma round_half_even_ge (m : Z) (x : Q) :
  (inject_Z m <= x)%Q -> m <= Float64.round_half_even x.
Proof.
  intros H. unfold Float64.round_half_even.
  assert (Hf : m <= Qfloor x).
  { rewrite <- (Qfloor_Z m). now apply Qfloor_resp_le. }
  destruct (_ ?= _)%Q; [destruct (Z.even _)| |]; lia.
Qed.

Lemma round_half_even_le (m : Z) (x : Q) :
  (x <= inject_Z m)%Q -> Float64.round_half_even x <= m.
Proof.
  intros H. unfold Float64.round_half_even.
  assert (Hf : Qfloor x <= m).
  { rewrite <- (Qfloor_Z m). now apply Qfloor_resp_le. }
  destruct (Z.eq_dec (Qfloor x) m) as [E | Hne].
  - assert (Hx : (x == inject_Z m)%Q).
    { apply Qle_antisym; [exact H|]. rewrite <- E. apply Qfloor_le. }
    assert (Hc : (x - inject_Z (Qfloor x) ?= 1 # 2)%Q = Lt).
    { rewrite E. apply (proj1 (Qlt_alt _ _)). lra. }
    rewrite Hc. lia.
  - destruct (_ ?= _)%Q; [destruct (Z.even _)| |]; lia.
Qed.

Lemma Qpower_2_pos (z : Z) : (0 < Qpower 2 z)%Q.
Proof. apply Qpower_0_lt. reflexivity. Qed.

Lemma Qpower_2_split (a b : Z) : (Qpower 2 (a + b) == Qpower 2 a * Qpower 2 b)%Q.
Proof. apply Qpower_plus. discriminate. Qed.

Lemma Qpower_2_le (a b : Z) : a <= b -> (Qpower 2 a <= Qpower 2 b)%Q.
Proof. intros H. apply Qpower_le_compat_l; [exact H | discriminate]. Qed.

Lemma Qpower_2_lt_inv (a b : Z) : (Qpower 2 a < Qpower 2 b)%Q -> a < b.
Proof.
  intros H. destruct (Z.lt_ge_cases a b) as [|Hge]; [assumption|].
  apply Qpower_2_le in Hge. lra.
Qed.

Lemma inject_Z_log2 (n : Z) :
  0 < n ->
  (Qpower 2 (Z.log2 n) <= inject_Z n)%Q
  /\ (inject_Z n < Qpower 2 (Z.log2 n + 1))%Q.
Proof.
  intros Hn. destruct (Z.log2_spec n Hn) as [Hlo Hhi].
  pose proof (Z.log2_nonneg n) as H0.
  change 2%Q with (inject_Z 2).
  rewrite <- !Zpower_Qpower by lia.
  split; [rewrite <- Zle_Qle | rewrite <- Zlt_Qlt]; [exact Hlo|].
  now rewrite <- Z.add_1_r in Hhi.
Qed.

Lemma ilog2_spec (x : Q) :
  (0 < x)%Q ->
  (Qpower 2 (Float64.ilog2 x) <= x)%Q
  /\ (x < Qpower 2 (Float64.ilog2 x + 1))%Q.
Proof.
  intros Hx. unfold Float64.ilog2.
  set (n := Qnum x). set (d := Z.pos (Qden x)).
  assert (Hn : 0 < n) by (destruct x as [[|p|p] q]; unfold Qlt in Hx; cbn in *; lia).
  assert (Hd : 0 < d) by (unfold d; lia).
  destruct (inject_Z_log2 n Hn) as [Hn1 Hn2].
  destruct (inject_Z_log2 d Hd) as [Hd1 Hd2].
  assert (Hxd : (x * inject_Z d == inject_Z n)%Q).
  { unfold Qeq, n, d. destruct x as [xn xd]. cbn. lia. }
  assert (Hdq : (0 < inject_Z d)%Q) by (rewrite <- (Zlt_Qlt 0); exact Hd).
  set (a := Z.log2 n - Z.log2 d).
  assert (Hup : (x < Qpower 2 (a + 1))%Q).
  { apply (Qmult_lt_r _ _ (inject_Z d) Hdq). rewrite Hxd.
    apply Qlt_le_trans with (Qpower 2 ((a + 1) + Z.log2 d));
      [replace (a + 1 + Z.log2 d) with (Z.log2 n + 1) by (unfold a; lia);
       exact Hn2|].
    rewrite Qpower_2_split.
    apply Qmult_le_l; [apply Qpower_2_pos | exact Hd1]. }
  assert (Hdown : (Qpower 2 (a - 1) < x)%Q).
  { apply (Qmult_lt_r _ _ (inject_Z d) Hdq). rewrite Hxd.
    apply Qlt_le_trans with (Qpower 2 ((a - 1) + (Z.log2 d + 1)));
      [|replace (a - 1 + (Z.log2 d + 1)) with (Z.log2 n) by (unfold a; lia);
        exact Hn1].
    rewrite Qpower_2_split.
    apply Qmult_lt_l; [apply Qpower_2_pos | exact Hd2]. }
  destruct (Qle_bool (Qpower 2 a) x) eqn:E.
  - apply Qle_bool_iff in E. split; assumption.
  - assert (Hlt : (x < Qpower 2 a)%Q).
    { apply Qnot_le_lt. intros H. apply Qle_bool_iff in H. congruence. }
    replace (a - 1 + 1) with a by lia. split; [now apply Qlt_le_weak | exact Hlt].
Qed.

Lemma Qpower_2_cancel (a : Z) : (Qpower 2 a * Qpower 2 (- a) == 1)%Q.
Proof.
  rewrite <- Qpower_2_split. replace (a + - a) with 0 by lia. reflexivity.
Qed.

Lemma binary64_binade (m e : Z) :
  2 ^ 52 <= m < 2 ^ 53 ->
  (Qpower 2 e <= Float64.binary64 m e)%Q /\ (Float64.binary64 m e < Qpower 2 (e + 1))%Q.
Proof.
  intros [Hlo Hhi]. unfold Float64.binary64.
  pose proof (Qpower_2_pos (e - 52)) as Hp.
  assert (H52 : (Qpower 2 e == inject_Z (2 ^ 52) * Qpower 2 (e - 52))%Q).
  { replace e with (52 + (e - 52)) at 1 by lia. rewrite Qpower_2_split.
    reflexivity. }
  assert (H53 : (Qpower 2 (e + 1) == inject_Z (2 ^ 53) * Qpower 2 (e - 52))%Q).
  { replace (e + 1) with (53 + (e - 52)) by lia. rewrite Qpower_2_split.
    reflexivity. }
  rewrite H52, H53. split.
  - apply Qmult_le_compat_r; [|now apply Qlt_le_weak].
    now rewrite <- Zle_Qle.
  - apply Qmult_lt_r; [exact Hp|]. now rewrite <- Zlt_Qlt.
Qed.

Lemma scaled_binary64 (m e : Z) :
  (Float64.binary64 m e * Qpower 2 (52 - e) == inject_Z m)%Q.
Proof.
  unfold Float64.binary64. rewrite <- Qmult_assoc.
  replace (52 - e) with (- (e - 52)) by lia.
  rewrite Qpower_2_cancel. apply Qmult_1_r.
Qed.

Lemma round_pos_ge (m e : Z) (x : Q) :
  2 ^ 52 <= m < 2 ^ 53 ->
  (Float64.binary64 m e <= x)%Q ->
  (Float64.binary64 m e <= Float64.round_pos x)%Q.
Proof.
  intros Hm Hx. destruct (binary64_binade m e Hm) as [Hlo Hhi].
  assert (Hpos : (0 < x)%Q).
  { pose proof (Qpower_2_pos e). lra. }
  destruct (ilog2_spec x Hpos) as [Hxlo Hxhi].
  unfold Float64.round_pos. set (ex := Float64.ilog2 x) in *.
  assert (Hle : e <= ex).
  { assert (e < ex + 1); [|lia]. apply Qpower_2_lt_inv. lra. }
  pose proof (Qpower_2_pos (ex - 52)) as Hp.
  pose proof (Qpower_2_pos (52 - ex)) as Hp'.
  destruct (Z.eq_dec e ex) as [<- | Hne].
  - unfold Float64.binary64. apply Qmult_le_compat_r; [|now apply Qlt_le_weak].
    rewrite <- Zle_Qle. apply round_half_even_ge.
    rewrite <- (scaled_binary64 m e).
    apply Qmult_le_compat_r; [exact Hx | now apply Qlt_le_weak].
  - apply Qle_trans with (Qpower 2 ex).
    + apply Qle_trans with (Qpower 2 (e + 1)); [now apply Qlt_le_weak|].
      apply Qpower_2_le. lia.
    + assert (H52 : (Qpower 2 ex == inject_Z (2 ^ 52) * Qpower 2 (ex - 52))%Q).
      { replace ex with (52 + (ex - 52)) at 1 by lia. rewrite Qpower_2_split.
        reflexivity. }
      rewrite H52 at 1.
      apply Qmult_le_compat_r; [|now apply Qlt_le_weak].
      rewrite <- Zle_Qle. apply round_half_even_ge.
      assert (Hs : (inject_Z (2 ^ 52) == Qpower 2 ex * Qpower 2 (52 - ex))%Q).
      { rewrite <- Qpower_2_split. replace (ex + (52 - ex)) with 52 by lia.
        reflexivity. }
      rewrite Hs. apply Qmult_le_compat_r; [exact Hxlo | now apply Qlt_le_weak].
Qed.

Lemma round_pos_le (m e : Z) (x : Q) :
  2 ^ 52 <= m < 2 ^ 53 ->
  (0 < x)%Q ->
  (x <= Float64.binary64 m e)%Q ->
  (Float64.round_pos x <= Float64.binary64 m e)%Q.
Proof.
  intros Hm Hpos Hx. destruct (binary64_binade m e Hm) as [Hlo Hhi].
  destruct (ilog2_spec x Hpos) as [Hxlo Hxhi].
  unfold Float64.round_pos. set (ex := Float64.ilog2 x) in *.
  assert (Hle : ex <= e).
  { assert (ex < e + 1); [|lia]. apply Qpower_2_lt_inv. lra. }
  pose proof (Qpower_2_pos (ex - 52)) as Hp.
  pose proof (Qpower_2_pos (52 - ex)) as Hp'.
  destruct (Z.eq_dec ex e) as [-> | Hne].
  - unfold Float64.binary64. apply Qmult_le_compat_r; [|now apply Qlt_le_weak].
    rewrite <- Zle_Qle. apply round_half_even_le.
    rewrite <- (scaled_binary64 m e).
    apply Qmult_le_compat_r; [exact Hx | now apply Qlt_le_weak].
  - apply Qle_trans with (Qpower 2 (ex + 1)).
    + assert (H53 : (Qpower 2 (ex + 1)
                     == inject_Z (2 ^ 53) * Qpower 2 (ex - 52))%Q).
      { replace (ex + 1) with (53 + (ex - 52)) by lia. rewrite Qpower_2_split.
        reflexivity. }
      rewrite H53.
      apply Qmult_le_compat_r; [|now apply Qlt_le_weak].
      rewrite <- Zle_Qle. apply round_half_even_le.
      assert (Hs : (inject_Z (2 ^ 53)
                    == Qpower 2 (ex + 1) * Qpower 2 (52 - ex))%Q).
      { rewrite <- Qpower_2_split. replace (ex + 1 + (52 - ex)) with 53 by lia.
        reflexivity. }
      rewrite Hs. apply Qmult_le_compat_r; [|now apply Qlt_le_weak].
      now apply Qlt_le_weak.
    + apply Qle_trans with (Qpower 2 e); [|exact Hlo].
      apply Qpower_2_le. lia.
Qed.

Lemma round_pos_nonneg (x : Q) : (0 < x)%Q -> (0 <= Float64.round_pos x)%Q.
Proof.
  intros Hx. unfold Float64.round_pos.
  apply Qmult_le_0_compat; [|apply Qlt_le_weak, Qpower_2_pos].
  rewrite <- (Zle_Qle 0). apply round_half_even_ge.
  apply Qmult_le_0_compat; [now apply Qlt_le_weak|].
  apply Qlt_le_weak, Qpower_2_pos.
Qed.

(** Rounding to Float64.binary64 does not cross a positive Float64.binary64 number. *)
Lemma of_Q_ge (m e : Z) (x : Q) :
  2 ^ 52 <= m < 2 ^ 53 ->
  (Float64.binary64 m e <= x)%Q ->
  (Float64.binary64 m e <= Float64.of_Q x)%Q.
Proof.
  intros Hm Hx. destruct (binary64_binade m e Hm) as [Hlo _].
  pose proof (Qpower_2_pos e) as Hp.
  unfold Float64.of_Q.
  assert (Hc : (x ?= 0)%Q = Gt) by (apply (proj1 (Qgt_alt _ _)); lra).
  rewrite Hc. now apply round_pos_ge.
Qed.

Lemma of_Q_le (m e : Z) (x : Q) :
  2 ^ 52 <= m < 2 ^ 53 ->
  (x <= Float64.binary64 m e)%Q ->
  (Float64.of_Q x <= Float64.binary64 m e)%Q.
Proof.
  intros Hm Hx. destruct (binary64_binade m e Hm) as [Hlo _].
  pose proof (Qpower_2_pos e) as Hp.
  unfold Float64.of_Q. destruct (x ?= 0)%Q eqn:Hc.
  - lra.
  - apply Qlt_alt in Hc.
    assert (0 <= Float64.round_pos (- x))%Q by (apply round_pos_nonneg; lra).
    lra.
  - apply Qgt_alt in Hc. now apply round_pos_le.
Qed.

Lemma binary64_lt (m m' e : Z) : m < m' -> (Float64.binary64 m e < Float64.binary64 m' e)%Q.
Proof.
  intros H. unfold Float64.binary64. apply Qmult_lt_r; [apply Qpower_2_pos|].
  now rewrite <- Zlt_Qlt.
Qed.

Lemma of_Q_below (m e : Z) (x : Q) :
  2 ^ 52 < m < 2 ^ 53 ->
  (x <= Float64.binary64 (m - 1) e)%Q ->
  (Float64.of_Q x < Float64.binary64 m e)%Q.
Proof.
  intros Hm Hx. apply Qle_lt_trans with (Float64.binary64 (m - 1) e).
  - apply of_Q_le; [lia | exact Hx].
  - apply binary64_lt. lia.
Qed.

Lemma of_Q_below_inv (m e : Z) (x : Q) :
  2 ^ 52 <= m < 2 ^ 53 ->
  (Float64.of_Q x < Float64.binary64 m e)%Q ->
  (x < Float64.binary64 m e)%Q.
Proof.
  intros Hm Hx. apply Qnot_le_lt. intros Hge.
  pose proof (of_Q_ge m e x Hm Hge). lra.
Qed.

(** A Float64.binary64 number of at least [2 ^ k] is a multiple of [2 ^ (k - 52)]. *)
Lemma is_float_grid (k : Z) (x : Q) :
  Float64.is_float x -> (Qpower 2 k <= x)%Q ->
  exists z : Z, (x == inject_Z z * Qpower 2 (k - 52))%Q.
Proof.
  intros Hf Hk. pose proof (Qpower_2_pos k) as Hp.
  assert (Hpos : (0 < x)%Q) by lra.
  destruct (ilog2_spec x Hpos) as [_ Hhi].
  unfold Float64.is_float, Float64.of_Q in Hf.
  assert (Hc : (x ?= 0)%Q = Gt) by (apply (proj1 (Qgt_alt _ _)); exact Hpos).
  rewrite Hc in Hf. unfold Float64.round_pos in Hf.
  set (ex := Float64.ilog2 x) in *.
  set (r := Float64.round_half_even _) in Hf.
  assert (Hle : k <= ex).
  { assert (k < ex + 1); [|lia]. apply Qpower_2_lt_inv. lra. }
  exists (r * 2 ^ (ex - k)).
  rewrite inject_Z_mult, Zpower_Qpower by lia.
  change (inject_Z 2) with 2%Q. rewrite <- Qmult_assoc, <- Qpower_2_split.
  replace (ex - k + (k - 52)) with (ex - 52) by lia.
  symmetry. exact Hf.
Qed.

(** Two Float64.binary64 numbers of at least [2 ^ e] that are less than the
    Float64.binary64 number [m * 2 ^ (e - 52)] apart: their Float64.binary64 difference is
    below that number too. *)
Lemma sub_below (m e : Z) (a b : Q) :
  2 ^ 52 < m < 2 ^ 53 ->
  Float64.is_float a -> Float64.is_float b ->
  (Qpower 2 e <= b)%Q ->
  (a - b < Float64.binary64 m e)%Q ->
  (Float64.sub a b < Float64.binary64 m e)%Q.
Proof.
  intros Hm Ha Hb Hbe Hlt. unfold Float64.sub. apply of_Q_below; [exact Hm|].
  destruct (Qlt_le_dec b a) as [Hab | Hab].
  - destruct (is_float_grid e a Ha) as [za Hza]; [lra|].
    destruct (is_float_grid e b Hb Hbe) as [zb Hzb].
    pose proof (Qpower_2_pos (e - 52)) as Hg.
    unfold Float64.binary64 in *. set (g := Qpower 2 (e - 52)) in *.
    assert (Hd : (a - b == inject_Z (za - zb) * g)%Q).
    { unfold Z.sub. rewrite inject_Z_plus, inject_Z_opp, Hza, Hzb. ring. }
    rewrite Hd in *. apply Qmult_lt_r in Hlt; [|exact Hg].
    apply Qmult_le_compat_r; [|now apply Qlt_le_weak].
    rewrite <- Zlt_Qlt in Hlt. rewrite <- Zle_Qle. lia.
  - destruct (binary64_binade (m - 1) e) as [Hlo _]; [lia|].
    pose proof (Qpower_2_pos e). lra.
Qed.

(** The thresholds of the code as Float64.binary64 numbers. *)
Lemma binary64_900 : (900 == Float64.binary64 (900 * 2 ^ 43) 9)%Q.
Proof. reflexivity. Qed.

Lemma binary64_60 : (60 == Float64.binary64 (60 * 2 ^ 47) 5)%Q.
Proof. reflexivity. Qed.

Lemma binary64_10 : (10 == Float64.binary64 (10 * 2 ^ 49) 3)%Q.
Proof. reflexivity. Qed.

Lemma binary64_below_900 :
  (900 - Qpower 2 (-43) == Float64.binary64 (900 * 2 ^ 43 - 1) 9)%Q.
Proof. reflexivity. Qed.

Lemma binary64_below_60 :
  (60 - Qpower 2 (-47) == Float64.binary64 (60 * 2 ^ 47 - 1) 5)%Q.
Proof. reflexivity. Qed.

Lemma binary64_below_10 :
  (10 - Qpower 2 (-49) == Float64.binary64 (10 * 2 ^ 49 - 1) 3)%Q.
Proof. reflexivity. Qed.

Lemma div_900_15 : (Float64.div 900 15 == 60)%Q.
Proof. reflexivity. Qed.

(** ** Host names *)

Example valid_dnsseed :
  Hostname.is_valid_hostname "dnsseed.dash.org" = Ok true.
Proof. reflexivity. Qed.

Example invalid_leading_hyphen :
  Hostname.is_valid_hostname "-bad.com" = Ok false.
Proof. reflexivity. Qed.

Example valid_trailing_dot : Hostname.is_valid_hostname "dash.org." = Ok true.
Proof. reflexivity. Qed.

Example invalid_only_dot : Hostname.is_valid_hostname "." = Ok false.
Proof. reflexivity. Qed.

Lemma list_ascii_nil (s : string) : list_ascii_of_string s = [] -> s = "".
Proof. destruct s; simpl; congruence. Qed.

Lemma rev_nil_inv {A} (l : list A) : List.rev l = [] -> l = [].
Proof.
  intros H. apply (f_equal (@List.length A)) in H.
  rewrite List.length_rev in H. destruct l; [reflexivity | discriminate].
Qed.

(** C10. The host name validator fails on the empty string, where the
    look-up of the last character is out of range, and returns a boolean on
    every other string. *)
Theorem is_valid_hostname_partial :
  Hostname.is_valid_hostname "" = Raise IndexError /\
  forall hostname : string,
    hostname <> "" ->
    exists b : bool, Hostname.is_valid_hostname hostname = Ok b.
Proof.
  split; [reflexivity|].
  intros hostname Hne. unfold Hostname.is_valid_hostname.
  destruct (Nat.ltb 255 _); [eauto|].
  destruct (List.rev (list_ascii_of_string hostname)) as [|c r] eqn:E; [|eauto].
  exfalso. apply Hne, list_ascii_nil, rev_nil_inv, E.
Qed.

Lemma is_valid_hostname_partial_witness :
  "x" <> "" /\ exists b : bool, Hostname.is_valid_hostname "x" = Ok b.
Proof.
  split; [discriminate|].
  apply (proj2 is_valid_hostname_partial "x"). discriminate.
Defined.

(** ** The capacity accessor *)

(** C5. The setter of [max_peers] stores its argument clamped to the range
    from 2 to 8, the getter returns what was stored, and the stored value
    is written to the configuration. *)
Theorem max_peers_setter_clamps (cnt : Z) (self : Net.DashNet) :
  let self' := Net.max_peers_setter cnt self in
  Net.max_peers self' = (if cnt <? 2 then 2 else if 8 <? cnt then 8 else cnt)
  /\ 2 <= Net.max_peers self' <= 8
  /\ Net.cfg_dash_max_peers (Net.config self') = Some (Net.max_peers self')
  /\ Net.max_peers (Net.max_peers_setter 0 self) = 2
  /\ Net.max_peers (Net.max_peers_setter 100 self) = 8
  /\ Net.max_peers (Net.max_peers_setter 5 self) = 5.
Proof.
  cbn. unfold MIN_PEERS_LIMIT, MAX_PEERS_LIMIT.
  repeat split; try reflexivity;
    destruct (Z.ltb_spec cnt 2); destruct (Z.ltb_spec 8 cnt);
    repeat match goal with
           | |- context [?a >? ?b] => destruct (Z.gtb_spec a b)
           end; try reflexivity; lia.
Qed.

(** ** The spork table *)

Lemma set_spork_known (has_value : Z -> bool) spork_id value p self :
  has_value spork_id = true ->
  Sporks.set_spork has_value spork_id value p self
  = (Ok tt,
     {| Sporks.gathered_sporks :=
          <[spork_id := value]> (Sporks.gathered_sporks self);
        Sporks.from_peers := {[p]} ∪ Sporks.from_peers self |}).
Proof. intros H. unfold Sporks.set_spork. now rewrite H. Qed.

Lemma set_spork_unknown (has_value : Z -> bool) spork_id value p self :
  has_value spork_id = false ->
  Sporks.set_spork has_value spork_id value p self
  = (Raise AttributeError, self).
Proof. intros H. unfold Sporks.set_spork. now rewrite H. Qed.

(** C3, as the code has it by design.  For an id that [SporkID] knows,
    [set_spork] returns normally, overwrites the gathered value of that
    id, whatever was stored before and whoever reported it, leaves the
    other ids alone and records the source peer beside the contributors
    it had.  For an id that [SporkID] does not know the gathered values
    stay as they were. *)
Theorem set_spork_last_write_wins
    (has_value : Z -> bool) (spork_id value : Z) (p : string)
    (self : Sporks.DashSporks) :
  let r := Sporks.set_spork has_value spork_id value p self in
  (has_value spork_id = true ->
   r.1 = Ok tt
   /\ Sporks.gathered_sporks r.2 !! spork_id = Some value
   /\ (forall other, other <> spork_id ->
          Sporks.gathered_sporks r.2 !! other
          = Sporks.gathered_sporks self !! other)
   /\ p ∈ Sporks.from_peers r.2
   /\ Sporks.from_peers self ⊆ Sporks.from_peers r.2)
  /\ (has_value spork_id = false ->
      Sporks.gathered_sporks r.2 = Sporks.gathered_sporks self).
Proof.
  cbn zeta. split.
  - intros H. rewrite (set_spork_known _ _ _ _ _ H). cbn.
    split; [reflexivity|]. split; [apply lookup_insert_eq|].
    split; [intros other Hne; now apply lookup_insert_ne|].
    split; set_solver.
  - intros H. now rewrite (set_spork_unknown _ _ _ _ _ H).
Qed.

Lemma set_spork_last_write_wins_witness :
  let first := (Sporks.set_spork Sporks.dash_has_value 10001 0
                  "10.0.0.1:9999" Sporks.init).2 in
  let second := (Sporks.set_spork Sporks.dash_has_value 10001 1
                   "10.0.0.2:9999" first).2 in
  Sporks.dash_has_value 10001 = true
  /\ Sporks.gathered_sporks first !! 10001 = Some 0
  /\ Sporks.gathered_sporks second !! 10001 = Some 1
  /\ "10.0.0.1:9999" ∈ Sporks.from_peers second
  /\ "10.0.0.2:9999" ∈ Sporks.from_peers second
  /\ Sporks.dash_has_value 7 = false
  /\ Sporks.gathered_sporks
       (Sporks.set_spork Sporks.dash_has_value 7 1 "10.0.0.2:9999" second).2
     = Sporks.gathered_sporks second.
Proof.
  cbn zeta.
  destruct (set_spork_last_write_wins Sporks.dash_has_value 10001 0
              "10.0.0.1:9999" Sporks.init) as [A _].
  destruct (A eq_refl) as (_ & A1 & _ & A2 & _).
  match goal with
  | |- _ /\ _ /\ Sporks.gathered_sporks
                    (Sporks.set_spork _ _ _ _ ?s).2 !! _ = _ /\ _ =>
      destruct (set_spork_last_write_wins Sporks.dash_has_value 10001 1
                  "10.0.0.2:9999" s) as [B _];
      destruct (set_spork_last_write_wins Sporks.dash_has_value 7 1
                  "10.0.0.2:9999"
                  (Sporks.set_spork Sporks.dash_has_value 10001 1
                     "10.0.0.2:9999" s).2) as [_ C]
  end.
  destruct (B eq_refl) as (_ & B1 & _ & B2 & B3).
  split; [reflexivity|]. split; [exact A1|]. split; [exact B1|].
  split; [apply B3, A2|]. split; [exact B2|]. split; [reflexivity|].
  apply C. reflexivity.
Defined.

(** C3, as the specification states it, fails: a value reported for an id
    outside [SporkID] is not stored. *)
Lemma set_spork_unknown_id_not_stored :
  ~ (forall (spork_id value : Z) (p : string) (self : Sporks.DashSporks),
       Sporks.gathered_sporks
         (Sporks.set_spork Sporks.dash_has_value spork_id value p self).2
         !! spork_id = Some value).
Proof.
  intros H. specialize (H 7 1 "10.0.0.2:9999" Sporks.init).
  vm_compute in H. discriminate.
Qed.

(** C6, the code.  For an id that [SporkID] knows, [is_spork_active] takes
    the gathered value when there is one, else the default when there is
    one, and answers whether that value is below the current time; with
    neither it answers [False]; a value of 0 is active at every positive
    time and a value of [Y2099] is inactive at every time up to that
    epoch.  For an id that [SporkID] does not know it answers nothing: the
    line that reports the unknown id raises [AttributeError], [DashSporks]
    having no logger. *)
Theorem is_spork_active_resolution
    (SporkID_value : Sporks.SporkName -> Z) (has_value : Z -> bool)
    (spork_id : Z) (now : Q) (self : Sporks.DashSporks) :
  let active :=
    Sporks.is_spork_active SporkID_value has_value spork_id now self in
  let gathered := Sporks.gathered_sporks self !! spork_id in
  let dflt := Sporks.SPORKS_DEFAULTS SporkID_value !! spork_id in
  (has_value spork_id = false -> active = Raise AttributeError)
  /\ (has_value spork_id = true ->
      (forall v, gathered = Some v ->
         active = Ok (Qltb (inject_Z v) now)
         /\ (active = Ok true <-> (inject_Z v < now)%Q))
      /\ (forall v, gathered = None -> dflt = Some v ->
            active = Ok (Qltb (inject_Z v) now)
            /\ (active = Ok true <-> (inject_Z v < now)%Q))
      /\ (gathered = None -> dflt = None -> active = Ok false)
      /\ (Sporks.get_spork_value SporkID_value has_value spork_id self
          = Ok (Some 0) -> (0 < now)%Q -> active = Ok true)
      /\ (Sporks.get_spork_value SporkID_value has_value spork_id self
          = Ok (Some Y2099) -> (now <= inject_Z Y2099)%Q ->
          active = Ok false)).
Proof.
  cbn zeta. unfold Sporks.is_spork_active, Sporks.get_spork_value.
  split; [intros ->; reflexivity|]. intros ->. cbn [negb].
  assert (Hiff : forall v : Z,
            Ok (Qltb (inject_Z v) now) = Ok true <-> (inject_Z v < now)%Q).
  { intros v. rewrite <- Qltb_lt. split; [congruence | intros ->; reflexivity]. }
  destruct (Sporks.gathered_sporks self !! spork_id) as [g|];
    [|destruct (Sporks.SPORKS_DEFAULTS SporkID_value !! spork_id) as [d|]].
  - split; [intros v [= <-]; split; [reflexivity | apply Hiff]|].
    split; [discriminate|]. split; [discriminate|]. split.
    + intros [= ->] Hpos. f_equal. now apply Qltb_lt.
    + intros [= ->] Hle. f_equal. now apply Qltb_ge.
  - split; [discriminate|].
    split; [intros v _ [= <-]; split; [reflexivity | apply Hiff]|].
    split; [discriminate|]. split.
    + intros [= ->] Hpos. f_equal. now apply Qltb_lt.
    + intros [= ->] Hle. f_equal. now apply Qltb_ge.
  - split; [discriminate|]. split; [discriminate|].
    split; [reflexivity|]. split; discriminate.
Qed.

Lemma is_spork_active_resolution_witness :
  let active := Sporks.is_spork_active Sporks.dash_SporkID_value
                  Sporks.dash_has_value in
  Sporks.dash_has_value 7 = false
  /\ active 7 (1600000000 # 1) Sporks.init = Raise AttributeError
  /\ Sporks.dash_has_value 10001 = true
  /\ active 10001 (1600000000 # 1) Sporks.init = Ok true
  /\ active 10005 (1600000000 # 1) Sporks.init = Ok false
  /\ active 10005 (1600000000 # 1)
       (Sporks.set_spork Sporks.dash_has_value 10005 0 "10.0.0.1:9999"
          Sporks.init).2 = Ok true.
Proof.
  cbn zeta. pose (t := (1600000000 # 1)%Q).
  destruct (is_spork_active_resolution Sporks.dash_SporkID_value
              Sporks.dash_has_value 7 t Sporks.init) as [U _].
  destruct (is_spork_active_resolution Sporks.dash_SporkID_value
              Sporks.dash_has_value 10001 t Sporks.init) as [_ A].
  destruct (A eq_refl) as (_ & _ & _ & A0 & _).
  destruct (is_spork_active_resolution Sporks.dash_SporkID_value
              Sporks.dash_has_value 10005 t Sporks.init) as [_ B].
  destruct (B eq_refl) as (_ & _ & _ & _ & B0).
  destruct (is_spork_active_resolution Sporks.dash_SporkID_value
              Sporks.dash_has_value 10005 t
              (Sporks.set_spork Sporks.dash_has_value 10005 0 "10.0.0.1:9999"
                 Sporks.init).2) as [_ D].
  destruct (D eq_refl) as (D0 & _).
  split; [reflexivity|]. split; [apply U; reflexivity|].
  split; [reflexivity|]. split; [apply A0; reflexivity|].
  split; [apply B0; [reflexivity | vm_compute; discriminate]|].
  destruct (D0 0 eq_refl) as [E _]. exact E.
Defined.

(** ** The contributor quorum *)

Example lit_0_51_value :
  Float64.lit_0_51 = (4593671619917906 # 9007199254740992)%Q.
Proof. vm_compute. reflexivity. Qed.

Example gather_cnt_small :
  List.map Gather.gather_cnt [0; 1; 2; 3; 4; 5; 6; 7; 8]
  = [0; 1; 2; 2; 2; 3; 3; 4; 4].
Proof. vm_compute. reflexivity. Qed.

Lemma nearest_from_spec (len : nat) :
  forall n : Z,
    Gather.nearest_from n len = true ->
    forall k : Z,
      n <= k < n + Z.of_nat len ->
      Gather.gather_cnt k
      = Float64.round_half_even ((51 # 100) * inject_Z k).
Proof.
  induction len as [|len IH]; intros n Hall k Hk; [lia|].
  cbn [Gather.nearest_from] in Hall. apply andb_true_iff in Hall as [Hn Hrest].
  destruct (Z.eq_dec k n) as [->|Hne].
  - now apply Z.eqb_eq.
  - apply (IH (n + 1) Hrest). lia.
Qed.

Lemma nearest_upto_4096 : Gather.nearest_from 3 (Z.to_nat 4094) = true.
Proof. vm_compute. reflexivity. Qed.

(** C2, as the code has it.  The quorum is the peer count when that is at
    most 2; above 2 it is [round(peers_cnt * 0.51)], which for every count
    up to 4096 is 51/100 of the count rounded to the nearest integer, a
    tie going to the even neighbour. *)
Theorem gather_cnt_rounds (n : Z) :
  (n <= 2 -> Gather.gather_cnt n = n)
  /\ (2 < n <= 4096 ->
      Gather.gather_cnt n
      = Float64.round_half_even ((51 # 100) * inject_Z n)).
Proof.
  split.
  - intros H. unfold Gather.gather_cnt.
    destruct (Z.leb_spec n 2); [reflexivity | lia].
  - intros [Hlo Hhi].
    apply (nearest_from_spec _ 3 nearest_upto_4096). lia.
Qed.

Lemma gather_cnt_rounds_witness :
  Gather.gather_cnt 2 = 2
  /\ Gather.gather_cnt 4 = 2
  /\ Gather.gather_cnt 50 = 26
  /\ Gather.gather_cnt 150 = 76.
Proof.
  split; [apply (proj1 (gather_cnt_rounds 2)); lia|].
  split; [rewrite (proj2 (gather_cnt_rounds 4)) by lia; reflexivity|].
  split; [rewrite (proj2 (gather_cnt_rounds 50)) by lia; reflexivity|].
  rewrite (proj2 (gather_cnt_rounds 150)) by lia; reflexivity.
Defined.

(** C2, as the specification states it, fails at four peers: the ceiling
    of 2.04 is 3, the code asks for 2. *)
Lemma gather_cnt_is_not_ceiling :
  Gather.spec_quorum 4 = 3 /\ Gather.gather_cnt 4 = 2
  /\ ~ (forall n : Z, Gather.gather_cnt n = Gather.spec_quorum n).
Proof.
  split; [reflexivity|]. split; [vm_compute; reflexivity|].
  intros H. specialize (H 4). vm_compute in H. discriminate.
Qed.

(** ** Pruning of recent instant-send locks *)

Lemma clear_recent_islocks_idle keep_sec now self :
  IsLocks.scans keep_sec now self = false ->
  IsLocks.clear_recent_islocks keep_sec now self = self.
Proof.
  unfold IsLocks.scans, IsLocks.clear_recent_islocks.
  destruct (Qltb _ _); [reflexivity | discriminate].
Qed.

Lemma clear_recent_islocks_scan keep_sec now self :
  IsLocks.scans keep_sec now self = true ->
  IsLocks.clear_recent_islocks keep_sec now self
  = {| IsLocks.recent_islocks :=
         List.filter
           (fun x => Qltb (Float64.sub now (IsLocks.il_time x)) keep_sec)
           (IsLocks.recent_islocks self);
       IsLocks.recent_islocks_clear := now |}.
Proof.
  unfold IsLocks.scans, IsLocks.clear_recent_islocks.
  destruct (Qltb _ _); [discriminate | reflexivity].
Qed.

(** With the default [keep_sec] the guard compares with [900/15 = 60.0]. *)
Lemma scans_default now self :
  IsLocks.scans 900 now self = true <->
  (60 <= Float64.sub now (IsLocks.recent_islocks_clear self))%Q.
Proof.
  unfold IsLocks.scans. rewrite negb_true_iff, Qltb_ge.
  now rewrite div_900_15.
Qed.

(** A record stays on a scan exactly when its computed age is under 900. *)
Lemma scan_keeps now self (x : IsLocks.islock_rec) :
  IsLocks.scans 900 now self = true ->
  In x (IsLocks.recent_islocks self) ->
  (In x (IsLocks.recent_islocks (IsLocks.clear_recent_islocks 900 now self))
   <-> (Float64.sub now (IsLocks.il_time x) < 900)%Q).
Proof.
  intros Hscan Hx. rewrite (clear_recent_islocks_scan _ _ _ Hscan).
  cbn [IsLocks.recent_islocks]. rewrite filter_In, Qltb_lt. tauto.
Qed.

(** Clock differences against the thresholds 900 and 60. *)
Lemma sub_900_old (now t : Q) :
  (900 <= now - t)%Q -> ~ (Float64.sub now t < 900)%Q.
Proof.
  intros Hold. apply Qle_not_lt. rewrite binary64_900 in *.
  apply of_Q_ge; [lia | exact Hold].
Qed.

Lemma sub_900_margin (now t : Q) :
  (now - t <= 900 - Qpower 2 (-43))%Q -> (Float64.sub now t < 900)%Q.
Proof.
  intros Hyoung. rewrite binary64_below_900 in Hyoung. rewrite binary64_900.
  apply of_Q_below; [lia | exact Hyoung].
Qed.

Lemma sub_900_young (now t : Q) :
  Float64.is_float now -> Float64.is_float t ->
  (512 <= t)%Q -> (now - t < 900)%Q ->
  (Float64.sub now t < 900)%Q.
Proof.
  intros Hnow Ht Hlate Hyoung. rewrite binary64_900 in *.
  apply sub_below; [lia | exact Hnow | exact Ht | exact Hlate | exact Hyoung].
Qed.

Lemma sub_60_margin (now2 now : Q) :
  (now2 - now <= 60 - Qpower 2 (-47))%Q -> (Float64.sub now2 now < 60)%Q.
Proof.
  intros Hclose. rewrite binary64_below_60 in Hclose. rewrite binary64_60.
  apply of_Q_below; [lia | exact Hclose].
Qed.

Lemma sub_60_close (now2 now last : Q) :
  Float64.is_float now -> Float64.is_float now2 ->
  (0 <= last)%Q ->
  (60 <= Float64.sub now last)%Q ->
  (now2 - now < 60)%Q ->
  (Float64.sub now2 now < 60)%Q.
Proof.
  intros Hnow Hnow2 Hlast Hscan Hclose.
  assert (Hlate : (Qpower 2 5 <= now)%Q).
  { destruct (Qlt_le_dec (Float64.binary64 (60 * 2 ^ 47 - 1) 5) (now - last))
      as [Hgap | Hgap].
    - destruct (binary64_binade (60 * 2 ^ 47 - 1) 5) as [Hlo _]; [lia|].
      lra.
    - exfalso. revert Hscan. apply Qlt_not_le. rewrite binary64_60.
      apply of_Q_below; [lia | exact Hgap]. }
  rewrite binary64_60 in *.
  apply sub_below; [lia | exact Hnow2 | exact Hnow | exact Hlate | exact Hclose].
Qed.

(** C7. When a prune call at time [now] goes on to its scan, a record stays
    exactly when the binary64 difference of [now] and its time stamp is
    under 900, and nothing else appears.  So the records that are 900
    seconds old or older are gone, and a record younger than 900 seconds is
    kept when it is at most [900 - 2 ^ (-43)] seconds old, or when both
    clock readings are binary64 numbers and its stamp is a reading of 512 or
    more.  Of two prune calls with no prune call between them (records may
    be appended), the second less than 60 seconds after the first, at most
    one scans when the second comes at most [60 - 2 ^ (-47)] seconds after
    the first, or when both readings are binary64 numbers and the time of
    the last scan before them is not negative; a call that does not scan
    leaves the record list and the time of the last scan as they were. *)
Theorem clear_recent_islocks_window (now : Q) (self : IsLocks.state) :
  let self' := IsLocks.clear_recent_islocks IsLocks.keep_sec_default now self in
  (IsLocks.scans IsLocks.keep_sec_default now self = true ->
   forall x : IsLocks.islock_rec,
     In x (IsLocks.recent_islocks self) ->
     (In x (IsLocks.recent_islocks self') <->
      (Float64.sub now (IsLocks.il_time x) < 900)%Q)
     /\ ((900 <= now - IsLocks.il_time x)%Q ->
         ~ In x (IsLocks.recent_islocks self'))
     /\ ((now - IsLocks.il_time x <= 900 - Qpower 2 (-43))%Q ->
         In x (IsLocks.recent_islocks self'))
     /\ (Float64.is_float now -> Float64.is_float (IsLocks.il_time x) ->
         (512 <= IsLocks.il_time x)%Q ->
         (now - IsLocks.il_time x < 900)%Q ->
         In x (IsLocks.recent_islocks self')))
  /\ (forall x, In x (IsLocks.recent_islocks self') ->
                In x (IsLocks.recent_islocks self))
  /\ (IsLocks.scans IsLocks.keep_sec_default now self = false -> self' = self)
  /\ (forall (now2 : Q) (later : IsLocks.state),
        IsLocks.recent_islocks_clear later = IsLocks.recent_islocks_clear self' ->
        (now2 - now <= 60 - Qpower 2 (-47))%Q
        \/ (Float64.is_float now /\ Float64.is_float now2
            /\ (0 <= IsLocks.recent_islocks_clear self)%Q
            /\ (now2 - now < 60)%Q) ->
        IsLocks.scans IsLocks.keep_sec_default now self
        && IsLocks.scans IsLocks.keep_sec_default now2 later = false).
Proof.
  cbn zeta. unfold IsLocks.keep_sec_default.
  split; [|split; [|split]].
  - intros Hscan x Hx. pose proof (scan_keeps now self x Hscan Hx) as Hkeep.
    split; [exact Hkeep|]. split; [|split].
    + intros Hold Hin. apply Hkeep in Hin. revert Hin. now apply sub_900_old.
    + intros Hyoung. apply Hkeep. now apply sub_900_margin.
    + intros Hnow Ht Hlate Hyoung. apply Hkeep. now apply sub_900_young.
  - intros x. destruct (IsLocks.scans 900 now self) eqn:Hscan.
    + rewrite (clear_recent_islocks_scan _ _ _ Hscan).
      cbn [IsLocks.recent_islocks]. intros Hin.
      now apply filter_In in Hin.
    + now rewrite (clear_recent_islocks_idle _ _ _ Hscan).
  - apply clear_recent_islocks_idle.
  - intros now2 later Hlater Hclose.
    destruct (IsLocks.scans 900 now self) eqn:Hscan; [|reflexivity].
    cbn [andb]. rewrite (clear_recent_islocks_scan _ _ _ Hscan) in Hlater.
    cbn [IsLocks.recent_islocks_clear] in Hlater.
    unfold IsLocks.scans. rewrite Hlater.
    apply negb_false_iff, Qltb_lt. rewrite div_900_15.
    destruct Hclose as [Hclose | (Hnow & Hnow2 & Hlast & Hclose)].
    + now apply sub_60_margin.
    + apply scans_default in Hscan.
      now apply (sub_60_close now2 now (IsLocks.recent_islocks_clear self)).
Qed.

Lemma clear_recent_islocks_window_witness :
  let old := {| IsLocks.il_txid := "aa"; IsLocks.il_time := 1600000100;
                IsLocks.il_islock := ""; IsLocks.il_quorum := "";
                IsLocks.il_request_id := "" |} in
  let young := {| IsLocks.il_txid := "bb"; IsLocks.il_time := 1600000950;
                  IsLocks.il_islock := ""; IsLocks.il_quorum := "";
                  IsLocks.il_request_id := "" |} in
  let self := {| IsLocks.recent_islocks_clear := 1600000900;
                 IsLocks.recent_islocks := [old; young] |} in
  let self' :=
    IsLocks.clear_recent_islocks IsLocks.keep_sec_default 1600001001 self in
  IsLocks.scans IsLocks.keep_sec_default 1600001001 self = true
  /\ ~ In old (IsLocks.recent_islocks self')
  /\ In young (IsLocks.recent_islocks self')
  /\ IsLocks.scans IsLocks.keep_sec_default 1600001001 self
     && IsLocks.scans IsLocks.keep_sec_default 1600001030 self' = false.
Proof.
  intros old young self self'.
  assert (Hscan : IsLocks.scans IsLocks.keep_sec_default 1600001001 self
                  = true) by (vm_compute; reflexivity).
  destruct (clear_recent_islocks_window 1600001001 self) as (A & _ & _ & B).
  split; [exact Hscan|].
  destruct (A Hscan old (or_introl eq_refl)) as (_ & Aold & _).
  destruct (A Hscan young (or_intror (or_introl eq_refl)))
    as (_ & _ & Ayoung & _).
  split; [|split].
  - apply Aold. vm_compute. discriminate.
  - apply Ayoung. vm_compute. discriminate.
  - apply (B 1600001030%Q self' eq_refl). left. vm_compute. discriminate.
Defined.

(** The first half of the claim fails at clock readings of the first quarter
    of an hour of 1970: a record stamped at the reading [0.3] is, by the
    reading [900.3], less than 900 seconds old, yet the difference of the
    two readings is [900.0] in binary64 and the scan drops the record.  The
    second half fails when the last scan is at a negative reading: prune
    calls at the readings [0.3] and [60.3], less than 60 seconds apart, both
    scan, because [60.3 - 0.3] is [60.0] in binary64. *)
Lemma young_islock_pruned :
  let t := Float64.of_Q (3 # 10) in
  let now := Float64.of_Q (9003 # 10) in
  let x := {| IsLocks.il_txid := "aa"; IsLocks.il_time := t;
              IsLocks.il_islock := ""; IsLocks.il_quorum := "";
              IsLocks.il_request_id := "" |} in
  let self := {| IsLocks.recent_islocks_clear := 0;
                 IsLocks.recent_islocks := [x] |} in
  let first := Float64.of_Q (3 # 10) in
  let second := Float64.of_Q (603 # 10) in
  let early := {| IsLocks.recent_islocks_clear := -60;
                  IsLocks.recent_islocks := [] |} in
  (Float64.is_float t /\ Float64.is_float now
   /\ IsLocks.scans 900 now self = true
   /\ (now - t < 900)%Q
   /\ ~ In x (IsLocks.recent_islocks
                (IsLocks.clear_recent_islocks 900 now self)))
  /\ (Float64.is_float second
      /\ (second - first < 60)%Q
      /\ IsLocks.scans 900 first early = true
      /\ IsLocks.scans 900 second
           (IsLocks.clear_recent_islocks 900 first early) = true).
Proof.
  cbn zeta. split.
  - split; [vm_compute; reflexivity|]. split; [vm_compute; reflexivity|].
    split; [vm_compute; reflexivity|]. split; [vm_compute; reflexivity|].
    match goal with
    | |- ~ In _ ?l => assert (E : l = []) by (vm_compute; reflexivity)
    end.
    rewrite E. intros [].
  - repeat split; vm_compute; reflexivity.
Qed.

(** ** Decimal renderings *)

Lemma list_ascii_of_string_app (a b : string) :
  list_ascii_of_string (a +:+ b)
  = list_ascii_of_string a ++ list_ascii_of_string b.
Proof.
  induction a as [|c a IH]; [reflexivity|].
  change (list_ascii_of_string (String c a +:+ b))
    with (c :: list_ascii_of_string (a +:+ b)).
  now rewrite IH.
Qed.

Lemma pretty_N_char_decimal (d : N) :
  (d < 10)%N ->
  PeersText.is_decimal (pretty_N_char d) = true
  /\ Z.of_N (N_of_ascii (pretty_N_char d)) - 48 = Z.of_N d.
Proof.
  intros Hd.
  assert (d = 0 \/ d = 1 \/ d = 2 \/ d = 3 \/ d = 4 \/ d = 5 \/ d = 6
          \/ d = 7 \/ d = 8 \/ d = 9)%N as Hcases by lia.
  repeat (destruct Hcases as [-> | Hcases]; [split; reflexivity|]).
  subst d. split; reflexivity.
Qed.

Lemma pretty_N_go_decimal (x : N) :
  forall s : string,
    forallb PeersText.is_decimal (list_ascii_of_string s) = true ->
    forallb PeersText.is_decimal
      (list_ascii_of_string (pretty_N_go x s)) = true.
Proof.
  induction (N.lt_wf_0 x) as [x _ IH]. intros s Hs.
  destruct (N.eq_dec x 0%N) as [-> | Hx]; [now rewrite pretty_N_go_0|].
  rewrite pretty_N_go_step by lia.
  apply IH; [apply N.div_lt; lia|].
  cbn [list_ascii_of_string forallb]. rewrite Hs, andb_true_r.
  apply pretty_N_char_decimal, N.mod_upper_bound. lia.
Qed.

Lemma decimal_not_colon (c : ascii) :
  PeersText.is_decimal c = true -> PeersText.is_colon c = false.
Proof.
  unfold PeersText.is_decimal, PeersText.is_colon.
  intros H. apply andb_true_iff in H as [_ H]. apply N.leb_le in H.
  apply N.eqb_neq. lia.
Qed.

Lemma pretty_Z_colon_free (z : Z) :
  Dsq.colon_free (list_ascii_of_string (pretty z)).
Proof.
  assert (HN : forall n : N, Dsq.colon_free (list_ascii_of_string (pretty n))).
  { intros n. unfold Dsq.colon_free.
    assert (Hdec : forallb PeersText.is_decimal
                     (list_ascii_of_string (pretty n)) = true).
    { unfold pretty, pretty_N. destruct (decide (n = 0%N)); [reflexivity|].
      now apply pretty_N_go_decimal. }
    revert Hdec. generalize (list_ascii_of_string (pretty n)).
    induction l as [|c l IH]; [reflexivity|]. cbn.
    intros H. apply andb_true_iff in H as [Hc Hl].
    now rewrite (decimal_not_colon c Hc), (IH Hl). }
  destruct z as [|q|q]; [reflexivity | apply HN |].
  unfold Dsq.colon_free. change (pretty (Z.neg q)) with ("-" +:+ pretty (N.pos q)).
  rewrite list_ascii_of_string_app, existsb_app. cbn [orb].
  rewrite (HN (N.pos q)). reflexivity.
Qed.

Lemma app_colon_inj_first (a a' r r' : list ascii) :
  Dsq.colon_free a -> Dsq.colon_free a' ->
  a ++ ":"%char :: r = a' ++ ":"%char :: r' ->
  a = a' /\ r = r'.
Proof.
  unfold Dsq.colon_free. revert a'.
  induction a as [|c a IH]; intros [|c' a'] Ha Ha' E; cbn in *.
  - injection E as ->. auto.
  - injection E as <- _. discriminate.
  - injection E as -> _. discriminate.
  - injection E as -> E. apply orb_false_iff in Ha as [_ Ha].
    apply orb_false_iff in Ha' as [_ Ha'].
    destruct (IH a' Ha Ha' E) as [-> ->]. auto.
Qed.

Lemma colon_free_rev (l : list ascii) :
  Dsq.colon_free l -> Dsq.colon_free (List.rev l).
Proof.
  unfold Dsq.colon_free. intros H.
  destruct (existsb PeersText.is_colon (List.rev l)) eqn:E; [|reflexivity].
  apply existsb_exists in E as (c & Hin & Hc).
  apply in_rev in Hin.
  assert (existsb PeersText.is_colon l = true) as H'
    by (apply existsb_exists; eauto).
  congruence.
Qed.

Lemma app_colon_inj_last (o o' t t' : list ascii) :
  Dsq.colon_free t -> Dsq.colon_free t' ->
  o ++ ":"%char :: t = o' ++ ":"%char :: t' ->
  o = o' /\ t = t'.
Proof.
  intros Ht Ht' E.
  apply (f_equal (@List.rev ascii)) in E.
  rewrite !rev_app_distr in E. cbn [List.rev] in E.
  rewrite <- !app_assoc in E. cbn [app] in E.
  apply app_colon_inj_first in E as [E1 E2].
  - apply (f_equal (@List.rev ascii)) in E1, E2.
    rewrite !rev_involutive in E1, E2. auto.
  - now apply colon_free_rev.
  - now apply colon_free_rev.
Qed.

(** ** Duplicate suppression of mixing-queue announcements *)

Lemma existsb_eqb_In (h : string) (l : list string) :
  existsb (String.eqb h) l = true <-> In h l.
Proof.
  rewrite existsb_exists. split.
  - intros (y & Hy & Heq). apply String.eqb_eq in Heq. now subst.
  - intros Hin. exists h. split; [exact Hin | apply String.eqb_refl].
Qed.

Lemma deque_append_newest {A} (maxlen : nat) (x : A) (d : list A) :
  (0 < maxlen)%nat -> In x (Dsq.deque_append maxlen x d).
Proof.
  intros Hpos. unfold Dsq.deque_append.
  apply list_elem_of_In, list_elem_of_lookup.
  exists (Nat.min (List.length d) (maxlen - 1)).
  rewrite lookup_drop, length_app. cbn [List.length].
  rewrite lookup_app_r by lia.
  replace (_ - List.length d)%nat with 0%nat by lia. reflexivity.
Qed.

(** The fingerprint determines the denomination, the outpoint and the
    time, and is determined by them. *)
Lemma dsq_hash_inj (d d' : Dsq.dsq_msg) :
  Dsq.dsq_hash d = Dsq.dsq_hash d' <->
  Dsq.nDenom d = Dsq.nDenom d'
  /\ Dsq.masternodeOutPoint d = Dsq.masternodeOutPoint d'
  /\ Dsq.nTime d = Dsq.nTime d'.
Proof.
  split; [|intros (E1 & E2 & E3); unfold Dsq.dsq_hash; now rewrite E1, E2, E3].
  unfold Dsq.dsq_hash. intros E.
  apply (f_equal list_ascii_of_string) in E.
  rewrite !list_ascii_of_string_app in E.
  change (list_ascii_of_string ":") with [":"%char] in E. cbn [app] in E.
  apply app_colon_inj_first in E as [E1 E]; try apply pretty_Z_colon_free.
  apply app_colon_inj_last in E as [E2 E3]; try apply pretty_Z_colon_free.
  apply (f_equal string_of_list_ascii) in E1, E2, E3.
  rewrite !string_of_list_ascii_of_string in E1, E2, E3.
  split; [now apply (inj pretty)|]. split; [exact E2 | now apply (inj pretty)].
Qed.

Lemma add_recent_dsq_same_hash (PSDenoms : list Z) first second self :
  Dsq.nDenom second = Dsq.nDenom first ->
  Dsq.dsq_hash second = Dsq.dsq_hash first ->
  Dsq.add_recent_dsq PSDenoms second (Dsq.add_recent_dsq PSDenoms first self)
  = Dsq.add_recent_dsq PSDenoms first self.
Proof.
  intros Eden Ehash. unfold Dsq.add_recent_dsq at 2.
  destruct (negb (existsb (Z.eqb (Dsq.nDenom first)) PSDenoms)) eqn:Hden.
  - unfold Dsq.add_recent_dsq. rewrite Eden. now rewrite Hden.
  - destruct (existsb (String.eqb (Dsq.dsq_hash first))
                (Dsq.recent_dsq_hashes self)) eqn:Hseen.
    + unfold Dsq.add_recent_dsq. now rewrite Eden, Ehash, Hden, Hseen.
    + unfold Dsq.add_recent_dsq. rewrite Eden, Ehash, Hden.
      cbn [Dsq.recent_dsq_hashes].
      assert (Hnew : existsb (String.eqb (Dsq.dsq_hash first))
                (Dsq.deque_append 50 (Dsq.dsq_hash first)
                   (Dsq.recent_dsq_hashes self)) = true).
      { apply existsb_eqb_In, deque_append_newest. lia. }
      now rewrite Hnew, Hseen.
Qed.

Lemma add_recent_dsq_repeat (PSDenoms : list Z) dsq self :
  Dsq.add_recent_dsq PSDenoms dsq (Dsq.add_recent_dsq PSDenoms dsq self)
  = Dsq.add_recent_dsq PSDenoms dsq self.
Proof. now apply add_recent_dsq_same_hash. Qed.

(** C8. Of two mixing-queue announcements of a known denomination that
    share denomination, outpoint and time, whatever else they carry, the
    second is dropped: ingested one after the other into fresh caches
    they leave the first as the one stored record and its fingerprint as
    the one stored fingerprint, and from any state of the caches the
    second ingest changes neither ring.  An announcement of a known
    denomination that differs from the first in denomination, outpoint or
    time is not dropped: it is stored in front of the first and its
    fingerprint behind the first one. *)
Theorem add_recent_dsq_twice
    (PSDenoms : list Z) (first second : Dsq.dsq_msg) (self : Dsq.state) :
  In (Dsq.nDenom first) PSDenoms ->
  Dsq.nDenom second = Dsq.nDenom first ->
  Dsq.masternodeOutPoint second = Dsq.masternodeOutPoint first ->
  Dsq.nTime second = Dsq.nTime first ->
  let once := Dsq.add_recent_dsq PSDenoms first Dsq.init in
  let twice := Dsq.add_recent_dsq PSDenoms second once in
  Dsq.recent_dsq twice = [first]
  /\ Dsq.recent_dsq_hashes twice = [Dsq.dsq_hash first]
  /\ twice = once
  /\ Dsq.add_recent_dsq PSDenoms second
       (Dsq.add_recent_dsq PSDenoms first self)
     = Dsq.add_recent_dsq PSDenoms first self
  /\ (forall other : Dsq.dsq_msg,
        In (Dsq.nDenom other) PSDenoms ->
        (Dsq.nDenom other <> Dsq.nDenom first
         \/ Dsq.masternodeOutPoint other <> Dsq.masternodeOutPoint first
         \/ Dsq.nTime other <> Dsq.nTime first) ->
        Dsq.recent_dsq (Dsq.add_recent_dsq PSDenoms other once)
        = [other; first]
        /\ Dsq.recent_dsq_hashes (Dsq.add_recent_dsq PSDenoms other once)
           = [Dsq.dsq_hash first; Dsq.dsq_hash other]).
Proof.
  intros Hden Eden Eout Etime. cbn zeta.
  assert (Ehash : Dsq.dsq_hash second = Dsq.dsq_hash first).
  { apply dsq_hash_inj. auto. }
  rewrite !(add_recent_dsq_same_hash _ _ _ _ Eden Ehash).
  assert (Hknown : forall d, In (Dsq.nDenom d) PSDenoms ->
            negb (existsb (Z.eqb (Dsq.nDenom d)) PSDenoms) = false).
  { intros d Hd. apply negb_false_iff, existsb_exists. exists (Dsq.nDenom d).
    split; [exact Hd | apply Z.eqb_refl]. }
  assert (Honce : Dsq.add_recent_dsq PSDenoms first Dsq.init
                  = {| Dsq.recent_dsq := [first];
                       Dsq.recent_dsq_hashes := [Dsq.dsq_hash first] |}).
  { unfold Dsq.add_recent_dsq. now rewrite (Hknown _ Hden). }
  rewrite Honce. cbn [Dsq.recent_dsq Dsq.recent_dsq_hashes].
  repeat (split; [reflexivity|]).
  intros other Hother Hdiff.
  assert (Hne : String.eqb (Dsq.dsq_hash other) (Dsq.dsq_hash first) = false).
  { apply String.eqb_neq. intros E. apply dsq_hash_inj in E.
    destruct E as (E1 & E2 & E3). destruct Hdiff as [H | [H | H]]; auto. }
  unfold Dsq.add_recent_dsq. rewrite (Hknown _ Hother).
  cbn [Dsq.recent_dsq Dsq.recent_dsq_hashes existsb]. rewrite Hne.
  cbn [orb]. split; reflexivity.
Qed.

Lemma add_recent_dsq_twice_witness :
  let first := {| Dsq.nDenom := 2;
                  Dsq.masternodeOutPoint := "ab12:1";
                  Dsq.nTime := 1600000000;
                  Dsq.fReady := false;
                  Dsq.vchSig := "3045" |} in
  let second := {| Dsq.nDenom := 2;
                   Dsq.masternodeOutPoint := "ab12:1";
                   Dsq.nTime := 1600000000;
                   Dsq.fReady := true;
                   Dsq.vchSig := "3046" |} in
  let other := {| Dsq.nDenom := 2;
                  Dsq.masternodeOutPoint := "ab12:1";
                  Dsq.nTime := 1600000001;
                  Dsq.fReady := false;
                  Dsq.vchSig := "3045" |} in
  let once := Dsq.add_recent_dsq [1; 2; 4; 8; 16] first Dsq.init in
  In 2 [1; 2; 4; 8; 16]
  /\ second <> first
  /\ Dsq.recent_dsq (Dsq.add_recent_dsq [1; 2; 4; 8; 16] second once)
     = [first]
  /\ Dsq.recent_dsq_hashes
       (Dsq.add_recent_dsq [1; 2; 4; 8; 16] second once)
     = [Dsq.dsq_hash first]
  /\ Dsq.recent_dsq (Dsq.add_recent_dsq [1; 2; 4; 8; 16] other once)
     = [other; first].
Proof.
  cbn zeta. split; [right; left; reflexivity|]. split; [discriminate|].
  match goal with
  | |- Dsq.recent_dsq (Dsq.add_recent_dsq ?ds ?d2
                         (Dsq.add_recent_dsq _ ?d1 Dsq.init)) = _ /\ _ =>
      destruct (add_recent_dsq_twice ds d1 d2 Dsq.init)
        as (A & B & _ & _ & C);
      [right; left; reflexivity | reflexivity | reflexivity | reflexivity |]
  end.
  split; [exact A|]. split; [exact B|].
  match goal with
  | |- Dsq.recent_dsq (Dsq.add_recent_dsq _ ?d3 _) = _ =>
      destruct (C d3) as [C1 _];
      [right; left; reflexivity | right; right; discriminate | exact C1]
  end.
Defined.

Example dsq_hash_format :
  Dsq.dsq_hash {| Dsq.nDenom := 2; Dsq.masternodeOutPoint := "ab12:1";
                  Dsq.nTime := 1600000000; Dsq.fReady := false;
                  Dsq.vchSig := "" |}
  = "2:ab12:1:1600000000".
Proof. vm_compute. reflexivity. Qed.

Example deque_append_evicts :
  Dsq.deque_append 3 4 [1; 2; 3] = [2; 3; 4]
  /\ Dsq.deque_appendleft 3 0 [1; 2; 3] = [0; 1; 2].
Proof. split; reflexivity. Qed.

(** ** The peer pool *)

Example one_live_one_queued_state :
  Net.peers Net.one_live_one_queued = {[ Net.addr_a := Net.conn_a ]}
  /\ Net.connecting Net.one_live_one_queued = {[ Net.addr_b ]}
  /\ Net.peers_queue Net.one_live_one_queued = Some [Net.addr_b]
  /\ Net.main_taskgroup Net.one_live_one_queued = Some Net.SilentTaskGroup.
Proof. split; [|split; [|split]]; by_evaluation. Qed.

Lemma stop_keeps_peers (o : Net.cancel_outcome) (self : Net.DashNet) :
  Net.peers (Net.stop o self) = Net.peers self.
Proof. unfold Net.stop. destruct (Net.main_taskgroup self); reflexivity. Qed.

Lemma stop_resets_queueing (o : Net.cancel_outcome) (self : Net.DashNet) :
  Net.main_taskgroup self <> None ->
  Net.connecting (Net.stop o self) = ∅
  /\ Net.peers_queue (Net.stop o self) = None
  /\ Net.main_taskgroup (Net.stop o self) = None.
Proof.
  unfold Net.stop. destruct (Net.main_taskgroup self); [auto | congruence].
Qed.

(** C1, the code at a started pool with one live peer and one queued dial.
    However the cancellation ends, [stop] clears the connecting set and the
    pending-connect queue, but the live-peer map still holds the peer: the
    empty dict goes to a new attribute [peeers].  The assertions of the
    next [_start] then fail on the peers left behind. *)
Theorem stop_leaves_live_peers (o : Net.cancel_outcome) :
  let self' := Net.stop o Net.one_live_one_queued in
  Net.connecting self' = ∅
  /\ Net.peers_queue self' = None
  /\ Net.main_taskgroup self' = None
  /\ Net.peeers self' = Some ∅
  /\ Net.peers self' = {[ Net.addr_a := Net.conn_a ]}
  /\ Net.peers self' <> ∅
  /\ (Net._start self').1 = Raise AssertionError.
Proof.
  cbn zeta.
  destruct (stop_resets_queueing o Net.one_live_one_queued) as (Hc & Hq & Hg);
    [rewrite (proj2 (proj2 (proj2 one_live_one_queued_state))); discriminate|].
  assert (Hp : Net.peers (Net.stop o Net.one_live_one_queued)
               = {[ Net.addr_a := Net.conn_a ]}).
  { rewrite stop_keeps_peers. apply one_live_one_queued_state. }
  split; [exact Hc|]. split; [exact Hq|]. split; [exact Hg|].
  split; [destruct o; by_evaluation|]. split; [exact Hp|]. split.
  - rewrite Hp. apply map_non_empty_singleton.
  - destruct o; by_evaluation.
Qed.

(** *** What [_start_peer] changes *)

Lemma start_peer_frame p self :
  let self' := (Net._start_peer p self).2 in
  Net.peers self' = Net.peers self
  /\ Net.banlist self' = Net.banlist self
  /\ Net.found_peers self' = Net.found_peers self
  /\ Net.use_static_peers self' = Net.use_static_peers self.
Proof.
  cbn zeta. unfold Net._start_peer.
  destruct (_ && _); [|auto]. cbn.
  destruct (Net.peers_queue self); cbn; auto.
Qed.

Lemma start_peer_connecting p self :
  Net.connecting (Net._start_peer p self).2
  = if bool_decide (p ∉ dom (Net.peers self))
       && bool_decide (p ∉ Net.connecting self)
    then {[p]} ∪ Net.connecting self
    else Net.connecting self.
Proof.
  unfold Net._start_peer. destruct (_ && _); [|reflexivity]. cbn.
  destruct (Net.peers_queue self); reflexivity.
Qed.

Lemma start_peer_adds_only_fresh p q self :
  q ∈ Net.connecting (Net._start_peer p self).2 ->
  q ∈ Net.connecting self
  \/ (q = p /\ ((p ∉ dom (Net.peers self)) /\ (p ∉ Net.connecting self))).
Proof.
  rewrite start_peer_connecting.
  destruct (bool_decide (p ∉ dom (Net.peers self))) eqn:E1;
    destruct (bool_decide (p ∉ Net.connecting self)) eqn:E2; cbn; auto.
  apply bool_decide_eq_true in E1. apply bool_decide_eq_true in E2.
  intros Hq. apply elem_of_union in Hq as [Hq | Hq]; [|auto].
  apply elem_of_singleton in Hq. auto.
Qed.

Lemma start_peer_queued p q self :
  Net.queued q (Net._start_peer p self).2 ->
  Net.queued q self
  \/ (q = p /\ ((p ∉ dom (Net.peers self)) /\ (p ∉ Net.connecting self))).
Proof.
  unfold Net._start_peer, Net.queued.
  destruct (bool_decide (p ∉ dom (Net.peers self))) eqn:E1;
    destruct (bool_decide (p ∉ Net.connecting self)) eqn:E2; cbn; auto.
  apply bool_decide_eq_true in E1. apply bool_decide_eq_true in E2.
  destruct (Net.peers_queue self) as [l|] eqn:Eq; cbn; rewrite ?Eq;
    [|intros []].
  intros Hq. apply in_app_or in Hq as [Hq | [Hq | []]]; auto.
Qed.

Lemma choice_elem_of k (s : gset string) q :
  Net.choice k s = Some q -> q ∈ s.
Proof.
  unfold Net.choice. intros H.
  apply elem_of_elements, list_elem_of_lookup. eauto.
Qed.

(** *** Banned addresses in dynamic mode *)

Lemma banned_not_candidate p self :
  p ∈ dom (Net.banlist self) ->
  (p ∉ Net.find_peers_union self) /\ (p ∉ Net.available self).
Proof. unfold Net.find_peers_union, Net.available. set_solver. Qed.

Lemma queue_dynamic_spares_banned p draws :
  forall self,
    p ∈ dom (Net.banlist self) ->
    let self' := (Net.queue_dynamic draws self).2 in
    (p ∈ Net.connecting self' -> p ∈ Net.connecting self)
    /\ (Net.queued p self' -> Net.queued p self).
Proof.
  induction draws as [|k draws IH]; intros self Hban; cbn zeta.
  - cbn. auto.
  - cbn [Net.queue_dynamic].
    destruct (Net.peers_total self <? Net.max_peers self); [|cbn; auto].
    destruct (Net.choice k (Net.available self)) as [q|] eqn:Hq;
      [|apply IH, Hban].
    apply choice_elem_of in Hq.
    assert (Hne : p <> q).
    { intros ->. now apply (banned_not_candidate q self). }
    pose proof (start_peer_frame q self) as (_ & Hb & _).
    pose proof (start_peer_adds_only_fresh q p self) as Hc.
    pose proof (start_peer_queued q p self) as Hqu.
    destruct (Net._start_peer q self) as [[u|e] s1]; cbn [snd] in *.
    + rewrite <- Hb in Hban. destruct (IH s1 Hban) as [IHc IHq].
      split; intros H.
      * destruct (Hc (IHc H)) as [?|[? _]]; [assumption | contradiction].
      * destruct (Hqu (IHq H)) as [?|[? _]]; [assumption | contradiction].
    + split; intros H.
      * destruct (Hc H) as [?|[? _]]; [assumption | contradiction].
      * destruct (Hqu H) as [?|[? _]]; [assumption | contradiction].
Qed.

(** C4, as the code has it.  In dynamic mode an address on the ban list is
    in neither of the two candidate sets (the set [find_peers] counts and
    the set [queue_peers] draws from), and [queue_peers] puts it neither
    into the connecting set nor into the pending-connect queue. *)
Theorem banned_never_dialed_dynamic
    (p : string) (now : Q) (draws : list nat) (self : Net.DashNet) :
  Net.use_static_peers self = false ->
  p ∈ dom (Net.banlist self) ->
  let self' := (Net.queue_peers now draws self).2 in
  (p ∉ Net.find_peers_union self)
  /\ (p ∉ Net.available self)
  /\ (p ∈ Net.connecting self' -> p ∈ Net.connecting self)
  /\ (Net.queued p self' -> Net.queued p self).
Proof.
  intros Hdyn Hban. cbn zeta.
  destruct (banned_not_candidate p self Hban) as [Hu Ha].
  split; [exact Hu|]. split; [exact Ha|].
  unfold Net.queue_peers. rewrite Hdyn.
  destruct (Net.peers_total self >=? Net.max_peers self); [cbn; auto|].
  now apply queue_dynamic_spares_banned.
Qed.

Example dynamic_with_banned_found_state :
  Net.found_peers Net.dynamic_with_banned_found = {[ Net.addr_a; Net.addr_b ]}
  /\ dom (Net.banlist Net.dynamic_with_banned_found) = {[ Net.addr_a ]}
  /\ Net.connecting Net.dynamic_with_banned_found = ∅
  /\ Net.use_static_peers Net.dynamic_with_banned_found = false.
Proof. split; [|split; [|split]]; by_evaluation. Qed.

Lemma banned_never_dialed_dynamic_witness :
  let self := Net.dynamic_with_banned_found in
  let self' := (Net.queue_peers 1600000100 [0; 1; 2]%nat self).2 in
  Net.use_static_peers self = false
  /\ Net.addr_a ∈ dom (Net.banlist self)
  /\ Net.addr_a ∈ Net.found_peers self
  /\ Net.connecting self' = {[ Net.addr_b ]}
  /\ (Net.addr_a ∉ Net.connecting self').
Proof.
  cbn zeta.
  assert (Hs : Net.use_static_peers Net.dynamic_with_banned_found = false)
    by by_evaluation.
  assert (Hb : Net.addr_a ∈ dom (Net.banlist Net.dynamic_with_banned_found))
    by by_evaluation.
  split; [exact Hs|]. split; [exact Hb|].
  split; [by_evaluation|]. split; [by_evaluation|].
  intros Hin.
  destruct (banned_never_dialed_dynamic Net.addr_a 1600000100 [0; 1; 2]%nat
              Net.dynamic_with_banned_found Hs Hb) as (_ & _ & Hc & _).
  apply Hc in Hin. revert Hin. by_evaluation.
Defined.

(** C4, as the specification states it, fails in static mode: a static peer
    that is on the ban list is put into the connecting set and into the
    pending-connect queue. *)
Lemma banned_static_peer_is_dialed :
  let self := Net.static_with_banned_peer in
  let self' := (Net.queue_peers 1600000100 [] self).2 in
  Net.use_static_peers self = true
  /\ Net.addr_a ∈ dom (Net.banlist self)
  /\ (Net.addr_a ∉ Net.connecting self)
  /\ Net.addr_a ∈ Net.connecting self'
  /\ Net.queued Net.addr_a self'
  /\ ~ (forall (p : string) (now : Q) (draws : list nat) (st : Net.DashNet),
          p ∈ dom (Net.banlist st) ->
          p ∈ Net.connecting (Net.queue_peers now draws st).2 ->
          p ∈ Net.connecting st).
Proof.
  cbn zeta.
  assert (Hb : Net.addr_a ∈ dom (Net.banlist Net.static_with_banned_peer))
    by by_evaluation.
  assert (H0 : Net.addr_a ∉ Net.connecting Net.static_with_banned_peer)
    by by_evaluation.
  assert (H1 : Net.addr_a
               ∈ Net.connecting
                   (Net.queue_peers 1600000100 []
                      Net.static_with_banned_peer).2)
    by by_evaluation.
  split; [by_evaluation|]. split; [exact Hb|].
  split; [exact H0|]. split; [exact H1|]. split.
  - unfold Net.queued.
    replace (Net.peers_queue _) with (Some [Net.addr_a]) by by_evaluation.
    left. reflexivity.
  - intros H. apply H0. exact (H _ _ _ _ Hb H1).
Qed.

(** *** Live and connecting addresses *)

Lemma exclusive_new testnet cmd cfg bans :
  Net.exclusive (Net.new testnet cmd cfg bans).
Proof. intros p. cbn. set_solver. Qed.

Lemma exclusive_same self self' :
  Net.peers self' = Net.peers self ->
  Net.connecting self' = Net.connecting self ->
  Net.exclusive self -> Net.exclusive self'.
Proof. unfold Net.exclusive. intros -> ->. auto. Qed.

Lemma exclusive_start_peer p self :
  Net.exclusive self -> Net.exclusive (Net._start_peer p self).2.
Proof.
  intros Hex q Hq Hc.
  destruct (start_peer_frame p self) as (Hp & _). rewrite Hp in Hq.
  destruct (start_peer_adds_only_fresh p q self Hc) as [H | (-> & H & _)].
  - exact (Hex q Hq H).
  - exact (H Hq).
Qed.

Lemma exclusive_run_new_peer p dash_peer ready self :
  Net.exclusive self ->
  Net.exclusive (Net._run_new_peer p dash_peer ready self).
Proof.
  intros Hex q. unfold Net._run_new_peer.
  destruct ready; [destruct (bool_decide _)|]; cbn;
    rewrite ?dom_insert_L; specialize (Hex q); set_solver.
Qed.

Lemma exclusive_close_peer p dash_peer self :
  Net.exclusive self -> Net.exclusive (Net._close_peer p dash_peer self).
Proof.
  intros Hex q. unfold Net._close_peer.
  destruct (Net.peers self !! p) as [stored|]; [destruct (Nat.eqb _ _)|];
    cbn; rewrite ?dom_delete_L; specialize (Hex q); set_solver.
Qed.

Lemma exclusive_connection_down dash_peer now self :
  Net.exclusive self -> Net.exclusive (Net.connection_down dash_peer now self).
Proof.
  intros Hex. unfold Net.connection_down.
  pose proof (exclusive_close_peer (Net.peer dash_peer) dash_peer self Hex)
    as Hc.
  destruct (_ && _); [|destruct (Net.truthy_str _)];
    try exact Hc; revert Hc; apply exclusive_same; reflexivity.
Qed.

Lemma exclusive_stop o self :
  Net.exclusive self -> Net.exclusive (Net.stop o self).
Proof.
  intros Hex. unfold Net.stop.
  destruct (Net.main_taskgroup self); [|exact Hex].
  intros q _. cbn. set_solver.
Qed.

Lemma exclusive_start self :
  Net.exclusive self -> Net.exclusive (Net._start self).2.
Proof.
  intros Hex. unfold Net._start.
  repeat match goal with
         | |- context [if ?b then _ else _] => destruct b
         | |- context [match Net.main_taskgroup ?s with _ => _ end] =>
             destruct (Net.main_taskgroup s)
         end;
    cbn [snd]; revert Hex; apply exclusive_same; reflexivity.
Qed.

Lemma exclusive_queue_static now l :
  forall self,
    Net.exclusive self -> Net.exclusive (Net.queue_static now l self).2.
Proof.
  induction l as [|p l IH]; intros self Hex; [exact Hex|].
  cbn [Net.queue_static].
  assert (Hgo : forall s, Net.exclusive s ->
            Net.exclusive
              (match Net._start_peer p s with
               | (Ok _, s') => Net.queue_static now l s'
               | (Raise e, s') => (Raise e, s')
               end).2).
  { intros s Hs. pose proof (exclusive_start_peer p s Hs) as Hs'.
    destruct (Net._start_peer p s) as [[u|e] s']; cbn [snd] in *; auto. }
  destruct (Net.peers_total self >=? Net.max_peers self); [exact Hex|].
  destruct (_ && _); [|auto].
  destruct (Net.disconnected_static self !! p) as [t|]; [|auto].
  destruct (Qeq_bool t 0); [auto|].
  destruct (Qltb _ _); [auto|].
  apply Hgo. revert Hex. apply exclusive_same; reflexivity.
Qed.

Lemma exclusive_queue_dynamic draws :
  forall self,
    Net.exclusive self -> Net.exclusive (Net.queue_dynamic draws self).2.
Proof.
  induction draws as [|k draws IH]; intros self Hex; [exact Hex|].
  cbn [Net.queue_dynamic].
  destruct (Net.peers_total self <? Net.max_peers self); [|exact Hex].
  destruct (Net.choice k (Net.available self)) as [q|]; [|auto].
  pose proof (exclusive_start_peer q self Hex) as Hs.
  destruct (Net._start_peer q self) as [[u|e] s']; cbn [snd] in *; auto.
Qed.

Lemma exclusive_exec a self :
  Net.exclusive self -> Net.exclusive (Net.exec a self).
Proof.
  intros Hex. destruct a; cbn [Net.exec].
  - now apply exclusive_start.
  - now apply exclusive_stop.
  - revert Hex. apply exclusive_same; reflexivity.
  - revert Hex. apply exclusive_same; reflexivity.
  - unfold Net.find_peers. destruct (_ <? _); [|exact Hex].
    revert Hex. apply exclusive_same; reflexivity.
  - unfold Net.queue_peers.
    destruct (_ >=? _); [exact Hex|].
    destruct (Net.use_static_peers self);
      [now apply exclusive_queue_static | now apply exclusive_queue_dynamic].
  - now apply exclusive_start_peer.
  - unfold Net.launch_already_queued_up_new_peers.
    destruct (Net.peers_queue self); [|exact Hex].
    revert Hex. apply exclusive_same; reflexivity.
  - now apply exclusive_run_new_peer.
  - now apply exclusive_connection_down.
  - unfold Net._remove_banned_peer. destruct (decide _); [|exact Hex].
    revert Hex. apply exclusive_same; reflexivity.
Qed.

Lemma exclusive_run schedule :
  forall self, Net.exclusive self -> Net.exclusive (Net.run schedule self).
Proof.
  induction schedule as [|a schedule IH]; intros self Hex; [exact Hex|].
  apply IH, exclusive_exec, Hex.
Qed.

(** C9. In every state that the pool reaches from its construction by the
    steps that run between two suspension points, an address in the
    live-peer map is not in the connecting set.  [_start_peer] adds an
    address to the connecting set only when it is in neither of the two,
    and [_run_new_peer] leaves the address outside the connecting set
    whether the handshake completed or not; a completed handshake for an
    address that is not yet live puts the connection into the live-peer
    map. *)
Theorem live_excludes_connecting
    (testnet cmd : bool) (cfg : Net.SimpleConfig)
    (bans : gmap string Net.ban_record) (schedule : list Net.action) :
  let self := Net.run schedule (Net.new testnet cmd cfg bans) in
  (forall p : string, p ∈ dom (Net.peers self) -> p ∉ Net.connecting self)
  /\ (forall p : string,
        p ∉ Net.connecting self ->
        p ∈ Net.connecting (Net._start_peer p self).2 ->
        p ∉ dom (Net.peers self))
  /\ (forall (p : string) (dash_peer : Net.DashPeer) (ready : bool),
        let self' := Net._run_new_peer p dash_peer ready self in
        (p ∉ Net.connecting self')
        /\ (ready = true -> p ∉ dom (Net.peers self) ->
            Net.peers self' !! p = Some dash_peer)).
Proof.
  cbn zeta. split; [|split].
  - apply exclusive_run, exclusive_new.
  - intros p Hn Hin.
    destruct (start_peer_adds_only_fresh p p _ Hin) as [H | (_ & H & _)];
      [contradiction | exact H].
  - intros p dash_peer ready. split.
    + unfold Net._run_new_peer. cbn. set_solver.
    + intros -> Hp. unfold Net._run_new_peer.
      rewrite bool_decide_eq_false_2 by exact Hp. cbn.
      apply lookup_insert_eq.
Qed.

Lemma live_excludes_connecting_witness :
  let self :=
    Net.run [ Net.Start; Net.StartPeer Net.addr_a; Net.LaunchQueued;
              Net.RunNewPeer Net.addr_a Net.conn_a true;
              Net.StartPeer Net.addr_b ]
            (Net.new false false Net.no_config ∅) in
  Net.addr_a ∈ dom (Net.peers self) /\ (Net.addr_a ∉ Net.connecting self).
Proof.
  cbn zeta.
  match goal with
  | |- ?a ∈ dom (Net.peers ?s) /\ _ =>
      assert (Hlive : a ∈ dom (Net.peers s))
  end.
  { by_evaluation. }
  split; [exact Hlive|].
  exact (proj1 (live_excludes_connecting false false Net.no_config ∅ _)
               Net.addr_a Hlive).
Defined.

(** * Further properties of the code *)

(** ** Port numbers *)

Lemma pretty_N_go_value (x : N) :
  forall s : string,
    PeersText.int_of_decimals (list_ascii_of_string (pretty_N_go x s))
    = fold_left (fun acc c => 10 * acc + (Z.of_N (N_of_ascii c) - 48))
        (list_ascii_of_string s) (Z.of_N x).
Proof.
  induction (N.lt_wf_0 x) as [x _ IH]. intros s.
  destruct (N.eq_dec x 0%N) as [-> | Hx]; [now rewrite pretty_N_go_0|].
  rewrite pretty_N_go_step by lia.
  rewrite IH by (apply N.div_lt; lia).
  cbn [list_ascii_of_string fold_left]. f_equal.
  destruct (pretty_N_char_decimal (x `mod` 10)%N) as [_ ->];
    [apply N.mod_upper_bound; lia|].
  rewrite (N.div_mod x 10) at 3 by lia. lia.
Qed.

Lemma pretty_N_go_nonempty (x : N) :
  forall s : string, s <> "" -> pretty_N_go x s <> "".
Proof.
  induction (N.lt_wf_0 x) as [x _ IH]. intros s Hs.
  destruct (N.eq_dec x 0%N) as [-> | Hx]; [now rewrite pretty_N_go_0|].
  rewrite pretty_N_go_step by lia.
  apply IH; [apply N.div_lt; lia | discriminate].
Qed.

Lemma pretty_N_nonempty (n : N) : list_ascii_of_string (pretty n) <> [].
Proof.
  intros H. apply list_ascii_nil in H. revert H.
  unfold pretty, pretty_N. destruct (decide (n = 0%N)); [discriminate|].
  rewrite pretty_N_go_step by lia. apply pretty_N_go_nonempty. discriminate.
Qed.

(** X1. [is_valid_portnum] accepts the decimal rendering of a natural number
    exactly when the number lies strictly between 0 and 65536; whatever it
    accepts is a non-empty string of decimal digits whose value lies in
    that range (leading zeros are allowed); the empty string is refused. *)
Theorem is_valid_portnum_range :
  (forall n : N,
     PeersText.is_valid_portnum (pretty n)
     = PeersText.Returns ((0 <? Z.of_N n) && (Z.of_N n <? 65536)))
  /\ (forall portnum : string,
        PeersText.is_valid_portnum portnum = PeersText.Returns true ->
        portnum <> ""
        /\ forallb PeersText.is_decimal (list_ascii_of_string portnum) = true
        /\ 0 < PeersText.int_of_decimals (list_ascii_of_string portnum)
           < 65536)
  /\ PeersText.is_valid_portnum "" = PeersText.Returns false
  /\ PeersText.is_valid_portnum "0080" = PeersText.Returns true.
Proof.
  split; [|split; [|split; reflexivity]].
  - intros n. unfold PeersText.is_valid_portnum.
    pose proof (pretty_N_nonempty n) as Hne.
    assert (Hdec : forallb PeersText.is_decimal
                     (list_ascii_of_string (pretty n)) = true).
    { unfold pretty, pretty_N. destruct (decide (n = 0%N)); [reflexivity|].
      now apply pretty_N_go_decimal. }
    assert (Hval : PeersText.int_of_decimals
                     (list_ascii_of_string (pretty n)) = Z.of_N n).
    { unfold pretty, pretty_N. destruct (decide (n = 0%N)) as [-> | ?];
        [reflexivity|]. now rewrite pretty_N_go_value. }
    destruct (list_ascii_of_string (pretty n)) as [|c p] eqn:E;
      [congruence|].
    assert (Hdig : forallb PeersText.isdigit_char (c :: p) = true).
    { rewrite forallb_forall in Hdec |- *. intros a Ha.
      specialize (Hdec a Ha). unfold PeersText.isdigit_char.
      unfold PeersText.is_decimal in Hdec. now rewrite Hdec. }
    now rewrite Hdig, Hdec, Hval.
  - intros portnum. unfold PeersText.is_valid_portnum.
    destruct (list_ascii_of_string portnum) as [|c p] eqn:E; [discriminate|].
    destruct (forallb PeersText.isdigit_char (c :: p)); [|discriminate].
    cbn [negb].
    destruct (forallb PeersText.is_decimal (c :: p)); [|discriminate].
    intros H. injection H as H. apply andb_true_iff in H as [H1 H2].
    split; [intros ->; discriminate|]. split; [reflexivity|]. lia.
Qed.

Lemma is_valid_portnum_range_witness :
  PeersText.is_valid_portnum "9999" = PeersText.Returns true
  /\ "9999" <> ""
  /\ 0 < PeersText.int_of_decimals (list_ascii_of_string "9999") < 65536.
Proof.
  assert (H : PeersText.is_valid_portnum "9999" = PeersText.Returns true)
    by reflexivity.
  split; [exact H|].
  destruct (proj1 (proj2 is_valid_portnum_range) "9999" H) as (A & _ & B).
  split; [exact A | exact B].
Defined.

(** [int] raises [ValueError] on a superscript two, which [str.isdigit]
    accepts. *)
Example superscript_two_raises :
  PeersText.is_valid_portnum (String (ascii_of_N 178) "")
  = PeersText.RaisesValueError.
Proof. reflexivity. Qed.

(** ** The textual list of peers *)

Lemma split_where_not_nil sep s : PeersText.split_where sep s <> [].
Proof.
  destruct s as [|c s]; cbn; [discriminate|].
  destruct (sep c); [discriminate|].
  destruct (PeersText.split_where sep s); discriminate.
Qed.

Lemma split_where_pieces sep s :
  Forall (fun w => forallb (fun c => negb (sep c)) w = true)
         (PeersText.split_where sep s).
Proof.
  induction s as [|c s IH]; cbn.
  - repeat constructor.
  - destruct (sep c) eqn:Ec; [constructor; [reflexivity | exact IH]|].
    destruct (PeersText.split_where sep s) as [|w ws].
    + repeat constructor. cbn. now rewrite Ec.
    + inversion IH as [|? ? Hw Hws]; subst. constructor; [|exact Hws].
      cbn. now rewrite Ec, Hw.
Qed.

Lemma split_where_sep_free sep p :
  forallb (fun c => negb (sep c)) p = true ->
  PeersText.split_where sep p = [p].
Proof.
  induction p as [|c p IH]; cbn; [reflexivity|].
  intros H. apply andb_true_iff in H as [Hc Hp].
  apply negb_true_iff in Hc. rewrite Hc, (IH Hp). reflexivity.
Qed.

Lemma split_where_app_sep sep p c r :
  forallb (fun c => negb (sep c)) p = true ->
  sep c = true ->
  PeersText.split_where sep (p ++ c :: r) = p :: PeersText.split_where sep r.
Proof.
  intros Hp Hc. induction p as [|a p IH]; cbn.
  - now rewrite Hc.
  - cbn in Hp. apply andb_true_iff in Hp as [Ha Hp].
    apply negb_true_iff in Ha. rewrite Ha, (IH Hp). reflexivity.
Qed.

Lemma entries_pieces s :
  Forall (fun p => PeersText.nonempty p = true /\ PeersText.sep_free p = true)
         (PeersText.entries s).
Proof.
  unfold PeersText.entries. apply List.Forall_forall. intros p Hp.
  apply filter_In in Hp as [Hin Hne]. split; [exact Hne|].
  pose proof (split_where_pieces PeersText.is_sep s) as H.
  rewrite List.Forall_forall in H. exact (H p Hin).
Qed.

Lemma entries_join (l : list (list ascii)) :
  Forall (fun p => PeersText.nonempty p = true /\ PeersText.sep_free p = true) l ->
  PeersText.entries (PeersText.join_comma_space l) = l.
Proof.
  induction l as [|p l IH]; intros Hall; [reflexivity|].
  inversion Hall as [|? ? [Hne Hfree] Hrest]; subst.
  destruct l as [|q l].
  - cbn [PeersText.join_comma_space]. unfold PeersText.entries.
    rewrite (split_where_sep_free _ _ Hfree). cbn. now rewrite Hne.
  - change (PeersText.join_comma_space (p :: q :: l))
      with (p ++ ","%char :: " "%char :: PeersText.join_comma_space (q :: l)).
    unfold PeersText.entries.
    rewrite (split_where_app_sep _ _ _ _ Hfree) by reflexivity.
    cbn [PeersText.split_where]. change (PeersText.is_sep " ") with true.
    cbn iota. cbn [List.filter]. rewrite Hne. cbn [PeersText.nonempty].
    f_equal. apply (IH Hrest).
Qed.

Lemma check_entries_accepts peers todo :
  Forall (fun p => PeersText.check_entry p = PeersText.EntryOk) todo ->
  PeersText.check_entries peers todo
  = PeersText.Peers (List.map string_of_list_ascii peers).
Proof.
  induction todo as [|p todo IH]; intros H; [reflexivity|].
  inversion H as [|? ? Hp Hrest]; subst. cbn. rewrite Hp. now apply IH.
Qed.

Lemma check_entries_accepted peers todo l :
  PeersText.check_entries peers todo = PeersText.Peers l ->
  l = List.map string_of_list_ascii peers
  /\ Forall (fun p => PeersText.check_entry p = PeersText.EntryOk) todo.
Proof.
  induction todo as [|p todo IH]; cbn.
  - intros H. injection H as <-. split; [reflexivity | constructor].
  - destruct (PeersText.check_entry p) eqn:Hp; try discriminate.
    intros H. destruct (IH H) as [-> Hrest]. split; [reflexivity|].
    now constructor.
Qed.

Lemma split_colon_1_spec p :
  existsb PeersText.is_colon p = true ->
  let '(h, t) := PeersText.split_colon_1 p in
  p = h ++ ":"%char :: t
  /\ existsb PeersText.is_colon h = false.
Proof.
  induction p as [|c p IH]; cbn; [discriminate|].
  destruct (PeersText.is_colon c) eqn:Ec.
  - intros _. split; [|reflexivity]. f_equal.
    unfold PeersText.is_colon in Ec. apply N.eqb_eq in Ec.
    rewrite <- (ascii_N_embedding c), Ec. reflexivity.
  - cbn. intros H. specialize (IH H).
    destruct (PeersText.split_colon_1 p) as [h t].
    destruct IH as [-> Hh]. split; [reflexivity|]. cbn. now rewrite Ec.
Qed.

(** X3. When [dash_peers_from_str] returns a list of peers, every peer in it
    is non-empty and free of separators, and it is either a host name
    without a colon that [is_valid_hostname] accepts, or a host, a colon
    and a port where the host has no colon, [is_valid_hostname] accepts the
    host and [is_valid_portnum] accepts the port. *)
Theorem dash_peers_from_str_accepts_valid
    (peers_str : string) (peers : list string) :
  PeersText.dash_peers_from_str peers_str = PeersText.Peers peers ->
  Forall
    (fun p : string =>
       p <> ""
       /\ PeersText.sep_free (list_ascii_of_string p) = true
       /\ ((existsb PeersText.is_colon (list_ascii_of_string p) = false
            /\ Hostname.is_valid_hostname p = Ok true)
           \/ exists host port : string,
                p = host +:+ ":" +:+ port
                /\ existsb PeersText.is_colon (list_ascii_of_string host)
                   = false
                /\ Hostname.is_valid_hostname host = Ok true
                /\ PeersText.is_valid_portnum port = PeersText.Returns true))
    peers.
Proof.
  unfold PeersText.dash_peers_from_str. intros H.
  apply check_entries_accepted in H as [-> Hok].
  pose proof (entries_pieces (list_ascii_of_string peers_str)) as Hpieces.
  induction (PeersText.entries (list_ascii_of_string peers_str))
    as [|p l IH]; [constructor|].
  inversion Hok as [|? ? Hp Hok']; subst.
  inversion Hpieces as [|? ? [Hne Hfree] Hpieces']; subst.
  cbn [List.map]. constructor; [|now apply IH].
  split.
  { intros E. apply (f_equal list_ascii_of_string) in E.
    rewrite list_ascii_of_string_of_list_ascii in E. subst p. discriminate. }
  rewrite list_ascii_of_string_of_list_ascii. split; [exact Hfree|].
  unfold PeersText.check_entry in Hp.
  destruct (existsb PeersText.is_colon p) eqn:Ecolon.
  - right. pose proof (split_colon_1_spec p Ecolon) as Hsplit.
    destruct (PeersText.split_colon_1 p) as [h t].
    destruct Hsplit as [-> Hh].
    exists (string_of_list_ascii h), (string_of_list_ascii t).
    rewrite list_ascii_of_string_of_list_ascii.
    destruct (Hostname.is_valid_hostname (string_of_list_ascii h))
      as [[|]|]; try discriminate.
    destruct (PeersText.is_valid_portnum (string_of_list_ascii t))
      as [[|]|]; try discriminate.
    repeat split; try assumption.
    clear. induction h as [|c h IH]; [reflexivity|].
    cbn. now rewrite IH.
  - left. split; [reflexivity|].
    destruct (Hostname.is_valid_hostname (string_of_list_ascii p))
      as [[|]|]; try discriminate. reflexivity.
Qed.

Lemma dash_peers_from_str_accepts_valid_witness :
  PeersText.dash_peers_from_str "good:9999, dnsseed.dash.org"
  = PeersText.Peers ["good:9999"; "dnsseed.dash.org"]
  /\ Forall (fun p : string => p <> "") ["good:9999"; "dnsseed.dash.org"].
Proof.
  assert (H : PeersText.dash_peers_from_str "good:9999, dnsseed.dash.org"
              = PeersText.Peers ["good:9999"; "dnsseed.dash.org"])
    by reflexivity.
  split; [exact H|].
  eapply List.Forall_impl; [|exact (dash_peers_from_str_accepts_valid _ _ H)].
  intros p Hp. exact (proj1 Hp).
Defined.

(** X4. [dash_peers_from_str] raises [IndexError] on a text without
    separators that starts with a colon: the host part is empty and
    [is_valid_hostname] looks up its last character. *)
Theorem dash_peers_from_str_empty_host (rest : string) :
  PeersText.sep_free (list_ascii_of_string rest) = true ->
  PeersText.dash_peers_from_str (":" +:+ rest) = PeersText.RaisesIndexError.
Proof.
  intros Hfree. unfold PeersText.dash_peers_from_str, PeersText.entries.
  change (list_ascii_of_string (":" +:+ rest))
    with (":"%char :: list_ascii_of_string rest).
  rewrite split_where_sep_free by (cbn; exact Hfree).
  reflexivity.
Qed.

Lemma dash_peers_from_str_empty_host_witness :
  PeersText.sep_free (list_ascii_of_string "9999") = true
  /\ PeersText.dash_peers_from_str ":9999" = PeersText.RaisesIndexError.
Proof.
  split; [reflexivity|].
  apply (dash_peers_from_str_empty_host "9999"). reflexivity.
Defined.

(** X5. What [dash_peers_from_str] accepts survives the round trip through
    [dash_peers_as_str]: parsing the comma-separated rendering of an
    accepted list gives the same list. *)
Theorem dash_peers_round_trip (peers_str : string) (peers : list string) :
  PeersText.dash_peers_from_str peers_str = PeersText.Peers peers ->
  PeersText.dash_peers_from_str (PeersText.dash_peers_as_str peers)
  = PeersText.Peers peers.
Proof.
  unfold PeersText.dash_peers_from_str, PeersText.dash_peers_as_str.
  intros H. apply check_entries_accepted in H as [-> Hok].
  pose proof (entries_pieces (list_ascii_of_string peers_str)) as Hpieces.
  set (E := PeersText.entries (list_ascii_of_string peers_str)) in *.
  rewrite list_ascii_of_string_of_list_ascii.
  assert (Hmap : List.map list_ascii_of_string
                   (List.map string_of_list_ascii E) = E).
  { clear. induction E as [|p E IH]; [reflexivity|].
    cbn. now rewrite list_ascii_of_string_of_list_ascii, IH. }
  rewrite Hmap, (entries_join E Hpieces).
  now apply check_entries_accepts.
Qed.

Lemma dash_peers_round_trip_witness :
  PeersText.dash_peers_from_str "good:9999;dnsseed.dash.org  a.b"
  = PeersText.Peers ["good:9999"; "dnsseed.dash.org"; "a.b"]
  /\ PeersText.dash_peers_as_str ["good:9999"; "dnsseed.dash.org"; "a.b"]
     = "good:9999, dnsseed.dash.org, a.b"
  /\ PeersText.dash_peers_from_str "good:9999, dnsseed.dash.org, a.b"
     = PeersText.Peers ["good:9999"; "dnsseed.dash.org"; "a.b"].
Proof.
  assert (H : PeersText.dash_peers_from_str "good:9999;dnsseed.dash.org  a.b"
              = PeersText.Peers ["good:9999"; "dnsseed.dash.org"; "a.b"])
    by reflexivity.
  split; [exact H|]. split; [reflexivity|].
  exact (dash_peers_round_trip _ _ H).
Defined.

(** ** The ban list in memory *)

Lemma remove_banned_banlist p self :
  Net.banlist (Net._remove_banned_peer p self) = delete p (Net.banlist self).
Proof.
  unfold Net._remove_banned_peer. destruct (decide _) as [Hin | Hn].
  - reflexivity.
  - symmetry. apply delete_id. now apply not_elem_of_dom.
Qed.

(** X6. [_add_banned_peer] stores the record of the connection under its
    address and leaves the other entries alone; [_remove_banned_peer] of
    that address afterwards gives the ban list without the address, which
    is the ban list from before when the address was not banned; removing
    an address that is not banned changes nothing. *)
Theorem ban_add_then_remove
    (dash_peer : Net.DashPeer) (now : Q) (self : Net.DashNet) :
  let p := Net.peer dash_peer in
  let banned := Net._add_banned_peer dash_peer now self in
  Net.banlist banned !! p
  = Some {| Net.ban_at := now;
            Net.ban_record_msg := Net.ban_msg dash_peer;
            Net.ban_record_till := Net.ban_till dash_peer;
            Net.ban_record_ua := Net.user_agent dash_peer |}
  /\ (forall q, q <> p -> Net.banlist banned !! q = Net.banlist self !! q)
  /\ Net.banlist (Net._remove_banned_peer p banned)
     = delete p (Net.banlist self)
  /\ (p ∉ dom (Net.banlist self) ->
      Net.banlist (Net._remove_banned_peer p banned) = Net.banlist self)
  /\ (forall q, q ∉ dom (Net.banlist self) ->
                Net._remove_banned_peer q self = self).
Proof.
  cbn zeta. rewrite remove_banned_banlist.
  unfold Net._add_banned_peer. cbn [Net.banlist Net.set_banlist].
  split; [apply lookup_insert_eq|]. split.
  { intros q Hq. now apply lookup_insert_ne. }
  split; [apply delete_insert_eq|]. split.
  - intros Hfresh. rewrite delete_insert_eq. apply delete_id.
    now apply not_elem_of_dom.
  - intros q Hq. unfold Net._remove_banned_peer.
    destruct (decide _) as [Hin | _]; [exfalso; exact (Hq Hin) | reflexivity].
Qed.

Lemma ban_add_then_remove_witness :
  let self := Net.new false false Net.no_config ∅ in
  let banned := Net._add_banned_peer Net.conn_a 1600000000 self in
  (Net.addr_a ∉ dom (Net.banlist self))
  /\ Net.addr_a ∈ dom (Net.banlist banned)
  /\ Net.banlist (Net._remove_banned_peer Net.addr_a banned)
     = Net.banlist self.
Proof.
  cbn zeta.
  assert (H : Net.addr_a ∉ dom (Net.banlist
                                  (Net.new false false Net.no_config ∅)))
    by by_evaluation.
  split; [exact H|]. split; [by_evaluation|].
  destruct (ban_add_then_remove Net.conn_a 1600000000
              (Net.new false false Net.no_config ∅)) as (_ & _ & _ & A & _).
  exact (A H).
Defined.

(** ** Disconnecting and dialing again *)

Lemma close_peer_frame p dash_peer self :
  let self' := Net._close_peer p dash_peer self in
  Net.connecting self' = Net.connecting self
  /\ Net.banlist self' = Net.banlist self
  /\ Net.peers_queue self' = Net.peers_queue self
  /\ Net.use_static_peers self' = Net.use_static_peers self
  /\ Net.static_peers self' = Net.static_peers self
  /\ Net.disconnected_static self' = Net.disconnected_static self.
Proof.
  cbn zeta. unfold Net._close_peer.
  destruct (Net.peers self !! p) as [stored|]; [destruct (Nat.eqb _ _)|];
    cbn; auto 10.
Qed.

(** X7. In dynamic mode a connection that goes down with a ban message puts
    its address on the ban list, and the [queue_peers] that follows puts
    the address neither into the connecting set nor into the
    pending-connect queue. *)
Theorem banned_on_disconnect_not_redialed
    (dash_peer : Net.DashPeer) (t now : Q) (draws : list nat)
    (self : Net.DashNet) :
  Net.use_static_peers self = false ->
  Net.truthy_str (Net.ban_msg dash_peer) = true ->
  let p := Net.peer dash_peer in
  let down := Net.connection_down dash_peer t self in
  let self' := (Net.queue_peers now draws down).2 in
  p ∈ dom (Net.banlist down)
  /\ (p ∈ Net.connecting self' -> p ∈ Net.connecting self)
  /\ (Net.queued p self' -> Net.queued p self).
Proof.
  intros Hdyn Hmsg. cbn zeta.
  destruct (close_peer_frame (Net.peer dash_peer) dash_peer self)
    as (Hc & Hb & Hq & Hs & _).
  assert (Hdown : Net.connection_down dash_peer t self
                  = Net._add_banned_peer dash_peer t
                      (Net._close_peer (Net.peer dash_peer) dash_peer self)).
  { unfold Net.connection_down. rewrite Hs, Hdyn, Hmsg. reflexivity. }
  rewrite Hdown.
  set (closed := Net._close_peer (Net.peer dash_peer) dash_peer self) in *.
  assert (Hban : Net.peer dash_peer
                 ∈ dom (Net.banlist (Net._add_banned_peer dash_peer t closed))).
  { unfold Net._add_banned_peer. cbn. rewrite dom_insert_L. set_solver. }
  split; [exact Hban|].
  unfold Net.queue_peers.
  change (Net.use_static_peers (Net._add_banned_peer dash_peer t closed))
    with (Net.use_static_peers closed).
  rewrite Hs, Hdyn.
  assert (Hsame : Net.connecting (Net._add_banned_peer dash_peer t closed)
                  = Net.connecting self
                  /\ (Net.queued (Net.peer dash_peer)
                        (Net._add_banned_peer dash_peer t closed)
                      -> Net.queued (Net.peer dash_peer) self)).
  { split; [exact Hc|]. unfold Net.queued.
    change (Net.peers_queue (Net._add_banned_peer dash_peer t closed))
      with (Net.peers_queue closed).
    now rewrite Hq. }
  destruct Hsame as [Hc' Hq'].
  destruct (_ >=? _).
  - cbn [snd]. rewrite Hc'. auto.
  - destruct (queue_dynamic_spares_banned (Net.peer dash_peer) draws _ Hban)
      as [A B].
    split; intros H; [rewrite <- Hc'; exact (A H) | exact (Hq' (B H))].
Qed.

Lemma banned_on_disconnect_not_redialed_witness :
  let self := Net.dynamic_with_live_a in
  let down := Net.connection_down Net.conn_a_banned 1600000000 self in
  let self' := (Net.queue_peers 1600000001 [0; 1; 2]%nat down).2 in
  Net.use_static_peers self = false
  /\ Net.truthy_str (Net.ban_msg Net.conn_a_banned) = true
  /\ Net.peer Net.conn_a_banned ∈ Net.found_peers self
  /\ Net.connecting self' = {[ Net.addr_b ]}
  /\ (Net.peer Net.conn_a_banned ∉ Net.connecting self').
Proof.
  cbn zeta.
  assert (Hs : Net.use_static_peers Net.dynamic_with_live_a = false)
    by by_evaluation.
  assert (Hm : Net.truthy_str (Net.ban_msg Net.conn_a_banned) = true)
    by reflexivity.
  split; [exact Hs|]. split; [exact Hm|].
  split; [by_evaluation|]. split; [by_evaluation|].
  intros Hin.
  destruct (banned_on_disconnect_not_redialed Net.conn_a_banned 1600000000
              1600000001 [0; 1; 2]%nat Net.dynamic_with_live_a Hs Hm)
    as (_ & Hc & _).
  apply Hc in Hin. revert Hin. by_evaluation.
Defined.

Lemma start_peer_disconnected_static p self :
  Net.disconnected_static (Net._start_peer p self).2
  = Net.disconnected_static self.
Proof.
  unfold Net._start_peer. destruct (_ && _); [|reflexivity]. cbn.
  destruct (Net.peers_queue self); reflexivity.
Qed.

(** Two binary64 clock readings, the earlier one at least 8, that are less
    than 10 apart: their binary64 difference is below 10 too. *)
Lemma sub_10_close (now t : Q) :
  Float64.is_float now -> Float64.is_float t ->
  (8 <= t)%Q -> (now - t < 10)%Q ->
  (Float64.sub now t < 10)%Q.
Proof.
  intros Hnow Ht Hlate Hclose. rewrite binary64_10 in *.
  apply sub_below; [lia | exact Hnow | exact Ht | exact Hlate | exact Hclose].
Qed.

Lemma queue_static_cooldown p t now l :
  Qeq_bool t 0 = false ->
  (Float64.sub now t < 10)%Q ->
  forall self,
    Net.disconnected_static self !! p = Some t ->
    p ∉ Net.connecting self ->
    p ∉ Net.connecting (Net.queue_static now l self).2.
Proof.
  intros Ht Hcool. induction l as [|q l IH]; intros self Hd Hc; [exact Hc|].
  cbn [Net.queue_static].
  destruct (Net.peers_total self >=? Net.max_peers self); [exact Hc|].
  destruct (decide (q = p)) as [-> | Hne].
  - destruct (_ && _); [|now apply IH].
    rewrite Hd, Ht. apply Qltb_lt in Hcool. rewrite Hcool. now apply IH.
  - assert (Hgo : forall s,
              Net.disconnected_static s !! p = Some t ->
              p ∉ Net.connecting s ->
              p ∉ Net.connecting
                    (match Net._start_peer q s with
                     | (Ok _, s') => Net.queue_static now l s'
                     | (Raise e, s') => (Raise e, s')
                     end).2).
    { intros s Hds Hcs.
      pose proof (start_peer_disconnected_static q s) as Hds'.
      pose proof (start_peer_adds_only_fresh q p s) as Hcs'.
      assert (Hnew : p ∉ Net.connecting (Net._start_peer q s).2).
      { intros Hin. destruct (Hcs' Hin) as [? | [? _]];
          [contradiction | congruence]. }
      destruct (Net._start_peer q s) as [[u|e] s']; cbn [snd] in *.
      - apply IH; [now rewrite Hds' | exact Hnew].
      - exact Hnew. }
    destruct (_ && _); [|now apply IH].
    destruct (Net.disconnected_static self !! q) as [tq|]; [|now apply Hgo].
    destruct (Qeq_bool tq 0); [now apply Hgo|].
    destruct (Qltb _ _); [now apply IH|].
    apply Hgo; [|exact Hc]. cbn. now rewrite lookup_delete_ne.
Qed.

(** X8. In static mode a static peer whose connection goes down is not put
    on the ban list, even with a ban message; the time is recorded, and a
    [queue_peers] less than 10 seconds later does not dial the peer.  The
    two clock readings are binary64 numbers, the one taken when the
    connection went down at least 8: the code compares their binary64
    difference with 10. *)
Theorem static_peer_cooldown
    (dash_peer : Net.DashPeer) (t now : Q) (draws : list nat)
    (self : Net.DashNet) :
  Net.use_static_peers self = true ->
  Net.peer dash_peer ∈ Net.static_peers self ->
  Float64.is_float t -> Float64.is_float now ->
  (8 <= t)%Q ->
  (now - t < 10)%Q ->
  Net.peer dash_peer ∉ Net.connecting self ->
  let down := Net.connection_down dash_peer t self in
  Net.banlist down = Net.banlist self
  /\ Net.disconnected_static down !! Net.peer dash_peer = Some t
  /\ (Net.peer dash_peer ∉ Net.connecting (Net.queue_peers now draws down).2).
Proof.
  intros Hst Hin Hft Hfnow Hlate Hclose Hc. cbn zeta.
  assert (Ht : Qeq_bool t 0 = false).
  { destruct (Qeq_bool t 0) eqn:E; [|reflexivity].
    apply Qeq_bool_eq in E. lra. }
  assert (Hcool : (Float64.sub now t < 10)%Q) by now apply sub_10_close.
  destruct (close_peer_frame (Net.peer dash_peer) dash_peer self)
    as (Hc' & Hb & _ & Hs & Hsp & _).
  assert (Hdown : Net.connection_down dash_peer t self
                  = Net.set_disconnected_static
                      (<[Net.peer dash_peer := t]>
                         (Net.disconnected_static
                            (Net._close_peer (Net.peer dash_peer)
                               dash_peer self)))
                      (Net._close_peer (Net.peer dash_peer) dash_peer self)).
  { unfold Net.connection_down. rewrite Hs, Hst, Hsp.
    rewrite bool_decide_eq_true_2 by exact Hin. reflexivity. }
  rewrite Hdown.
  set (closed := Net._close_peer (Net.peer dash_peer) dash_peer self) in *.
  split; [exact Hb|]. split; [cbn; apply lookup_insert_eq|].
  unfold Net.queue_peers. cbn [Net.use_static_peers Net.set_disconnected_static].
  rewrite Hs, Hst.
  destruct (_ >=? _); [cbn; now rewrite Hc'|].
  apply (queue_static_cooldown _ t); try assumption.
  - cbn. apply lookup_insert_eq.
  - cbn. now rewrite Hc'.
Qed.

Lemma static_peer_cooldown_witness :
  let self := Net.static_with_live_a in
  let down := Net.connection_down Net.conn_a_banned 1600000000 self in
  Net.use_static_peers self = true
  /\ Net.peer Net.conn_a_banned ∈ Net.static_peers self
  /\ Net.peers_total down < Net.max_peers down
  /\ Net.banlist down = Net.banlist self
  /\ (Net.peer Net.conn_a_banned
      ∉ Net.connecting (Net.queue_peers 1600000005 [] down).2).
Proof.
  cbn zeta.
  assert (Hs : Net.use_static_peers Net.static_with_live_a = true)
    by by_evaluation.
  assert (Hin : Net.peer Net.conn_a_banned
                ∈ Net.static_peers Net.static_with_live_a) by by_evaluation.
  assert (Hc : Net.peer Net.conn_a_banned
               ∉ Net.connecting Net.static_with_live_a) by by_evaluation.
  assert (Hft : Float64.is_float 1600000000) by (vm_compute; reflexivity).
  assert (Hfnow : Float64.is_float 1600000005) by (vm_compute; reflexivity).
  assert (Hlate : (8 <= 1600000000)%Q) by (vm_compute; discriminate).
  destruct (static_peer_cooldown Net.conn_a_banned 1600000000 1600000005 []
              Net.static_with_live_a Hs Hin Hft Hfnow Hlate eq_refl Hc)
    as (A & _ & B).
  split; [exact Hs|]. split; [exact Hin|]. split; [by_evaluation|].
  split; [exact A | exact B].
Defined.

(** ** The capacity target *)

Lemma start_peer_total p self :
  Net.peers_total (Net._start_peer p self).2 <= Net.peers_total self + 1
  /\ Net.max_peers (Net._start_peer p self).2 = Net.max_peers self.
Proof.
  split.
  - unfold Net.peers_total.
    destruct (start_peer_frame p self) as (-> & _).
    rewrite start_peer_connecting. destruct (_ && _); [|lia].
    rewrite <- (assoc_L (∪)), size_union_alt, size_singleton.
    assert (size ((Net.connecting self ∪ dom (Net.peers self)) ∖ {[p]})
            <= size (Net.connecting self ∪ dom (Net.peers self)))%nat
      by (apply subseteq_size; set_solver).
    lia.
  - unfold Net._start_peer. destruct (_ && _); [|reflexivity]. cbn.
    destruct (Net.peers_queue self); reflexivity.
Qed.

Lemma queue_static_within_target now l :
  forall self,
    Net.peers_total (Net.queue_static now l self).2
    <= Z.max (Net.peers_total self) (Net.max_peers self)
    /\ Net.max_peers (Net.queue_static now l self).2 = Net.max_peers self.
Proof.
  induction l as [|q l IH]; intros self; [cbn; lia|].
  cbn [Net.queue_static].
  destruct (Z.geb_spec (Net.peers_total self) (Net.max_peers self)) as [Hfull | Hroom];
    [cbn; lia|].
  assert (Hgo : forall s,
            Net.peers_total s = Net.peers_total self ->
            Net.max_peers s = Net.max_peers self ->
            let r := (match Net._start_peer q s with
                      | (Ok _, s') => Net.queue_static now l s'
                      | (Raise e, s') => (Raise e, s')
                      end).2 in
            Net.peers_total r
            <= Z.max (Net.peers_total self) (Net.max_peers self)
            /\ Net.max_peers r = Net.max_peers self).
  { intros s Ht Hm. cbn zeta.
    destruct (start_peer_total q s) as [Ht' Hm'].
    destruct (Net._start_peer q s) as [[u|e] s']; cbn [snd] in *.
    - destruct (IH s') as [A B]. split; lia.
    - split; lia. }
  destruct (_ && _); [|destruct (IH self); split; lia].
  destruct (Net.disconnected_static self !! q) as [tq|];
    [|now apply Hgo].
  destruct (Qeq_bool tq 0); [now apply Hgo|].
  destruct (Qltb _ _); [destruct (IH self); split; lia|].
  now apply Hgo.
Qed.

Lemma queue_dynamic_within_target draws :
  forall self,
    Net.peers_total (Net.queue_dynamic draws self).2
    <= Z.max (Net.peers_total self) (Net.max_peers self)
    /\ Net.max_peers (Net.queue_dynamic draws self).2 = Net.max_peers self.
Proof.
  induction draws as [|k draws IH]; intros self; [cbn; lia|].
  cbn [Net.queue_dynamic].
  destruct (Z.ltb_spec (Net.peers_total self) (Net.max_peers self))
    as [Hroom | Hfull]; [|cbn; lia].
  destruct (Net.choice k (Net.available self)) as [q|];
    [|destruct (IH self); split; lia].
  destruct (start_peer_total q self) as [Ht' Hm'].
  destruct (Net._start_peer q self) as [[u|e] s']; cbn [snd] in *.
  - destruct (IH s') as [A B]. split; lia.
  - split; lia.
Qed.

(** X9. [queue_peers] never raises the number of live and connecting
    addresses above the target: afterwards the number is at most the
    larger of what it was before and [max_peers]; in particular a pool at
    or below the target stays at or below it.  The target itself is left
    unchanged. *)
Theorem queue_peers_within_target
    (now : Q) (draws : list nat) (self : Net.DashNet) :
  let self' := (Net.queue_peers now draws self).2 in
  Net.peers_total self'
  <= Z.max (Net.peers_total self) (Net.max_peers self)
  /\ (Net.peers_total self <= Net.max_peers self ->
      Net.peers_total self' <= Net.max_peers self)
  /\ Net.max_peers self' = Net.max_peers self.
Proof.
  cbn zeta.
  assert (H : Net.peers_total (Net.queue_peers now draws self).2
              <= Z.max (Net.peers_total self) (Net.max_peers self)
              /\ Net.max_peers (Net.queue_peers now draws self).2
                 = Net.max_peers self).
  { unfold Net.queue_peers.
    destruct (_ >=? _); [cbn; lia|].
    destruct (Net.use_static_peers self);
      [apply queue_static_within_target | apply queue_dynamic_within_target]. }
  destruct H as [A B]. split; [exact A|]. split; [lia | exact B].
Qed.

Lemma queue_peers_within_target_witness :
  let self := Net.dynamic_with_banned_found in
  let self' := (Net.queue_peers 1600000100 [0; 1; 2]%nat self).2 in
  Net.peers_total self <= Net.max_peers self
  /\ Net.peers_total self < Net.peers_total self'
  /\ Net.peers_total self' <= Net.max_peers self.
Proof.
  cbn zeta.
  assert (H : Net.peers_total Net.dynamic_with_banned_found
              <= Net.max_peers Net.dynamic_with_banned_found)
    by by_evaluation.
  split; [exact H|]. split; [by_evaluation|].
  exact (proj1 (proj2 (queue_peers_within_target 1600000100 [0; 1; 2]%nat
                         Net.dynamic_with_banned_found)) H).
Defined.

Lemma connection_down_pool dash_peer t self :
  Net.peers (Net.connection_down dash_peer t self)
  = Net.peers (Net._close_peer (Net.peer dash_peer) dash_peer self)
  /\ Net.connecting (Net.connection_down dash_peer t self)
     = Net.connecting self.
Proof.
  unfold Net.connection_down.
  destruct (close_peer_frame (Net.peer dash_peer) dash_peer self) as (Hc & _).
  destruct (_ && _); [|destruct (Net.truthy_str _)]; cbn; auto.
Qed.

(** X10. In every state the pool reaches from its construction, taking down
    the connection that the live-peer map holds for an address removes the
    address from the map, leaves the connecting set alone and lowers the
    number of live and connecting addresses by exactly one. *)
Theorem connection_down_frees_one_slot
    (testnet cmd : bool) (cfg : Net.SimpleConfig)
    (bans : gmap string Net.ban_record) (schedule : list Net.action)
    (dash_peer : Net.DashPeer) (t : Q) :
  let self := Net.run schedule (Net.new testnet cmd cfg bans) in
  let down := Net.connection_down dash_peer t self in
  Net.peers self !! Net.peer dash_peer = Some dash_peer ->
  (Net.peer dash_peer ∉ dom (Net.peers down))
  /\ Net.connecting down = Net.connecting self
  /\ Net.peers_total down = Net.peers_total self - 1.
Proof.
  cbn zeta. intros Hlive.
  pose proof (exclusive_run schedule _ (exclusive_new testnet cmd cfg bans))
    as Hex.
  set (self := Net.run schedule (Net.new testnet cmd cfg bans)) in *.
  destruct (connection_down_pool dash_peer t self) as [Hp Hc].
  assert (Hclosed : Net.peers (Net._close_peer (Net.peer dash_peer)
                                 dash_peer self)
                    = delete (Net.peer dash_peer) (Net.peers self)).
  { unfold Net._close_peer. now rewrite Hlive, Nat.eqb_refl. }
  assert (Hdom : Net.peer dash_peer ∈ dom (Net.peers self)).
  { apply elem_of_dom. eauto. }
  pose proof (Hex _ Hdom) as Hnc.
  unfold Net.peers_total. rewrite Hp, Hc, Hclosed, dom_delete_L.
  split; [set_solver|]. split; [reflexivity|].
  replace (Net.connecting self ∪ dom (Net.peers self) ∖ {[Net.peer dash_peer]})
    with ((Net.connecting self ∪ dom (Net.peers self))
            ∖ {[Net.peer dash_peer]}) by set_solver.
  rewrite size_difference by set_solver. rewrite size_singleton.
  assert (0 < size (Net.connecting self ∪ dom (Net.peers self)))%nat.
  { assert (size (Net.connecting self ∪ dom (Net.peers self)) <> 0)%nat;
      [|lia].
    apply size_non_empty_iff. set_solver. }
  lia.
Qed.

Lemma connection_down_frees_one_slot_witness :
  let self :=
    Net.run [ Net.Start; Net.StartPeer Net.addr_a; Net.LaunchQueued;
              Net.RunNewPeer Net.addr_a Net.conn_a true;
              Net.StartPeer Net.addr_b ]
            (Net.new false false Net.no_config ∅) in
  let down := Net.connection_down Net.conn_a 1600000000 self in
  Net.peers self !! Net.peer Net.conn_a = Some Net.conn_a
  /\ Net.peers_total self = 2
  /\ Net.peers_total down = 2 - 1.
Proof.
  cbn zeta.
  match goal with
  | |- ?P /\ ?Q /\ _ =>
      assert (H : P) by by_evaluation; assert (H2 : Q) by by_evaluation
  end.
  split; [exact H|]. split; [exact H2|].
  destruct (connection_down_frees_one_slot false false Net.no_config ∅ _
              Net.conn_a 1600000000 H) as (_ & _ & A).
  rewrite A, H2. reflexivity.
Defined.

(** ** Discovery *)

Lemma first_resolved_In resolve seeds ip :
  In ip (Net.first_resolved resolve seeds) ->
  exists seed, In seed seeds /\ In ip (resolve seed).
Proof.
  induction seeds as [|seed seeds IH]; cbn; [intros []|].
  destruct (resolve seed) as [|ip0 ips] eqn:E.
  - intros H. destruct (IH H) as (s & Hs & Hip). exists s. auto.
  - intros H. exists seed. rewrite E. auto.
Qed.

(** X12. [find_peers] never forgets a found address and changes neither
    the addresses of the live-peer map, the connecting set nor the ban
    list.  With two or more known candidates that are not banned it
    resolves nothing: the found addresses stay as they are.  Every address
    it adds is an address that one of the DNS seeds resolved to, followed
    by a colon and the default port. *)
Theorem find_peers_only_adds_resolved
    (resolve : string -> list string) (self : Net.DashNet) :
  let self' := Net.find_peers resolve self in
  Net.found_peers self ⊆ Net.found_peers self'
  /\ dom (Net.peers self') = dom (Net.peers self)
  /\ Net.connecting self' = Net.connecting self
  /\ Net.banlist self' = Net.banlist self
  /\ ((2 <= size (Net.find_peers_union self))%nat ->
      Net.found_peers self' = Net.found_peers self)
  /\ (forall a : string,
        a ∈ Net.found_peers self' ->
        a ∈ Net.found_peers self
        \/ exists seed ip : string,
             In seed (Net.dns_seeds self) /\ In ip (resolve seed)
             /\ a = ip +:+ ":" +:+ pretty (Net.default_port self)).
Proof.
  cbn zeta. unfold Net.find_peers.
  destruct (Z.ltb_spec (Z.of_nat (size (Net.find_peers_union self))) 2)
    as [Hfew | Hmany].
  - cbn. split; [set_solver|]. repeat (split; [reflexivity|]).
    split; [lia|].
    intros a Ha. apply elem_of_union in Ha as [Ha | Ha]; [now left|].
    right. apply elem_of_list_to_set, list_elem_of_In, in_map_iff in Ha.
    destruct Ha as (ip & <- & Hip).
    apply first_resolved_In in Hip as (seed & Hseed & Hip). eauto.
  - split; [set_solver|]. repeat (split; [reflexivity|]).
    intros a Ha. now left.
Qed.

Lemma find_peers_only_adds_resolved_witness :
  let self := Net.run [ Net.Start ] (Net.new false false Net.no_config ∅) in
  let resolve := fun _ : string => ["10.0.0.1"; "10.0.0.2"] in
  let self' := Net.find_peers resolve self in
  Net.found_peers self' = {[ Net.addr_a; Net.addr_b ]}
  /\ (2 <= size (Net.find_peers_union self'))%nat
  /\ Net.found_peers (Net.find_peers (fun _ => ["10.0.0.3"]) self')
     = Net.found_peers self'.
Proof.
  cbn zeta. split; [by_evaluation|].
  match goal with
  | |- ?P /\ _ => assert (H : P) by by_evaluation
  end.
  split; [exact H|].
  destruct (find_peers_only_adds_resolved (fun _ => ["10.0.0.3"])
              (Net.find_peers (fun _ : string => ["10.0.0.1"; "10.0.0.2"])
                 (Net.run [ Net.Start ]
                    (Net.new false false Net.no_config ∅))))
    as (_ & _ & _ & _ & A & _).
  exact (A H).
Defined.

(** ** Restarting *)

(** X13. For a started pool whose configuration keeps the network enabled,
    [stop] followed by [_start] succeeds exactly when the live-peer map is
    empty: then the pool is started again with an empty connecting set and
    an empty pending-connect queue; with a peer left in the map the
    assertion of [_start] fails. *)
Theorem restart_needs_empty_peers
    (o : Net.cancel_outcome) (self : Net.DashNet) :
  Net.main_taskgroup self <> None ->
  default true (Net.cfg_run_dash_net (Net.config self)) = true ->
  let restarted := Net._start (Net.stop o self) in
  (Net.peers self = ∅ ->
   restarted.1 = Ok tt
   /\ Net.peers_queue restarted.2 = Some []
   /\ Net.connecting restarted.2 = ∅
   /\ Net.disconnected_static restarted.2 = ∅
   /\ Net.main_taskgroup restarted.2 = Some Net.SilentTaskGroup)
  /\ (Net.peers self <> ∅ -> restarted.1 = Raise AssertionError).
Proof.
  intros Hstarted Hrun. cbn zeta. unfold Net.stop.
  destruct (Net.main_taskgroup self) as [g|]; [|congruence].
  unfold Net._start. cbn. rewrite Hrun. cbn.
  split.
  - intros ->. rewrite bool_decide_eq_true_2 by reflexivity. cbn.
    rewrite !bool_decide_eq_true_2 by reflexivity. cbn. auto.
  - intros Hlive. rewrite bool_decide_eq_false_2 by exact Hlive. reflexivity.
Qed.

Lemma restart_needs_empty_peers_witness :
  let self := Net.run [ Net.Start; Net.StartPeer Net.addr_b ]
                      (Net.new false false Net.no_config ∅) in
  Net.main_taskgroup self <> None
  /\ Net.connecting self = {[ Net.addr_b ]}
  /\ Net.peers self = ∅
  /\ (Net._start (Net.stop Net.TimeoutError self)).1 = Ok tt
  /\ (Net._start (Net.stop Net.TimeoutError Net.one_live_one_queued)).1
     = Raise AssertionError.
Proof.
  cbn zeta.
  match goal with
  | |- ?P /\ ?Q /\ ?R /\ _ =>
      assert (H1 : P) by by_evaluation; assert (H2 : Q) by by_evaluation;
      assert (H3 : R) by by_evaluation
  end.
  split; [exact H1|]. split; [exact H2|]. split; [exact H3|]. split.
  - refine (proj1 (proj1 (restart_needs_empty_peers Net.TimeoutError _ H1 _)
                     H3)).
    by_evaluation.
  - refine (proj2 (restart_needs_empty_peers Net.TimeoutError
                     Net.one_live_one_queued _ _) _); by_evaluation.
Defined.

(** ** Reading the configuration *)

Lemma has_colon_with_port (p port : string) :
  Net.has_colon (p +:+ ":" +:+ port) = true.
Proof.
  unfold Net.has_colon. rewrite list_ascii_of_string_app, existsb_app.
  cbn. apply orb_true_r.
Qed.

(** X14. After [read_conf], in static mode there is one static peer per
    configured peer, in the same order, and each of them carries a port:
    a configured peer with a colon is taken as it is, one without gets the
    default port.  In dynamic mode the list of static peers is empty.
    Peers given on the command line force static mode. *)
Theorem read_conf_static_peers (self : Net.DashNet) :
  let self' := Net.read_conf self in
  (Net.use_static_peers self' = true ->
   length (Net.static_peers self') = length (Net.dash_peers self')
   /\ Forall (fun p => Net.has_colon p = true) (Net.static_peers self')
   /\ forall (i : nat) (p : string),
        Net.dash_peers self' !! i = Some p ->
        Net.static_peers self' !! i
        = Some (if Net.has_colon p then p
                else p +:+ ":" +:+ pretty (Net.default_port self)))
  /\ (Net.use_static_peers self' = false -> Net.static_peers self' = [])
  /\ (Net.is_cmd_dash_peers self = true -> Net.use_static_peers self' = true).
Proof.
  cbn zeta. unfold Net.read_conf. cbn.
  split; [|split].
  - intros ->. rewrite length_map. split; [reflexivity|]. split.
    + apply List.Forall_forall. intros p Hp. apply in_map_iff in Hp.
      destruct Hp as (q & <- & _). destruct (Net.has_colon q) eqn:E;
        [exact E | apply has_colon_with_port].
    + intros i p Hi. rewrite list_lookup_fmap_Some_2 with (x := p);
        [reflexivity | exact Hi].
  - intros ->. reflexivity.
  - intros ->. reflexivity.
Qed.

Lemma read_conf_static_peers_witness :
  let self := Net.new true false
                (Net.static_config ["10.0.0.1"; "10.0.0.2:9999"]) ∅ in
  Net.use_static_peers (Net.read_conf self) = true
  /\ Net.static_peers (Net.read_conf self)
     = ["10.0.0.1:19999"; "10.0.0.2:9999"]
  /\ Forall (fun p => Net.has_colon p = true)
       (Net.static_peers (Net.read_conf self)).
Proof.
  cbn zeta.
  match goal with
  | |- ?P /\ _ => assert (H : P) by by_evaluation
  end.
  split; [exact H|]. split; [by_evaluation|].
  exact (proj1 (proj2 (proj1 (read_conf_static_peers _) H))).
Defined.

(** ** The status icon *)

(** X15. With the network enabled the status icon shows one more bar for
    every two live peers: no bar for no peer, one bar for one or two
    peers, two for three or four, three for five or six, and all four from
    seven peers on.  With the network disabled it is the "off" icon
    whatever the number of peers. *)
Theorem status_icon_levels (self : Net.DashNet) :
  let n := size (Net.peers self) in
  (Net.run_dash_net self = false -> Net.status_icon self = "dash_net_off.png")
  /\ (Net.run_dash_net self = true ->
      (n = 0%nat -> Net.status_icon self = "dash_net_0.png")
      /\ ((1 <= n <= 2)%nat -> Net.status_icon self = "dash_net_1.png")
      /\ ((3 <= n <= 4)%nat -> Net.status_icon self = "dash_net_2.png")
      /\ ((5 <= n <= 6)%nat -> Net.status_icon self = "dash_net_3.png")
      /\ ((7 <= n)%nat -> Net.status_icon self = "dash_net_4.png")).
Proof.
  cbn zeta. unfold Net.status_icon, MAX_PEERS_LIMIT.
  split; [intros ->; reflexivity|]. intros ->.
  set (n := size (Net.peers self)).
  assert (Hdiv : forall k, 0 <= k -> k * 100 / 8 = (k * 25) / 2).
  { intros k Hk. replace (k * 100) with ((k * 25) * 4) by lia.
    replace 8 with (2 * 4) by lia. apply Z.div_mul_cancel_r; lia. }
  rewrite Hdiv by lia.
  repeat split; intros Hn;
    repeat match goal with
           | |- context [?a =? ?b] => destruct (Z.eqb_spec a b)
           | |- context [?a <=? ?b] => destruct (Z.leb_spec a b)
           end; try reflexivity; exfalso;
    pose proof (Z.div_mod (Z.of_nat n * 25) 2 ltac:(lia));
    pose proof (Z.mod_pos_bound (Z.of_nat n * 25) 2 ltac:(lia)); lia.
Qed.

Lemma status_icon_levels_witness :
  Net.run_dash_net Net.one_live_one_queued = true
  /\ (1 <= size (Net.peers Net.one_live_one_queued) <= 2)%nat
  /\ Net.status_icon Net.one_live_one_queued = "dash_net_1.png".
Proof.
  assert (H1 : Net.run_dash_net Net.one_live_one_queued = true)
    by by_evaluation.
  assert (H2 : (1 <= size (Net.peers Net.one_live_one_queued) <= 2)%nat)
    by by_evaluation.
  split; [exact H1|]. split; [exact H2|].
  exact (proj1 (proj2 (proj2 (status_icon_levels Net.one_live_one_queued) H1))
           H2).
Defined.

(** ** Recording and verifying instant-send locks *)

Lemma append_keeps_new (x : IsLocks.islock_rec) now self :
  (Float64.sub now (IsLocks.il_time x) < 900)%Q ->
  In x (IsLocks.recent_islocks
          (IsLocks.append_to_recent_islocks x now self)).
Proof.
  intros Hyoung. unfold IsLocks.append_to_recent_islocks,
    IsLocks.clear_recent_islocks, IsLocks.keep_sec_default.
  cbn [IsLocks.recent_islocks IsLocks.recent_islocks_clear].
  destruct (Qltb _ (Float64.div 900 15)); cbn [IsLocks.recent_islocks].
  - apply in_or_app. right. now left.
  - apply filter_In. split; [apply in_or_app; right; now left|].
    now apply Qltb_lt.
Qed.

Lemma verify_found_true verify found :
  IsLocks.verify_found verify found = true <->
  exists x, In x found
            /\ verify (IsLocks.il_islock x) (IsLocks.il_quorum x)
                      (IsLocks.il_request_id x) = true.
Proof.
  induction found as [|y found IH]; cbn.
  - split; [discriminate | intros (x & [] & _)].
  - destruct (verify _ _ _) eqn:E.
    + split; [|reflexivity]. intros _. exists y. auto.
    + rewrite IH. split.
      * intros (x & Hx & Hv). exists x. auto.
      * intros (x & [<- | Hx] & Hv); [congruence|]. exists x. auto.
Qed.

(** X16. An instant-send lock for which a quorum was found is in the list
    of recent locks when [append_to_recent_islocks] returns, whether the
    prune pass that follows the append scans or not, when the two clock
    readings of the call are binary64 numbers, the first at least 512, and
    the clock has moved less than 900 seconds between them; without a
    quorum nothing is stored and nothing is pruned. *)
Theorem append_islock_stores
    (txid islock request_id : string) (quorum : option string)
    (t now : Q) (self : IsLocks.state) :
  Float64.is_float t -> Float64.is_float now ->
  (512 <= t)%Q ->
  (now - t < 900)%Q ->
  (forall q, quorum = Some q ->
     In {| IsLocks.il_txid := txid; IsLocks.il_time := t;
           IsLocks.il_islock := islock; IsLocks.il_quorum := q;
           IsLocks.il_request_id := request_id |}
        (IsLocks.recent_islocks
           (IsLocks.append_islock txid islock request_id quorum t now self)))
  /\ (quorum = None ->
      IsLocks.append_islock txid islock request_id quorum t now self = self).
Proof.
  intros Hft Hfnow Hlate Hclock. split.
  - intros q ->. cbn [IsLocks.append_islock]. apply append_keeps_new.
    now apply sub_900_young.
  - intros ->. reflexivity.
Qed.

Lemma append_islock_stores_witness :
  let self := {| IsLocks.recent_islocks_clear := 1600000000;
                 IsLocks.recent_islocks := [] |} in
  Float64.is_float 1600000100
  /\ (512 <= 1600000100)%Q
  /\ (1600000100 - 1600000100 < 900)%Q
  /\ IsLocks.scans 900 1600000100 self = true
  /\ IsLocks.recent_islocks
       (IsLocks.append_islock "aa" "sig" "id" (Some "quorum")
          1600000100 1600000100 self)
     <> [].
Proof.
  intros self.
  assert (Hf : Float64.is_float 1600000100) by (vm_compute; reflexivity).
  assert (Hlate : (512 <= 1600000100)%Q) by (vm_compute; discriminate).
  split; [exact Hf|]. split; [exact Hlate|]. split; [reflexivity|].
  split; [vm_compute; reflexivity|].
  intros E.
  pose proof (proj1 (append_islock_stores "aa" "sig" "id" (Some "quorum")
                       1600000100 1600000100 self Hf Hf Hlate eq_refl)
                "quorum" eq_refl) as H.
  rewrite E in H. exact H.
Defined.

(** X17. [verify_on_recent_islocks] answers [True] exactly when one of the
    stored records of that transaction passes the signature check; it
    answers [False] for a transaction without stored records.  A lock that
    was just appended with a quorum and passes the check makes it answer
    [True], when the two clock readings of the append are binary64 numbers,
    the first at least 512, and less than 900 seconds apart (otherwise the
    prune pass of the same call may drop the lock). *)
Theorem verify_on_recent_islocks_spec
    (verify : string -> string -> string -> bool)
    (txid : string) (self : IsLocks.state) :
  (IsLocks.verify_on_recent_islocks verify txid self = true <->
   exists x, In x (IsLocks.recent_islocks self)
             /\ IsLocks.il_txid x = txid
             /\ verify (IsLocks.il_islock x) (IsLocks.il_quorum x)
                       (IsLocks.il_request_id x) = true)
  /\ ((forall x, In x (IsLocks.recent_islocks self) ->
                 IsLocks.il_txid x <> txid) ->
      IsLocks.verify_on_recent_islocks verify txid self = false)
  /\ (forall (islock request_id q : string) (t now : Q),
        Float64.is_float t -> Float64.is_float now ->
        (512 <= t)%Q ->
        (now - t < 900)%Q ->
        verify islock q request_id = true ->
        IsLocks.verify_on_recent_islocks verify txid
          (IsLocks.append_islock txid islock request_id (Some q) t now self)
        = true).
Proof.
  assert (Hiff : forall st,
            IsLocks.verify_on_recent_islocks verify txid st = true <->
            exists x, In x (IsLocks.recent_islocks st)
                      /\ IsLocks.il_txid x = txid
                      /\ verify (IsLocks.il_islock x) (IsLocks.il_quorum x)
                                (IsLocks.il_request_id x) = true).
  { intros st. unfold IsLocks.verify_on_recent_islocks.
    rewrite verify_found_true. split.
    - intros (x & Hx & Hv). apply filter_In in Hx as [Hx Ht].
      apply String.eqb_eq in Ht. exists x. auto.
    - intros (x & Hx & Ht & Hv). exists x. split; [|exact Hv].
      apply filter_In. split; [exact Hx|]. now apply String.eqb_eq. }
  split; [apply Hiff|]. split.
  - intros Hnone.
    destruct (IsLocks.verify_on_recent_islocks verify txid self) eqn:E;
      [|reflexivity].
    apply Hiff in E as (x & Hx & Ht & _). exfalso. exact (Hnone x Hx Ht).
  - intros islock request_id q t now Hft Hfnow Hlate Hclock Hv. apply Hiff.
    eexists. split.
    + apply (append_keeps_new _ now self). cbn [IsLocks.il_time].
      now apply sub_900_young.
    + cbn. auto.
Qed.

Lemma verify_on_recent_islocks_spec_witness :
  let verify := fun islock _ _ : string => String.eqb islock "good" in
  let self := {| IsLocks.recent_islocks_clear := 1600000000;
                 IsLocks.recent_islocks := [] |} in
  IsLocks.verify_on_recent_islocks verify "aa" self = false
  /\ Float64.is_float 1600000100
  /\ (512 <= 1600000100)%Q
  /\ IsLocks.verify_on_recent_islocks verify "aa"
       (IsLocks.append_islock "aa" "good" "id" (Some "q")
          1600000100 1600000100 self)
     = true.
Proof.
  intros verify self.
  assert (Hf : Float64.is_float 1600000100) by (vm_compute; reflexivity).
  assert (Hlate : (512 <= 1600000100)%Q) by (vm_compute; discriminate).
  destruct (verify_on_recent_islocks_spec verify "aa" self) as (_ & A & B).
  split; [|split; [exact Hf | split; [exact Hlate|]]].
  - apply A. intros x [].
  - apply (B "good" "id" "q" 1600000100%Q 1600000100%Q Hf Hf Hlate);
      reflexivity.
Defined.

(** ** Supplying and bounding the mixing-queue caches *)

Lemma deque_append_length {A} (maxlen : nat) (x : A) (d : list A) :
  (length (Dsq.deque_append maxlen x d) <= maxlen)%nat.
Proof. unfold Dsq.deque_append. rewrite length_drop. lia. Qed.

Lemma deque_appendleft_length {A} (maxlen : nat) (x : A) (d : list A) :
  (length (Dsq.deque_appendleft maxlen x d) <= maxlen)%nat.
Proof. unfold Dsq.deque_appendleft. rewrite length_take. lia. Qed.

Lemma deque_append_NoDup {A} (maxlen : nat) (x : A) (d : list A) :
  NoDup d -> ~ In x d -> NoDup (Dsq.deque_append maxlen x d).
Proof.
  intros Hd Hx. unfold Dsq.deque_append.
  apply (sublist_NoDup _ (d ++ [x])); [|apply sublist_drop].
  apply NoDup_app. split; [exact Hd|]. split.
  - intros y Hy Hy'. apply list_elem_of_In in Hy.
    apply list_elem_of_In in Hy'. destruct Hy' as [<- | []]. contradiction.
  - apply NoDup_singleton.
Qed.

Lemma get_recent_dsq_loop_spec timeout mn_peer now mixes (d : list Dsq.dsq_msg) :
  let '(r, rest) := Dsq.get_recent_dsq_loop timeout mn_peer now mixes d in
  exists skipped,
    d = skipped ++ match r with Some dsq => dsq :: rest | None => [] end
    /\ Forall (fun dsq =>
                 Dsq.is_suitable_dsq timeout mn_peer now dsq mixes = false)
              skipped
    /\ match r with
       | Some dsq => Dsq.is_suitable_dsq timeout mn_peer now dsq mixes = true
       | None => rest = []
       end.
Proof.
  induction d as [|dsq d IH]; cbn.
  - exists []. repeat split. constructor.
  - destruct (Dsq.is_suitable_dsq timeout mn_peer now dsq mixes) eqn:E.
    + exists []. repeat split; [constructor | exact E].
    + destruct (Dsq.get_recent_dsq_loop timeout mn_peer now mixes d)
        as [r rest].
      destruct IH as (skipped & -> & Hsk & Hr).
      exists (dsq :: skipped). repeat split; [|exact Hr].
      constructor; assumption.
Qed.

Lemma dsq_rings_ok_add PSDenoms dsq s :
  Dsq.rings_ok s -> Dsq.rings_ok (Dsq.add_recent_dsq PSDenoms dsq s).
Proof.
  intros (Hr & Hh & Hn). unfold Dsq.add_recent_dsq.
  destruct (negb _); [repeat split; assumption|].
  destruct (existsb _ _) eqn:E; [repeat split; assumption|].
  repeat split; cbn [Dsq.recent_dsq Dsq.recent_dsq_hashes].
  - apply deque_appendleft_length.
  - apply deque_append_length.
  - apply deque_append_NoDup; [exact Hn|].
    intros Hin. apply existsb_eqb_In in Hin. congruence.
Qed.

Lemma dsq_rings_ok_get timeout mn_peer now mixes s :
  Dsq.rings_ok s ->
  Dsq.rings_ok (Dsq.get_recent_dsq timeout mn_peer now mixes s).2.
Proof.
  intros (Hr & Hh & Hn). unfold Dsq.get_recent_dsq.
  pose proof (get_recent_dsq_loop_spec timeout mn_peer now mixes
                (Dsq.recent_dsq s)) as H.
  destruct (Dsq.get_recent_dsq_loop timeout mn_peer now mixes
              (Dsq.recent_dsq s)) as [r rest].
  destruct H as (skipped & Hd & _ & Hrest).
  repeat split; cbn; try assumption.
  rewrite Hd, length_app in Hr. destruct r; cbn in Hr; [lia|].
  subst rest. cbn. lia.
Qed.

(** X18. Whatever announcements are ingested and whatever is handed out
    for mixing, in any order, the record ring never holds more than 100
    records, the fingerprint ring never holds more than 50 fingerprints,
    and no fingerprint is stored twice. *)
Theorem dsq_rings_bounded
    (PRIVATESEND_QUEUE_TIMEOUT : Z) (mn_peer : string -> option string)
    (PSDenoms : list Z) (ops : list Dsq.op) :
  let s := Dsq.apply_ops PRIVATESEND_QUEUE_TIMEOUT mn_peer PSDenoms ops
             Dsq.init in
  (length (Dsq.recent_dsq s) <= 100)%nat
  /\ (length (Dsq.recent_dsq_hashes s) <= 50)%nat
  /\ NoDup (Dsq.recent_dsq_hashes s).
Proof.
  cbn zeta. change (Dsq.rings_ok
    (Dsq.apply_ops PRIVATESEND_QUEUE_TIMEOUT mn_peer PSDenoms ops Dsq.init)).
  assert (H0 : Dsq.rings_ok Dsq.init).
  { repeat split; cbn; [lia | lia | constructor]. }
  revert H0. generalize Dsq.init. unfold Dsq.apply_ops.
  induction ops as [|o ops IH]; intros s Hs; [exact Hs|].
  cbn [fold_left]. apply IH. destruct o; cbn [Dsq.apply_op].
  - now apply dsq_rings_ok_add.
  - now apply dsq_rings_ok_get.
Qed.

(** X19. [get_recent_dsq] hands out the newest record that is suitable and
    drops it together with every record in front of it, each of which is
    unsuitable; when no record is suitable it hands out nothing and leaves
    the record ring empty.  The fingerprint ring is not touched. *)
Theorem get_recent_dsq_newest_suitable
    (PRIVATESEND_QUEUE_TIMEOUT : Z) (mn_peer : string -> option string)
    (now : Q) (recent_mixes_mns : list string) (self : Dsq.state) :
  let suitable dsq :=
    Dsq.is_suitable_dsq PRIVATESEND_QUEUE_TIMEOUT mn_peer now dsq
      recent_mixes_mns in
  let r := Dsq.get_recent_dsq PRIVATESEND_QUEUE_TIMEOUT mn_peer now
             recent_mixes_mns self in
  Dsq.recent_dsq_hashes r.2 = Dsq.recent_dsq_hashes self
  /\ (forall dsq, r.1 = Some dsq ->
        suitable dsq = true
        /\ exists skipped,
             Dsq.recent_dsq self = skipped ++ dsq :: Dsq.recent_dsq r.2
             /\ Forall (fun d => suitable d = false) skipped)
  /\ (r.1 = None ->
      Dsq.recent_dsq r.2 = []
      /\ Forall (fun d => suitable d = false) (Dsq.recent_dsq self)).
Proof.
  cbn zeta. unfold Dsq.get_recent_dsq.
  pose proof (get_recent_dsq_loop_spec PRIVATESEND_QUEUE_TIMEOUT mn_peer now
                recent_mixes_mns (Dsq.recent_dsq self)) as H.
  destruct (Dsq.get_recent_dsq_loop PRIVATESEND_QUEUE_TIMEOUT mn_peer now
              recent_mixes_mns (Dsq.recent_dsq self)) as [r rest].
  destruct H as (skipped & Hd & Hsk & Hr). cbn.
  split; [reflexivity|]. split.
  - intros dsq ->. split; [exact Hr|]. exists skipped. auto.
  - intros ->. split; [exact Hr|]. now rewrite Hd, app_nil_r.
Qed.

Lemma get_recent_dsq_newest_suitable_witness :
  let old := {| Dsq.nDenom := 2; Dsq.masternodeOutPoint := "ab12:1";
                Dsq.nTime := 1000; Dsq.fReady := false; Dsq.vchSig := "" |} in
  let new := {| Dsq.nDenom := 2; Dsq.masternodeOutPoint := "cd34:0";
                Dsq.nTime := 1000; Dsq.fReady := false; Dsq.vchSig := "" |} in
  let mn_peer := fun o : string =>
                   if String.eqb o "ab12:1" then Some "10.0.0.1:9999"
                   else None in
  let self := {| Dsq.recent_dsq := [new; old];
                 Dsq.recent_dsq_hashes := [] |} in
  let r := Dsq.get_recent_dsq 30 mn_peer 1010 [] self in
  r.1 = Some old
  /\ Dsq.is_suitable_dsq 30 mn_peer 1010 old [] = true
  /\ Dsq.recent_dsq r.2 = [].
Proof.
  cbn zeta.
  match goal with
  | |- ?P /\ _ => assert (H : P) by reflexivity
  end.
  split; [exact H|]. split; [|reflexivity].
  exact (proj1 (proj1 (proj2 (get_recent_dsq_newest_suitable _ _ _ _ _))
                  _ H)).
Defined.

(** X20. An announcement of a known denomination whose fingerprint is new
    and which is suitable for mixing is the one that the next
    [get_recent_dsq] hands out; the records behind it stay in the ring
    (the oldest one is gone when the ring was full).  Once handed out it
    is still suppressed as a duplicate: ingesting it again changes
    nothing. *)
Theorem add_then_get_recent_dsq
    (PRIVATESEND_QUEUE_TIMEOUT : Z) (mn_peer : string -> option string)
    (PSDenoms : list Z) (now : Q) (recent_mixes_mns : list string)
    (dsq : Dsq.dsq_msg) (self : Dsq.state) :
  In (Dsq.nDenom dsq) PSDenoms ->
  ~ In (Dsq.dsq_hash dsq) (Dsq.recent_dsq_hashes self) ->
  Dsq.is_suitable_dsq PRIVATESEND_QUEUE_TIMEOUT mn_peer now dsq
    recent_mixes_mns = true ->
  let r := Dsq.get_recent_dsq PRIVATESEND_QUEUE_TIMEOUT mn_peer now
             recent_mixes_mns (Dsq.add_recent_dsq PSDenoms dsq self) in
  r.1 = Some dsq
  /\ Dsq.recent_dsq r.2 = take 99 (Dsq.recent_dsq self)
  /\ Dsq.add_recent_dsq PSDenoms dsq r.2 = r.2.
Proof.
  intros Hden Hnew Hsuit. cbn zeta.
  assert (Hknown : negb (existsb (Z.eqb (Dsq.nDenom dsq)) PSDenoms) = false).
  { apply negb_false_iff, existsb_exists. exists (Dsq.nDenom dsq).
    split; [exact Hden | apply Z.eqb_refl]. }
  assert (Hfresh : existsb (String.eqb (Dsq.dsq_hash dsq))
                     (Dsq.recent_dsq_hashes self) = false).
  { destruct (existsb (String.eqb (Dsq.dsq_hash dsq))
                (Dsq.recent_dsq_hashes self)) eqn:E; [|reflexivity].
    apply existsb_eqb_In in E. contradiction. }
  assert (Hadd : Dsq.add_recent_dsq PSDenoms dsq self
                 = {| Dsq.recent_dsq :=
                        Dsq.deque_appendleft 100 dsq (Dsq.recent_dsq self);
                      Dsq.recent_dsq_hashes :=
                        Dsq.deque_append 50 (Dsq.dsq_hash dsq)
                          (Dsq.recent_dsq_hashes self) |}).
  { unfold Dsq.add_recent_dsq. now rewrite Hknown, Hfresh. }
  rewrite Hadd.
  unfold Dsq.get_recent_dsq. cbn [Dsq.recent_dsq Dsq.recent_dsq_hashes].
  unfold Dsq.deque_appendleft. cbn [take Dsq.get_recent_dsq_loop].
  rewrite Hsuit. cbn [fst snd].
  split; [reflexivity|]. split; [reflexivity|].
  unfold Dsq.add_recent_dsq. rewrite Hknown.
  cbn [Dsq.recent_dsq_hashes].
  assert (Hseen : existsb (String.eqb (Dsq.dsq_hash dsq))
                    (Dsq.deque_append 50 (Dsq.dsq_hash dsq)
                       (Dsq.recent_dsq_hashes self)) = true).
  { apply existsb_eqb_In, deque_append_newest. lia. }
  now rewrite Hseen.
Qed.

Lemma add_then_get_recent_dsq_witness :
  let older := {| Dsq.nDenom := 2; Dsq.masternodeOutPoint := "ab12:1";
                  Dsq.nTime := 1000; Dsq.fReady := false;
                  Dsq.vchSig := "" |} in
  let newer := {| Dsq.nDenom := 4; Dsq.masternodeOutPoint := "ab12:1";
                  Dsq.nTime := 1005; Dsq.fReady := false;
                  Dsq.vchSig := "" |} in
  let mn_peer := fun _ : string => Some "10.0.0.1:9999" in
  let self := Dsq.add_recent_dsq [1; 2; 4; 8; 16] older Dsq.init in
  let r := Dsq.get_recent_dsq 30 mn_peer 1010 []
             (Dsq.add_recent_dsq [1; 2; 4; 8; 16] newer self) in
  In (Dsq.nDenom newer) [1; 2; 4; 8; 16]
  /\ ~ In (Dsq.dsq_hash newer) (Dsq.recent_dsq_hashes self)
  /\ r.1 = Some newer
  /\ Dsq.recent_dsq r.2 = [older].
Proof.
  cbn zeta.
  match goal with
  | |- ?P /\ ?Q /\ _ =>
      assert (H1 : P) by (right; right; left; reflexivity);
      assert (H2 : Q) by (vm_compute; intros [H | []]; discriminate)
  end.
  split; [exact H1|]. split; [exact H2|].
  destruct (add_then_get_recent_dsq 30 (fun _ : string => Some "10.0.0.1:9999")
              [1; 2; 4; 8; 16] 1010 [] _ _ H1 H2 eq_refl) as (A & B & _).
  split; [exact A|]. rewrite B. reflexivity.
Defined.

(** ** The export of the spork table *)

Lemma map_fold_insert_lookup {A B} (f : Z -> A -> B)
    (r0 : gmap Z B) (m : gmap Z A) (i : Z) :
  map_fold (fun k v r => <[k := f k v]> r) r0 m !! i
  = match m !! i with
    | Some v => Some (f i v)
    | None => r0 !! i
    end.
Proof.
  revert i.
  apply (map_fold_weak_ind
           (fun r m => forall i, r !! i = match m !! i with
                                         | Some v => Some (f i v)
                                         | None => r0 !! i
                                         end)).
  - intros i. now rewrite lookup_empty.
  - intros k x m' r Hk IH i. destruct (decide (k = i)) as [-> | Hne].
    + now rewrite !lookup_insert_eq.
    + rewrite !lookup_insert_ne by exact Hne. apply IH.
Qed.

(** X21. For every id that [SporkID] knows, the dict that [as_dict]
    returns agrees with the three queries: it has an entry for the id
    exactly when [get_spork_value] returns a value, and the entry carries
    that value, the answer of [is_spork_default] and the answer of
    [is_spork_active] at the same time; a gathered value hides the
    default. *)
Theorem as_dict_agrees_with_queries
    (SporkID_value : Sporks.SporkName -> Z) (has_value : Z -> bool)
    (SporkID_name : Z -> string) (now : Q) (self : Sporks.DashSporks)
    (spork_id : Z) :
  has_value spork_id = true ->
  exists (value : option Z) (dflt active : bool),
    Sporks.get_spork_value SporkID_value has_value spork_id self = Ok value
    /\ Sporks.is_spork_default SporkID_value has_value spork_id self
       = Ok dflt
    /\ Sporks.is_spork_active SporkID_value has_value spork_id now self
       = Ok active
    /\ Sporks.as_dict SporkID_value has_value SporkID_name now self
         !! spork_id
       = match value with
         | Some v =>
             Some {| Sporks.entry_name := SporkID_name spork_id;
                     Sporks.entry_value := v;
                     Sporks.entry_default := dflt;
                     Sporks.entry_active := active |}
         | None => None
         end.
Proof.
  intros Hk.
  unfold Sporks.as_dict, Sporks.get_spork_value, Sporks.is_spork_default,
    Sporks.is_spork_active.
  rewrite !map_fold_insert_lookup, lookup_empty, Hk. cbn [negb].
  destruct (Sporks.gathered_sporks self !! spork_id);
    [|destruct (Sporks.SPORKS_DEFAULTS SporkID_value !! spork_id)];
    eexists _, _, _; repeat split; reflexivity.
Qed.

Lemma as_dict_agrees_with_queries_witness :
  let self := (Sporks.set_spork Sporks.dash_has_value 10005 0
                 "10.0.0.1:9999" Sporks.init).2 in
  Sporks.dash_has_value 10005 = true
  /\ Sporks.get_spork_value Sporks.dash_SporkID_value Sporks.dash_has_value
       10005 self = Ok (Some 0)
  /\ exists e,
       Sporks.as_dict Sporks.dash_SporkID_value Sporks.dash_has_value
         (fun _ => "SPORK_6_NEW_SIGS") 1600000000 self !! 10005 = Some e
       /\ Sporks.entry_value e = 0.
Proof.
  cbn zeta. split; [reflexivity|].
  destruct (as_dict_agrees_with_queries Sporks.dash_SporkID_value
              Sporks.dash_has_value (fun _ => "SPORK_6_NEW_SIGS") 1600000000
              (Sporks.set_spork Sporks.dash_has_value 10005 0
                 "10.0.0.1:9999" Sporks.init).2 10005 eq_refl)
    as (value & dflt & active & Hv & _ & _ & Hd).
  assert (E : Sporks.get_spork_value Sporks.dash_SporkID_value
                Sporks.dash_has_value 10005
                (Sporks.set_spork Sporks.dash_has_value 10005 0
                   "10.0.0.1:9999" Sporks.init).2 = Ok (Some 0))
    by (vm_compute; reflexivity).
  split; [exact E|].
  rewrite E in Hv. injection Hv as <-.
  eexists. split; [exact Hd | reflexivity].
Defined.

(** X22. After [set_spork] for an id that [SporkID] knows, the public
    queries see the reported value: [get_spork_value] returns it,
    [is_spork_default] answers [False] and [is_spork_active] compares the
    reported value with the clock, whatever the default was; the answers
    for every other id are as before.  [set_spork] for an id that
    [SporkID] does not know raises [AttributeError] and leaves the
    gathered values and the contributors as they were. *)
Theorem set_spork_then_query
    (SporkID_value : Sporks.SporkName -> Z) (has_value : Z -> bool)
    (spork_id value : Z) (p : string) (now : Q) (self : Sporks.DashSporks) :
  let r := Sporks.set_spork has_value spork_id value p self in
  (has_value spork_id = true ->
   r.1 = Ok tt
   /\ Sporks.get_spork_value SporkID_value has_value spork_id r.2
      = Ok (Some value)
   /\ Sporks.is_spork_default SporkID_value has_value spork_id r.2
      = Ok false
   /\ Sporks.is_spork_active SporkID_value has_value spork_id now r.2
      = Ok (Qltb (inject_Z value) now)
   /\ forall other : Z,
        other <> spork_id ->
        Sporks.get_spork_value SporkID_value has_value other r.2
        = Sporks.get_spork_value SporkID_value has_value other self
        /\ Sporks.is_spork_default SporkID_value has_value other r.2
           = Sporks.is_spork_default SporkID_value has_value other self
        /\ Sporks.is_spork_active SporkID_value has_value other now r.2
           = Sporks.is_spork_active SporkID_value has_value other now self)
  /\ (has_value spork_id = false ->
      r = (Raise AttributeError, self)).
Proof.
  cbn zeta. split.
  - intros Hk. rewrite (set_spork_known _ _ _ _ _ Hk). cbn [fst snd].
    unfold Sporks.get_spork_value, Sporks.is_spork_default,
      Sporks.is_spork_active. cbn [Sporks.gathered_sporks].
    rewrite Hk, lookup_insert_eq. cbn [negb].
    repeat (split; [reflexivity|]).
    intros other Hne. rewrite lookup_insert_ne by congruence. auto.
  - apply set_spork_unknown.
Qed.

Lemma set_spork_then_query_witness :
  let r := Sporks.set_spork Sporks.dash_has_value 10005 0 "10.0.0.1:9999"
             Sporks.init in
  Sporks.dash_has_value 10005 = true
  /\ Sporks.is_spork_active Sporks.dash_SporkID_value Sporks.dash_has_value
       10005 1600000000 Sporks.init = Ok false
  /\ Sporks.is_spork_active Sporks.dash_SporkID_value Sporks.dash_has_value
       10005 1600000000 r.2 = Ok true
  /\ Sporks.dash_has_value 7 = false
  /\ Sporks.set_spork Sporks.dash_has_value 7 0 "10.0.0.1:9999" Sporks.init
     = (Raise AttributeError, Sporks.init).
Proof.
  cbn zeta.
  destruct (set_spork_then_query Sporks.dash_SporkID_value
              Sporks.dash_has_value 10005 0 "10.0.0.1:9999" 1600000000
              Sporks.init) as [A _].
  destruct (set_spork_then_query Sporks.dash_SporkID_value
              Sporks.dash_has_value 7 0 "10.0.0.1:9999" 1600000000
              Sporks.init) as [_ B].
  split; [reflexivity|]. split; [reflexivity|]. split.
  - destruct (A eq_refl) as (_ & _ & _ & E & _). exact E.
  - split; [reflexivity|]. apply B. reflexivity.
Defined.

(** ** The turns of the gather loop *)

Lemma round_half_even_bounds (x : Q) :
  (inject_Z (Float64.round_half_even x) <= x + (1 # 2))%Q
  /\ (x - (1 # 2) <= inject_Z (Float64.round_half_even x))%Q.
Proof.
  unfold Float64.round_half_even.
  pose proof (Qfloor_le x) as Hlo. pose proof (Qlt_floor x) as Hhi.
  rewrite inject_Z_plus in Hhi. change (inject_Z 1) with 1%Q in Hhi.
  destruct (x - inject_Z (Qfloor x) ?= 1 # 2)%Q eqn:E.
  - apply Qeq_alt in E.
    destruct (Z.even (Qfloor x)); rewrite ?inject_Z_plus;
      change (inject_Z 1) with 1%Q; split; lra.
  - apply Qlt_alt in E. split; lra.
  - apply Qgt_alt in E. rewrite inject_Z_plus.
    change (inject_Z 1) with 1%Q. split; lra.
Qed.

Lemma gather_cnt_between (n : Z) :
  1 <= n <= 4096 -> 1 <= Gather.gather_cnt n <= n.
Proof.
  intros Hn. destruct (Z.le_gt_cases n 2) as [Hsmall | Hbig].
  - unfold Gather.gather_cnt. destruct (Z.leb_spec n 2); lia.
  - rewrite (nearest_from_spec _ 3 nearest_upto_4096) by lia.
    destruct (round_half_even_bounds ((51 # 100) * inject_Z n)) as [Hup Hdown].
    assert (H3 : (inject_Z 3 <= inject_Z n)%Q) by (rewrite <- Zle_Qle; lia).
    split; rewrite Zle_Qle.
    + change (inject_Z 1) with 1%Q. change (inject_Z 3) with 3%Q in H3. lra.
    + change (inject_Z 3) with 3%Q in H3. lra.
Qed.

Lemma gather_draw (k : nat) (sporks_done : gmap string bool) :
  size sporks_done <> 0%nat ->
  exists p b, Gather.get_random_peer k sporks_done = Some (p, b)
              /\ sporks_done !! p = Some b.
Proof.
  intros Hne. unfold Gather.get_random_peer.
  destruct (map_to_list sporks_done !! (k mod size sporks_done)%nat)
    as [[p b]|] eqn:E.
  - exists p, b. split; [reflexivity|].
    apply list_elem_of_lookup_2 in E. now apply elem_of_map_to_list in E.
  - apply lookup_ge_None in E. rewrite length_map_to_list in E.
    pose proof (Nat.mod_upper_bound k (size sporks_done) Hne). lia.
Qed.

(** X23. The gather loop sleeps while no peer is connected.  With between 1
    and 4096 connected peers the quorum lies between 1 and the number of
    peers.  A turn sends [getsporks] only to the peer it draws, only while
    fewer peers have contributed than the quorum and only if that peer was
    not asked before; it then marks the peer as asked, and a turn that
    sends nothing changes no mark.  A peer that was asked is never sent
    the request again and stays marked.  While nobody has contributed, a
    turn sends a request when no connected peer was asked yet, and sends
    nothing when every connected peer was asked.  Once as many peers have
    contributed as are connected the loop sends nothing. *)
Theorem gather_turn_progress
    (k : nat) (from_peers : gset string) (sporks_done : gmap string bool) :
  let n := Z.of_nat (size sporks_done) in
  let r := Gather.gather_turn k from_peers sporks_done in
  (n = 0 -> r = (Gather.Sleep, sporks_done))
  /\ (1 <= n <= 4096 -> 1 <= Gather.gather_cnt n <= n)
  /\ (forall p, r.1 = Gather.SendGetsporks p ->
        sporks_done !! p = Some false
        /\ r.2 = <[p := true]> sporks_done
        /\ Z.of_nat (size from_peers) < Gather.gather_cnt n)
  /\ ((forall p, r.1 <> Gather.SendGetsporks p) -> r.2 = sporks_done)
  /\ (forall p, sporks_done !! p = Some true ->
        r.1 <> Gather.SendGetsporks p /\ r.2 !! p = Some true)
  /\ (1 <= n <= 4096 -> size from_peers = 0%nat ->
      (forall p b, sporks_done !! p = Some b -> b = false) ->
      exists p, r.1 = Gather.SendGetsporks p)
  /\ (1 <= n <= 4096 -> size from_peers = 0%nat ->
      (forall p b, sporks_done !! p = Some b -> b = true) ->
      exists p, r = (Gather.AlreadyAsked p, sporks_done))
  /\ (1 <= n <= 4096 -> n <= Z.of_nat (size from_peers) ->
      r = (Gather.Satisfied, sporks_done)).
Proof.
  cbn zeta.
  assert (Hsend : forall p,
            (Gather.gather_turn k from_peers sporks_done).1
            = Gather.SendGetsporks p ->
            sporks_done !! p = Some false
            /\ (Gather.gather_turn k from_peers sporks_done).2
               = <[p := true]> sporks_done
            /\ Z.of_nat (size from_peers)
               < Gather.gather_cnt (Z.of_nat (size sporks_done))).
  { intros p. unfold Gather.gather_turn.
    destruct (Z.eqb_spec (Z.of_nat (size sporks_done)) 0) as [|Hne];
      [discriminate|].
    destruct (Z.ltb_spec (Z.of_nat (size from_peers))
                (Gather.gather_cnt (Z.of_nat (size sporks_done))))
      as [Hfew|]; [|discriminate].
    destruct (gather_draw k sporks_done) as (q & b & -> & Hq); [lia|].
    destruct b; cbn; [discriminate|]. intros [= <-]. auto. }
  assert (Hquiet : (forall p, (Gather.gather_turn k from_peers sporks_done).1
                              <> Gather.SendGetsporks p) ->
                   (Gather.gather_turn k from_peers sporks_done).2
                   = sporks_done).
  { unfold Gather.gather_turn.
    destruct (_ =? _); [reflexivity|]. destruct (_ <? _); [|reflexivity].
    destruct (Gather.get_random_peer k sporks_done) as [[q []]|];
      cbn; try reflexivity.
    intros H. now destruct (H q). }
  assert (Hstart : 1 <= Z.of_nat (size sporks_done) <= 4096 ->
            size from_peers = 0%nat ->
            exists (q : string) (b : bool),
              sporks_done !! q = Some b
              /\ Gather.gather_turn k from_peers sporks_done
                 = if b then (Gather.AlreadyAsked q, sporks_done)
                   else (Gather.SendGetsporks q, <[q := true]> sporks_done)).
  { intros Hn Hnone. pose proof (gather_cnt_between _ Hn) as Hcnt.
    unfold Gather.gather_turn.
    destruct (Z.eqb_spec (Z.of_nat (size sporks_done)) 0); [lia|].
    rewrite Hnone.
    destruct (Z.ltb_spec (Z.of_nat 0)
                (Gather.gather_cnt (Z.of_nat (size sporks_done)))); [|lia].
    destruct (gather_draw k sporks_done) as (q & b & -> & Hq); [lia|].
    exists q, b. split; [exact Hq|]. now destruct b. }
  split; [|split; [|split; [|split; [|split; [|split; [|split]]]]]].
  - intros H0. unfold Gather.gather_turn. now rewrite H0.
  - apply gather_cnt_between.
  - exact Hsend.
  - exact Hquiet.
  - intros p Hp. split.
    + intros Hs. apply Hsend in Hs as [Hs _]. congruence.
    + destruct (Gather.gather_turn k from_peers sporks_done) as [t d] eqn:E.
      cbn [fst snd] in *. destruct t as [|q|q|];
        try (rewrite Hquiet; [exact Hp | discriminate]).
      destruct (Hsend q eq_refl) as (Hq & -> & _).
      rewrite lookup_insert_ne; [exact Hp | congruence].
  - intros Hn Hnone Hfresh. destruct (Hstart Hn Hnone) as (q & b & Hq & ->).
    rewrite (Hfresh q b Hq). now exists q.
  - intros Hn Hnone Hasked. destruct (Hstart Hn Hnone) as (q & b & Hq & ->).
    rewrite (Hasked q b Hq). now exists q.
  - intros Hn Hall. pose proof (gather_cnt_between _ Hn) as Hcnt.
    unfold Gather.gather_turn.
    destruct (Z.eqb_spec (Z.of_nat (size sporks_done)) 0); [lia|].
    destruct (Z.ltb_spec (Z.of_nat (size from_peers))
                (Gather.gather_cnt (Z.of_nat (size sporks_done))));
      [lia | reflexivity].
Qed.

Lemma gather_turn_progress_witness :
  1 <= Z.of_nat (size ({[ "a" := true ]} : gmap string bool)) <= 4096
  /\ Gather.gather_turn 0 ∅ {[ "a" := true ]}
     = (Gather.AlreadyAsked "a", {[ "a" := true ]})
  /\ Gather.gather_turn 0 ∅ {[ "a" := false ]}
     = (Gather.SendGetsporks "a", {[ "a" := true ]})
  /\ Gather.gather_turn 0 {[ "a" ]} {[ "a" := true ]}
     = (Gather.Satisfied, {[ "a" := true ]}).
Proof.
  assert (H : 1 <= Z.of_nat (size ({[ "a" := true ]} : gmap string bool))
              <= 4096) by by_evaluation.
  split; [exact H|]. split; [|split].
  - destruct (gather_turn_progress 0 ∅ {[ "a" := true ]})
      as (_ & _ & _ & _ & _ & _ & A & _).
    destruct A as (p & Hp); [exact H | by_evaluation | |].
    + intros q b Hq. apply lookup_singleton_Some in Hq as [_ <-]. reflexivity.
    + rewrite Hp. f_equal. f_equal.
      assert (Hfst : (Gather.gather_turn 0 ∅ {[ "a" := true ]}).1
                     = Gather.AlreadyAsked "a") by by_evaluation.
      rewrite Hp in Hfst. now injection Hfst.
  - by_evaluation.
  - destruct (gather_turn_progress 0 {[ "a" ]} {[ "a" := true ]})
      as (_ & _ & _ & _ & _ & _ & _ & B).
    apply B; [exact H | by_evaluation].
Defined.

(** ** The activity monitor *)

Lemma Qltb_irrefl (x : Q) : Qltb x x = false.
Proof. apply Qltb_ge, Qle_refl. Qed.

(** X24. A turn of the activity monitor triggers the network callback
    exactly when the read time or the write time moved forward, and the
    spork callback exactly when the spork time moved forward, each at most
    once; a second turn that reads the same three counters triggers
    nothing. *)
Theorem monitor_turn_once
    (new_read new_write new_spork : Q) (s : Activity.seen) :
  let r := Activity.monitor_turn new_read new_write new_spork s in
  (In Activity.dash_net_activity r.1 <->
   (Activity.read_time s < new_read)%Q
   \/ (Activity.write_time s < new_write)%Q)
  /\ (In Activity.sporks_activity r.1 <->
      (Activity.set_spork_time s < new_spork)%Q)
  /\ NoDup r.1
  /\ (Activity.monitor_turn new_read new_write new_spork r.2).1 = [].
Proof.
  cbn zeta. unfold Activity.monitor_turn. cbn [fst snd].
  cbn [Activity.read_time Activity.write_time Activity.set_spork_time].
  rewrite <- !Qltb_lt, <- orb_true_iff.
  destruct (Qltb (Activity.read_time s) new_read
            || Qltb (Activity.write_time s) new_write) eqn:Enet;
    destruct (Qltb (Activity.set_spork_time s) new_spork) eqn:Espork;
    cbn [app].
  all: split; [cbn; intuition discriminate|].
  all: split; [cbn; intuition discriminate|].
  all: split;
    [repeat (apply NoDup_cons_2;
             [intros Hin; apply list_elem_of_In in Hin; cbn in Hin;
              intuition discriminate|]);
     apply NoDup_nil_2|].
  all: rewrite ?Qltb_irrefl, ?Enet, ?Espork; reflexivity.
Qed.

Lemma monitor_turn_once_witness :
  let s := {| Activity.read_time := 10; Activity.write_time := 10;
              Activity.set_spork_time := 0 |} in
  (Activity.read_time s < 12)%Q
  /\ (Activity.monitor_turn 12 10 0 s).1 = [Activity.dash_net_activity]
  /\ In Activity.dash_net_activity (Activity.monitor_turn 12 10 0 s).1.
Proof.
  cbn zeta.
  match goal with
  | |- ?P /\ _ => assert (H : P) by reflexivity
  end.
  split; [exact H|]. split; [reflexivity|].
  apply (proj1 (monitor_turn_once 12 10 0 _)). left. exact H.
Defined.

(** ** Shedding excess peers *)

Lemma connection_down_slot dash_peer t self :
  Net.exclusive self ->
  Net.peers self !! Net.peer dash_peer = Some dash_peer ->
  let down := Net.connection_down dash_peer t self in
  Net.peers down = delete (Net.peer dash_peer) (Net.peers self)
  /\ Net.connecting down = Net.connecting self
  /\ Net.max_peers down = Net.max_peers self
  /\ Net.peers_total down = Net.peers_total self - 1
  /\ Z.of_nat (size (Net.peers down)) = Z.of_nat (size (Net.peers self)) - 1.
Proof.
  intros Hex Hlive. cbn zeta.
  destruct (connection_down_pool dash_peer t self) as [Hp Hc].
  assert (Hclosed : Net.peers (Net._close_peer (Net.peer dash_peer)
                                 dash_peer self)
                    = delete (Net.peer dash_peer) (Net.peers self)).
  { unfold Net._close_peer. now rewrite Hlive, Nat.eqb_refl. }
  assert (Hdom : Net.peer dash_peer ∈ dom (Net.peers self)).
  { apply elem_of_dom. eauto. }
  pose proof (Hex _ Hdom) as Hnc.
  rewrite Hp, Hclosed. split; [reflexivity|]. split; [exact Hc|]. split.
  { unfold Net.connection_down, Net._close_peer.
    rewrite Hlive, Nat.eqb_refl. destruct (_ && _);
      try destruct (Net.truthy_str _); reflexivity. }
  split.
  - unfold Net.peers_total. rewrite Hp, Hc, Hclosed, dom_delete_L.
    replace (Net.connecting self
             ∪ dom (Net.peers self) ∖ {[Net.peer dash_peer]})
      with ((Net.connecting self ∪ dom (Net.peers self))
              ∖ {[Net.peer dash_peer]}) by set_solver.
    rewrite size_difference by set_solver. rewrite size_singleton.
    assert (size (Net.connecting self ∪ dom (Net.peers self)) <> 0)%nat;
      [|lia].
    apply size_non_empty_iff. set_solver.
  - pose proof (map_size_delete_Some (Net.peer dash_peer) (Net.peers self)
                  (ex_intro _ dash_peer Hlive)) as Hsz.
    assert (size (Net.peers self) <> 0)%nat; [|lia].
    apply map_size_non_empty_iff. intros E. rewrite E in Hlive.
    now rewrite lookup_empty in Hlive.
Qed.

Lemma get_random_peer_live k self :
  (forall dash_peer,
     Net.get_random_peer k self = Some dash_peer ->
     exists p, Net.peers self !! p = Some dash_peer)
  /\ (Net.peers self <> ∅ -> is_Some (Net.get_random_peer k self)).
Proof.
  unfold Net.get_random_peer. split.
  - intros dash_peer H. apply list_elem_of_lookup_2 in H.
    apply list_elem_of_fmap in H as ([p dp] & -> & Hin).
    exists p. now apply elem_of_map_to_list in Hin.
  - intros Hne. apply lookup_lt_is_Some.
    assert (length (map_to_list (Net.peers self)).*2 <> 0)%nat.
    { rewrite length_fmap, length_map_to_list.
      now apply map_size_non_empty_iff. }
    apply Nat.mod_upper_bound. assumption.
Qed.

(** X26. [disconnect_excess_peers] brings a pool that is over its target
    back to the target and no further: when no address is both live and
    connecting, every live connection is stored under its own address,
    and there are enough live peers to shed, the number of live and
    connecting addresses afterwards is the smaller of what it was and
    [max_peers]; the connecting set is not touched. *)
Theorem disconnect_excess_peers_converges
    (now : Q) (draws : list nat) (self : Net.DashNet) :
  Net.exclusive self ->
  Net.keyed_by_address self ->
  Net.peers_total self - Net.max_peers self
  <= Z.of_nat (size (Net.peers self)) ->
  Net.peers_total self - Net.max_peers self <= Z.of_nat (length draws) ->
  let self' := Net.disconnect_excess_peers now draws self in
  Net.peers_total self' = Z.min (Net.peers_total self) (Net.max_peers self)
  /\ Net.connecting self' = Net.connecting self.
Proof.
  cbn zeta. revert self.
  induction draws as [|k draws IH]; intros self Hex Hkey Hlive Hdraws.
  - cbn in *. split; [lia | reflexivity].
  - cbn [Net.disconnect_excess_peers].
    destruct (Z.gtb_spec (Net.peers_total self - Net.max_peers self) 0)
      as [Hover | Hok]; [|split; [lia | reflexivity]].
    destruct (get_random_peer_live k self) as [Hsome Hget].
    destruct Hget as [dash_peer Hdp].
    { intros E. rewrite E, map_size_empty in Hlive. lia. }
    rewrite Hdp. destruct (Hsome _ Hdp) as (p & Hp).
    pose proof (Hkey _ _ Hp) as <-.
    destruct (connection_down_slot dash_peer now self Hex Hp)
      as (Hpeers & Hc & Hm & Ht & Hs).
    destruct (IH (Net.connection_down dash_peer now self)) as [A B].
    + now apply exclusive_connection_down.
    + intros q dq Hq. rewrite Hpeers in Hq.
      apply lookup_delete_Some in Hq as [_ Hq]. exact (Hkey _ _ Hq).
    + lia.
    + cbn [length] in Hdraws. lia.
    + split; [lia | congruence].
Qed.

Lemma disconnect_excess_peers_converges_witness :
  let self := Net.one_over_target in
  Net.peers_total self = 3
  /\ Net.max_peers self = 2
  /\ Net.peers_total (Net.disconnect_excess_peers 1600000000 [5; 7]%nat self)
     = 2.
Proof.
  cbn zeta.
  assert (H1 : Net.peers_total Net.one_over_target = 3) by by_evaluation.
  assert (H2 : Net.max_peers Net.one_over_target = 2) by by_evaluation.
  assert (Hp : Net.peers Net.one_over_target
               = <[Net.addr_a := Net.conn_a]>
                   (<[Net.addr_b := Net.conn_b]> ∅)) by by_evaluation.
  split; [exact H1|]. split; [exact H2|].
  destruct (disconnect_excess_peers_converges 1600000000 [5; 7]%nat
              Net.one_over_target) as [A _].
  - apply exclusive_run, exclusive_new.
  - intros p dp H. rewrite Hp in H.
    apply lookup_insert_Some in H as [[<- <-] | [_ H]]; [reflexivity|].
    apply lookup_insert_Some in H as [[<- <-] | [_ H]]; [reflexivity|].
    now rewrite lookup_empty in H.
  - rewrite H1, H2, Hp. by_evaluation.
  - rewrite H1, H2. cbn. lia.
  - rewrite A, H1, H2. reflexivity.
Defined.

(** ** The range of a masternode-list diff request *)

(** X25. [getmnlistd] requests nothing when the local height is 0 or not
    above the base height (plus the LLMQ offset when quorums are asked
    for).  Otherwise the base of the request is the stored height, and the
    requested height is either what [calc_max_height] gives (base above 1
    and more than a chunk behind) or a height strictly above the base and
    not above the local height, given a non-negative LLMQ offset and a
    positive activation height. *)
Theorem getmnlistd_params_range
    (LLMQ_OFFSET CHUNK_SIZE DIP3_ACTIVATION_HEIGHT : Z)
    (calc_max_height : Z -> Z -> Z)
    (get_mns : bool) (protx_height llmq_height height : Z) :
  0 <= LLMQ_OFFSET ->
  1 <= DIP3_ACTIVATION_HEIGHT ->
  let base := if get_mns then protx_height else llmq_height in
  let floor := if get_mns then base else base + LLMQ_OFFSET in
  let r := MnListD.getmnlistd_params LLMQ_OFFSET CHUNK_SIZE
             DIP3_ACTIVATION_HEIGHT calc_max_height get_mns protx_height
             llmq_height height in
  (r = None <-> height = 0 \/ height <= floor)
  /\ (forall b h : Z,
        r = Some (b, h) ->
        b = base
        /\ ((1 < base /\ CHUNK_SIZE < height - (base + LLMQ_OFFSET)
             /\ h = calc_max_height base height)
            \/ base < h <= height)).
Proof.
  intros Hoff Hact. cbn zeta. unfold MnListD.getmnlistd_params.
  set (base := if get_mns then protx_height else llmq_height).
  set (floor := if get_mns then base else base + LLMQ_OFFSET).
  assert (Hfloor : base <= floor) by (unfold floor; destruct get_mns; lia).
  destruct (Z.eqb_spec height 0) as [Hz | Hnz]; cbn [orb].
  { split; [split; auto|]. intros b h H. discriminate. }
  destruct (Z.leb_spec height floor) as [Hlow | Hhigh].
  { split; [split; auto|]. intros b h H. discriminate. }
  split.
  { split; [discriminate|]. intros [? | ?]; [contradiction | lia]. }
  intros b h H. injection H as <- <-. split; [reflexivity|].
  destruct (Z.leb_spec base 1).
  - right. destruct (Z.gtb_spec height DIP3_ACTIVATION_HEIGHT); lia.
  - destruct (Z.gtb_spec (height - (base + LLMQ_OFFSET)) CHUNK_SIZE).
    + left. repeat split; [lia | lia].
    + right. destruct (Z.gtb_spec (height - base) LLMQ_OFFSET); lia.
Qed.

Lemma getmnlistd_params_range_witness :
  0 <= 8 /\ 1 <= 1028160
  /\ MnListD.getmnlistd_params 8 2016 1028160 (fun b _ => b + 2016)
       false 0 1100000 1100100 = Some (1100000, 1100092)
  /\ 1100000 < 1100092 <= 1100100.
Proof.
  assert (H0 : 0 <= 8) by lia. assert (H1 : 1 <= 1028160) by lia.
  assert (E : MnListD.getmnlistd_params 8 2016 1028160 (fun b _ => b + 2016)
                false 0 1100000 1100100 = Some (1100000, 1100092))
    by reflexivity.
  split; [exact H0|]. split; [exact H1|]. split; [exact E|].
  destruct (proj2 (getmnlistd_params_range 8 2016 1028160
                     (fun b _ => b + 2016) false 0 1100000 1100100 H0 H1)
              _ _ E) as [_ [(_ & Hc & _) | Hr]]; [|exact Hr].
  cbn in Hc. lia.
Defined.
